(** * Ink GM bot: a shallow embedding of [main.py] and its specification

    The development follows the source file top-down:

    - [PyNum]: Python numbers as the bot uses them (unbounded [int], binary64
      [float] from the Standard Library's [SpecFloat]), with [int * float]
      and [int(...)] written out, exceptions included;
    - [PyStr]: [str.lower], [in], [startswith] and the [.6f] formatting;
    - [WalletStatus], [Wallet], [Config], the transaction dictionary;
    - a small monad [M] threading the chain (an abstract [World]), the
      bot object's two lists, the raised exception and the trace of calls
      to the chain client;
    - [GMBot.check_balance], [check_can_gm], [estimate_gas],
      [send_gm_transaction], [process_wallet], [run], [save_results];
    - JSON documents and files, [Config.load_config],
      [create_default_config], [load_failed_wallets], the names and the
      contents of the retry file, and [main] up to the construction of the
      bot.

    Logging is left out except where the logged expression can raise. *)

From Stdlib Require Import ZArith List String Ascii Bool Lia.
From Stdlib Require Import Floats.SpecFloat.
From Stdlib Require Import DecimalString.
Import ListNotations.

Local Open Scope string_scope.
Local Open Scope list_scope.
Local Open Scope Z_scope.

(** ** Exceptions

    Only [str(e)] is inspected by the bot; the class is kept to tell the
    interpreter's own errors from those of the chain client. *)

Inductive ExnClass :=
| TypeError
| ValueError
| OverflowError
| UnboundLocalError
| ClientError.

Record Exn := mkExn { exn_class : ExnClass; exn_str : string }.

(** ** Python numbers *)

Module PyNum.

Definition prec : Z := 53.
Definition emax : Z := 1024.

Inductive t :=
| PyInt (z : Z)
| PyFloat (f : spec_float).

(** [float(z)] as [PyLong_AsDouble] computes it: round to nearest, ties
    to even, [OverflowError] when the result does not fit. *)
Definition float_of_int (z : Z) : Exn + spec_float :=
  match binary_normalize prec emax z 0 false with
  | S754_infinity _ =>
      inl (mkExn OverflowError "int too large to convert to float")
  | f => inr f
  end.

(** [a * b]: exact on two ints, otherwise the int operand is converted
    and the product is the IEEE one. *)
Definition mul (a b : t) : Exn + t :=
  match a, b with
  | PyInt x, PyInt y => inr (PyInt (x * y))
  | PyInt x, PyFloat g =>
      match float_of_int x with
      | inl e => inl e
      | inr f => inr (PyFloat (SFmul prec emax f g))
      end
  | PyFloat f, PyInt y =>
      match float_of_int y with
      | inl e => inl e
      | inr g => inr (PyFloat (SFmul prec emax f g))
      end
  | PyFloat f, PyFloat g => inr (PyFloat (SFmul prec emax f g))
  end.

(** Truncation of a finite float towards zero. *)
Definition trunc_finite (s : bool) (m : positive) (e : Z) : Z :=
  let a := Z.shiftl (Zpos m) e in
  if s then - a else a.

(** [int(x)]. *)
Definition to_int (x : t) : Exn + Z :=
  match x with
  | PyInt z => inr z
  | PyFloat S754_nan =>
      inl (mkExn ValueError "cannot convert float NaN to integer")
  | PyFloat (S754_infinity _) =>
      inl (mkExn OverflowError "cannot convert float infinity to integer")
  | PyFloat (S754_zero _) => inr 0
  | PyFloat (S754_finite s m e) => inr (trunc_finite s m e)
  end.

(** Exact comparison [z <= x] of an int with a number, as Python's mixed
    comparison does it; [false] against NaN. *)
Definition int_le (z : Z) (x : t) : bool :=
  match x with
  | PyInt y => z <=? y
  | PyFloat S754_nan => false
  | PyFloat (S754_infinity s) => negb s
  | PyFloat (S754_zero _) => z <=? 0
  | PyFloat (S754_finite s m e) =>
      let v := if s then Zneg m else Zpos m in
      if 0 <=? e then z <=? v * 2 ^ e
      else z * 2 ^ (- e) <=? v
  end.

(** The float literals of the source. *)
Definition f_1_1 : spec_float := S754_finite false 4953959590107546 (-52).
Definition f_1_2 : spec_float := S754_finite false 5404319552844595 (-52).
Definition f_0_0001 : spec_float := S754_finite false 7378697629483821 (-66).

End PyNum.

Import PyNum.

(** ** Python strings (UTF-8 bytes; the needles and addresses are ASCII) *)

Module PyStr.

Definition lower_ascii (c : ascii) : ascii :=
  let n := nat_of_ascii c in
  if (Nat.leb 65 n && Nat.leb n 90)%bool then ascii_of_nat (n + 32) else c.

(** [s.lower()] on the UTF-8 bytes of [s]: ASCII letters are lowered, the
    other bytes are kept. Python lowers the other letters too. That shows
    neither in the search for the ASCII needles below (the only code points
    whose lower case falls into ASCII are U+0130, which gives [i] followed
    by a combining dot, and U+212A, which gives [k]; no needle has a [k] or
    ends in [i]), nor in the comparison of addresses, which are
    hexadecimal. *)
Fixpoint lower (s : string) : string :=
  match s with
  | EmptyString => EmptyString
  | String c s' => String (lower_ascii c) (lower s')
  end.

(** [needle in hay]. *)
Fixpoint str_in (needle hay : string) : bool :=
  (prefix needle hay ||
   match hay with
   | EmptyString => false
   | String _ hay' => str_in needle hay'
   end)%bool.

(** [s.startswith(p)]. *)
Definition startswith (s p : string) : bool := prefix p s.

(** [s[2:]]. *)
Definition drop2 (s : string) : string :=
  match s with
  | String _ (String _ r) => r
  | _ => EmptyString
  end.

Definition of_Z (z : Z) : string := NilZero.string_of_int (Z.to_int z).

Fixpoint zeros (n : nat) : string :=
  match n with
  | O => EmptyString
  | S k => String "0" (zeros k)
  end.

(** [str(n).rjust(w, '0')] for a non-negative [n]. *)
Definition zfill (w : nat) (n : Z) : string :=
  let s := of_Z n in
  (zeros (w - String.length s) ++ s)%string.

End PyStr.

Import PyStr.

(** ** Decimal values returned by [from_wei]

    [Dec n s] is [n / 10^s]; the int [0] that [from_wei] returns for a
    zero amount is [Dec 0 0], which compares and formats alike. *)

Record Decimal := Dec { dec_num : Z; dec_scale : nat }.

(** [d < f] for a Decimal and a float: both sides are converted exactly
    (Python 3.2 and later). NaN and infinities do not occur: the only
    float compared is the literal [0.0001]. *)
Definition decimal_lt_float (d : Decimal) (f : spec_float) : bool :=
  match f with
  | S754_finite s m e =>
      let v := if s then Zneg m else Zpos m in
      if 0 <=? e
      then dec_num d <? v * 2 ^ e * 10 ^ Z.of_nat (dec_scale d)
      else dec_num d * 2 ^ (- e) <? v * 10 ^ Z.of_nat (dec_scale d)
  | S754_zero _ => dec_num d <? 0
  | S754_infinity s => negb s
  | S754_nan => false
  end.

(** Round-half-even quotient of a non-negative [n] by a positive [d]. *)
Definition div_half_even (n d : Z) : Z :=
  let q := n / d in
  let r := n mod d in
  if 2 * r <? d then q
  else if d <? 2 * r then q + 1
  else if Z.even q then q else q + 1.

(** [f"{d:.6f}"]: rounding to six places under the default context
    (ROUND_HALF_EVEN). *)
Definition format_6f (d : Decimal) : string :=
  let a := Z.abs (dec_num d) in
  let micro :=
    if Nat.leb (dec_scale d) 6
    then a * 10 ^ Z.of_nat (6 - dec_scale d)
    else div_half_even a (10 ^ Z.of_nat (dec_scale d - 6)) in
  let sign := if dec_num d <? 0 then "-" else "" in
  let whole := of_Z (micro / 1000000) in
  let frac := zfill 6 (micro mod 1000000) in
  (sign ++ whole ++ "." ++ frac)%string.


(** ** Data model *)

(** [class WalletStatus]: seven string constants. *)
Inductive WalletStatus :=
| SUCCESS
| FAILED
| INSUFFICIENT_BALANCE
| NETWORK_ERROR
| ALREADY_GMED
| TIMEOUT
| INVALID_CONTRACT.

Definition status_text (s : WalletStatus) : string :=
  match s with
  | SUCCESS => "✅ Успешно"
  | FAILED => "❌ Ошибка"
  | INSUFFICIENT_BALANCE => "💰 Недостаточно средств"
  | NETWORK_ERROR => "🌐 Ошибка сети"
  | ALREADY_GMED => "⏰ Уже отправлен GM сегодня"
  | TIMEOUT => "⏱️ Таймаут"
  | INVALID_CONTRACT => "🔧 Неверный адрес контракта"
  end.

(** [a == b] on statuses is equality of the two strings. *)
Definition status_eqb (a b : WalletStatus) : bool :=
  String.eqb (status_text a) (status_text b).

(** A wallet dictionary of the config that has an ['address'] and a
    ['private_key'], both strings; ['proxy'] is read with [.get]. On a
    dictionary without one of the two keys, or with a key that is no
    string, lines 213-218 raise before the [try]; such dictionaries are
    outside this record. *)
Record Wallet := mkWallet {
  address : string;
  private_key : string;
  proxy : option string
}.

Record DelayConfig := mkDelayConfig {
  enabled : option bool;
  min_seconds : option Z;
  max_seconds : option Z
}.

(** The keys read with [config[...]] are fields, those read with
    [config.get(..., default)] are optional. *)
Record Config := mkConfig {
  chain_id : option Z;
  max_retries : Z;
  retry_delay : Z;
  gas_price_multiplier : option PyNum.t;
  max_gas_price_gwei : option PyNum.t;
  delay_between_wallets : option DelayConfig;
  wallets : list Wallet
}.

Definition INK_CHAIN_ID : Z := 57073.

Inductive EthUnit := ether | gwei.

(** The dictionary handed to [build_transaction] ... *)
Record TxParams := mkTxParams {
  p_from : string;
  p_gas : Z;
  p_gasPrice : Z;
  p_nonce : Z;
  p_chainId : Z
}.

(** ... and the one it returns, whose ['gas'] entry is then overwritten. *)
Record Transaction := mkTransaction {
  tx_from : string;
  tx_gas : Z;
  tx_gasPrice : Z;
  tx_nonce : Z;
  tx_chainId : Z;
  tx_to : string;
  tx_data : string;
  tx_value : Z
}.

Definition set_gas (t : Transaction) (g : Z) : Transaction :=
  mkTransaction (tx_from t) g (tx_gasPrice t) (tx_nonce t) (tx_chainId t)
                (tx_to t) (tx_data t) (tx_value t).

Record Receipt := mkReceipt {
  receipt_status : Z;
  receipt_gasUsed : Z
}.

(** One entry of [self.results]. *)
Record Result := mkResult {
  r_address : string;
  r_attempt : Z;
  r_status : WalletStatus;
  r_message : string;
  r_timestamp : string
}.

(** One entry of [self.failed_wallets]. *)
Record FailedWallet := mkFailedWallet {
  f_address : string;
  f_last_status : WalletStatus;
  f_last_error : string
}.

(** One entry of the retry file. *)
Record FailedEntry := mkFailedEntry {
  e_address : string;
  e_private_key : string;
  e_proxy : option string;
  e_last_error : string;
  e_last_status : WalletStatus
}.

Record Summary := mkSummary {
  total : Z;
  successful : Z;
  already_gmed : Z;
  failed : Z
}.

Record ResultsFile := mkResultsFile {
  rf_results : list Result;
  rf_failed_wallets : list FailedWallet;
  rf_summary : Summary
}.

Record FailedFile := mkFailedFile {
  ff_timestamp : string;
  ff_count : Z;
  ff_wallets : list FailedEntry
}.

(** ** The trace: every call to the chain client with its answer, the
    sleeps, the attempt header logged by [process_wallet] and the two files
    written at the end. *)
Inductive Event :=
| EvGetBalance (addr : string) (r : Exn + Z)
| EvGetTransactionCount (addr : string) (r : Exn + Z)
| EvGasPrice (r : Exn + Z)
| EvBuildTransaction (p : TxParams) (r : Exn + Transaction)
| EvEstimateGas (t : Transaction) (r : Exn + Z)
| EvSignTransaction (t : Transaction) (key : string) (r : Exn + string)
| EvSendRawTransaction (raw : string) (r : Exn + string)
| EvWaitForReceipt (tx_hash : string) (timeout : Z) (r : Exn + Receipt)
| EvSleep (seconds : Z)
| EvAttempt (addr : string) (attempt : Z)
| EvWriteResults (doc : ResultsFile)
| EvWriteFailed (doc : FailedFile).

(** The bot object's mutable attributes. *)
Record Bot := mkBot {
  results : list Result;
  failed_wallets : list FailedWallet
}.

(** ** The chain client and the library helpers

    [World] is whatever the answers depend on (chain, clock, random
    generator); each call consumes a world and yields the next one. *)
Record Web3 (World : Type) := mkWeb3 {
  to_checksum_address : string -> Exn + string;
  from_wei : Z -> EthUnit -> Exn + Decimal;
  to_wei : PyNum.t -> EthUnit -> Exn + Z;
  hex : string -> string;
  from_key : string -> Exn + unit;
  sign_transaction : Transaction -> string -> Exn + string;
  get_balance : string -> World -> (Exn + Z) * World;
  get_transaction_count : string -> World -> (Exn + Z) * World;
  gas_price : World -> (Exn + Z) * World;
  eth_estimate_gas : Transaction -> World -> (Exn + Z) * World;
  build_transaction : TxParams -> World -> (Exn + Transaction) * World;
  send_raw_transaction : string -> World -> (Exn + string) * World;
  wait_for_transaction_receipt :
    string -> Z -> World -> (Exn + Receipt) * World;
  strftime_now : string -> World -> string * World;
  randint : Z -> Z -> World -> Z * World
}.

Arguments to_checksum_address {World}.
Arguments from_wei {World}.
Arguments to_wei {World}.
Arguments hex {World}.
Arguments from_key {World}.
Arguments sign_transaction {World}.
Arguments get_balance {World}.
Arguments get_transaction_count {World}.
Arguments gas_price {World}.
Arguments eth_estimate_gas {World}.
Arguments build_transaction {World}.
Arguments send_raw_transaction {World}.
Arguments wait_for_transaction_receipt {World}.
Arguments strftime_now {World}.
Arguments randint {World}.

(** ** The monad: state, trace and exceptions *)

Record State (World : Type) := mkState { world : World; bot : Bot }.
Arguments mkState {World}.
Arguments world {World}.
Arguments bot {World}.

Definition M (World A : Type) : Type :=
  State World -> (Exn + A) * list Event * State World.

Section Monad.
Context {World : Type}.

Definition ret {A} (a : A) : M World A := fun s => (inr a, [], s).

Definition bind {A B} (m : M World A) (k : A -> M World B) : M World B :=
  fun s =>
    match m s with
    | (inl e, t, s') => (inl e, t, s')
    | (inr a, t, s') =>
        let '(r, t', s'') := k a s' in (r, t ++ t', s'')
    end.

Definition raise {A} (e : Exn) : M World A := fun s => (inl e, [], s).

(** [try: m  except Exception as e: h e]. *)
Definition try_except {A} (m : M World A) (h : Exn -> M World A)
  : M World A :=
  fun s =>
    match m s with
    | (inl e, t, s') => let '(r, t', s'') := h e s' in (r, t ++ t', s'')
    | ok => ok
    end.

(** A pure library call that may raise. *)
Definition lift {A} (r : Exn + A) : M World A :=
  match r with
  | inl e => raise e
  | inr a => ret a
  end.

Definition emit (ev : Event) : M World unit := fun s => (inr tt, [ev], s).

(** A call to the client: the answer is recorded in the trace. *)
Definition rpc {A} (f : World -> (Exn + A) * World)
           (ev : Exn + A -> Event) : M World A :=
  fun s =>
    let '(r, w) := f (world s) in (r, [ev r], mkState w (bot s)).

(** A call that cannot raise and leaves no trace (clock, generator). *)
Definition ask {A} (f : World -> A * World) : M World A :=
  fun s => let '(a, w) := f (world s) in (inr a, [], mkState w (bot s)).

Definition get_bot : M World Bot := fun s => (inr (bot s), [], s).

Definition set_bot (b : Bot) : M World unit :=
  fun s => (inr tt, [], mkState (world s) b).

End Monad.

Declare Scope bot_scope.
Delimit Scope bot_scope with bot.
Notation "x <- m ;; k" := (bind m (fun x => k))
  (at level 61, m at next level, right associativity) : bot_scope.
Notation "' pat <- m ;; k" := (bind m (fun x => match x with pat => k end))
  (at level 61, pat pattern, m at next level, right associativity)
  : bot_scope.
Notation "m ;; k" := (bind m (fun _ => k))
  (at level 61, right associativity) : bot_scope.

(** [x <- a; k] in the error monad of pure calls. *)
Definition and_then {A B} (a : Exn + A) (k : A -> Exn + B) : Exn + B :=
  match a with
  | inl e => inl e
  | inr x => k x
  end.

(** [range(lo, hi)]. *)
Definition range (lo hi : Z) : list Z :=
  map (fun i => lo + Z.of_nat i) (seq 0 (Z.to_nat (hi - lo))).

(** ** [class GMBot] *)

(** The local variables of [run] that outlive one turn of its loops. A
    name that was never assigned is [None]. *)
Record Locals := mkLocals {
  l_success : bool;
  l_status : option WalletStatus;
  l_error_message : option string
}.

Section GMBot.
Context {World : Type}.
Variable w3 : Web3 World.
Variable config : Config.

Local Open Scope bot_scope.

(** [time.sleep(seconds)]. *)
Definition sleep (seconds : Z) : M World unit :=
  if seconds <? 0
  then raise (mkExn ValueError "sleep length must be non-negative")
  else emit (EvSleep seconds).

(** [random.randint(a, b)]; the text of the error varies with the
    interpreter and is never inspected. *)
Definition random_randint (a b : Z) : M World Z :=
  if b <? a
  then raise (mkExn ValueError "empty range for randrange()")
  else ask (randint w3 a b).

(** [def check_balance(self, address)]; the handler logs and returns
    [None]. *)
Definition check_balance (address : string) : M World (option Decimal) :=
  try_except
    (address <- lift (to_checksum_address w3 address) ;;
     balance <- rpc (get_balance w3 address) (EvGetBalance address) ;;
     balance_eth <- lift (from_wei w3 balance ether) ;;
     ret (Some balance_eth))
    (fun _ => ret None).

(** [def check_can_gm(self, address)]. *)
Definition check_can_gm (address : string) : bool * Z := (true, 0).

(** [def estimate_gas(self, transaction)]. *)
Definition estimate_gas (transaction : Transaction) : M World Z :=
  try_except
    (gas_estimate <- rpc (eth_estimate_gas w3 transaction)
                         (EvEstimateGas transaction) ;;
     lift (and_then (mul (PyInt gas_estimate) (PyFloat f_1_2)) to_int))
    (fun _ => ret 100000).

Definition min_balance : spec_float := f_0_0001.

(** [f"{min_balance:.6f}"]. *)
Definition min_balance_6f : string := "0.000100".

(** [f"{balance_eth:.6f}"], which raises on [None]. *)
Definition balance_6f (balance_eth : option Decimal) : Exn + string :=
  match balance_eth with
  | None =>
      inl (mkExn TypeError
             "unsupported format string passed to NoneType.__format__")
  | Some d => inr (format_6f d)
  end.

(** [balance_eth is None or balance_eth < min_balance]. *)
Definition balance_too_low (balance_eth : option Decimal) : bool :=
  match balance_eth with
  | None => true
  | Some d => decimal_lt_float d min_balance
  end.

(** The [except Exception as e] clause of [send_gm_transaction]. *)
Definition classify_error (error_msg : string)
  : bool * WalletStatus * string :=
  if str_in "insufficient funds" (lower error_msg)
  then (false, INSUFFICIENT_BALANCE, error_msg)
  else if (str_in "already" (lower error_msg)
           || str_in "wait" (lower error_msg))%bool
  then (false, ALREADY_GMED, error_msg)
  else if str_in "timeout" (lower error_msg)
  then (false, TIMEOUT, error_msg)
  else (false, FAILED, error_msg).

(** [private_key] without its [0x] or [0X]. *)
Definition strip_0x (private_key : string) : string :=
  if (startswith private_key "0x" || startswith private_key "0X")%bool
  then drop2 private_key
  else private_key.

(** Lines 240-252: the price sent with the transaction. *)
Definition effective_gas_price (gas_price max_gas_price : Z)
           (multiplier : PyNum.t) : Exn + Z :=
  let gas_price :=
    if gas_price >? max_gas_price then max_gas_price else gas_price in
  and_then (mul (PyInt gas_price) multiplier) to_int.

(** The body of the [try] of [send_gm_transaction]. *)
Definition send_gm_body (address private_key : string)
  : M World (bool * WalletStatus * string) :=
  balance_eth <- check_balance address ;;
  if balance_too_low balance_eth then
    shown <- lift (balance_6f balance_eth) ;;
    ret (false, INSUFFICIENT_BALANCE,
         ("Баланс: " ++ shown ++ " ETH (нужно минимум "
            ++ min_balance_6f ++ " ETH)")%string)
  else
    let '(can_gm, wait_seconds) := check_can_gm address in
    if negb can_gm then
      let hours := wait_seconds / 3600 in
      let minutes := (wait_seconds mod 3600) / 60 in
      ret (false, ALREADY_GMED,
           ("Следующий GM через " ++ of_Z hours ++ "ч "
              ++ of_Z minutes ++ "м")%string)
    else
      nonce <- rpc (get_transaction_count w3 address)
                   (EvGetTransactionCount address) ;;
      gas_price <- rpc (gas_price w3) EvGasPrice ;;
      max_gas_price <-
        lift (to_wei w3 (match max_gas_price_gwei config with
                         | Some c => c
                         | None => PyInt 50
                         end) gwei) ;;
      (if gas_price >? max_gas_price
       then _ <- lift (from_wei w3 gas_price gwei) ;; ret tt
       else ret tt) ;;
      let multiplier := match gas_price_multiplier config with
                        | Some m => m
                        | None => PyFloat f_1_1
                        end in
      gas_price <-
        lift (effective_gas_price gas_price max_gas_price multiplier) ;;
      _ <- lift (from_wei w3 gas_price gwei) ;;
      let params :=
        mkTxParams address 100000 gas_price nonce
                   (match chain_id config with
                    | Some c => c
                    | None => INK_CHAIN_ID
                    end) in
      transaction <- rpc (build_transaction w3 params)
                         (EvBuildTransaction params) ;;
      gas_limit <- estimate_gas transaction ;;
      let transaction := set_gas transaction gas_limit in
      _ <- lift (from_key w3 private_key) ;;
      let signed := sign_transaction w3 transaction private_key in
      emit (EvSignTransaction transaction private_key signed) ;;
      raw_transaction <- lift signed ;;
      tx_hash <- rpc (send_raw_transaction w3 raw_transaction)
                     (EvSendRawTransaction raw_transaction) ;;
      let tx_hash_hex := hex w3 tx_hash in
      receipt <- rpc (wait_for_transaction_receipt w3 tx_hash 120)
                     (EvWaitForReceipt tx_hash 120) ;;
      if receipt_status receipt =? 1
      then ret (true, SUCCESS, ("TX: " ++ tx_hash_hex)%string)
      else ret (false, FAILED,
                ("Транзакция reverted. TX: " ++ tx_hash_hex)%string).

(** [def send_gm_transaction(self, wallet_data)]. The checksum of the
    address is taken before the [try]. *)
Definition send_gm_transaction (wallet_data : Wallet)
  : M World (bool * WalletStatus * string) :=
  address <- lift (to_checksum_address w3 (address wallet_data)) ;;
  let private_key := strip_0x (private_key wallet_data) in
  try_except
    (send_gm_body address private_key)
    (fun e => ret (classify_error (exn_str e))).

(** [def process_wallet(self, wallet_data, attempt=1)]. *)
Definition process_wallet (wallet_data : Wallet) (attempt : Z)
  : M World (bool * WalletStatus * string) :=
  emit (EvAttempt (address wallet_data) attempt) ;;
  send_gm_transaction wallet_data.

(** [self.results.append(result)]. *)
Definition append_result (result : Result) : M World unit :=
  b <- get_bot ;;
  set_bot (mkBot (results b ++ [result]) (failed_wallets b)).

(** [self.failed_wallets.append(record)]. *)
Definition append_failed (record : FailedWallet) : M World unit :=
  b <- get_bot ;;
  set_bot (mkBot (results b) (failed_wallets b ++ [record])).

(** Reading a local of [run]; the message is that of Python 3.11 and
    later. *)
Definition read_local {A} (name : string) (v : option A) : M World A :=
  match v with
  | Some a => ret a
  | None =>
      raise (mkExn UnboundLocalError
               ("cannot access local variable '" ++ name
                  ++ "' where it is not associated with a value")%string)
  end.

(** The loop [for attempt in range(1, max_retries + 1)] of [run], over
    what is left of the range. *)
Fixpoint attempts (wallet_data : Wallet) (rng : list Z) (loc : Locals)
  : M World Locals :=
  match rng with
  | [] => ret loc
  | attempt :: rng' =>
      '(success, status, error_message) <-
        process_wallet wallet_data attempt ;;
      timestamp <- ask (strftime_now w3 "%Y-%m-%d %H:%M:%S") ;;
      append_result (mkResult (address wallet_data) attempt status
                              error_message timestamp) ;;
      let loc' := mkLocals success (Some status) (Some error_message) in
      if (success || status_eqb status ALREADY_GMED)%bool
      then ret loc'
      else
        (if attempt <? max_retries config
         then sleep (retry_delay config)
         else ret tt) ;;
        attempts wallet_data rng' loc'
  end.

Definition delay_enabled : bool :=
  match delay_between_wallets config with
  | Some d => match enabled d with Some b => b | None => false end
  | None => false
  end.

Definition min_delay : Z :=
  match delay_between_wallets config with
  | Some d => match min_seconds d with Some n => n | None => 30 end
  | None => 30
  end.

Definition max_delay : Z :=
  match delay_between_wallets config with
  | Some d => match max_seconds d with Some n => n | None => 80 end
  | None => 80
  end.

(** One turn of [for index, wallet_data in enumerate(wallets)]. *)
Definition run_wallet (index : Z) (wallet_data : Wallet) (loc : Locals)
  : M World Locals :=
  let loc := mkLocals false (l_status loc) (l_error_message loc) in
  (if (delay_enabled && (index >? 0))%bool
   then delay <- random_randint min_delay max_delay ;; sleep delay
   else ret tt) ;;
  loc <- attempts wallet_data (range 1 (max_retries config + 1)) loc ;;
  if negb (l_success loc) then
    status <- read_local "status" (l_status loc) ;;
    if negb (status_eqb status ALREADY_GMED) then
      error_message <- read_local "error_message" (l_error_message loc) ;;
      append_failed (mkFailedWallet (address wallet_data) status
                                    error_message) ;;
      ret loc
    else ret loc
  else ret loc.

Fixpoint run_wallets (index : Z) (ws : list Wallet) (loc : Locals)
  : M World Locals :=
  match ws with
  | [] => ret loc
  | wallet_data :: ws' =>
      loc <- run_wallet index wallet_data loc ;;
      run_wallets (index + 1) ws' loc
  end.

(** [sum(1 for r in self.results if r['status'] == s)]. *)
Definition count_status (s : WalletStatus) (rs : list Result) : Z :=
  Z.of_nat (List.length (filter (fun r => status_eqb (r_status r) s) rs)).

(** The ['summary'] entry of the results file. *)
Definition summary (b : Bot) : Summary :=
  mkSummary (Z.of_nat (List.length (wallets config)))
            (count_status SUCCESS (results b))
            (count_status ALREADY_GMED (results b))
            (Z.of_nat (List.length (failed_wallets b))).

(** The inner loop of [save_results]: the first wallet of the config
    whose lower-cased address is that of the failed record. *)
Definition find_original (failed : FailedWallet) : option Wallet :=
  find (fun wallet =>
          String.eqb (lower (address wallet)) (lower (f_address failed)))
       (wallets config).

(** The outer loop: the entries of the retry file. *)
Fixpoint enrich (fs : list FailedWallet) : list FailedEntry :=
  match fs with
  | [] => []
  | failed :: fs' =>
      match find_original failed with
      | Some wallet =>
          mkFailedEntry (address wallet) (private_key wallet)
                        (proxy wallet) (f_last_error failed)
                        (f_last_status failed) :: enrich fs'
      | None => enrich fs'
      end
  end.

(** [def save_results(self)]; writing the two files is left to the
    persistence layer and shows as two events. *)
Definition save_results : M World unit :=
  timestamp <- ask (strftime_now w3 "%Y%m%d_%H%M%S") ;;
  b <- get_bot ;;
  emit (EvWriteResults
          (mkResultsFile (results b) (failed_wallets b) (summary b))) ;;
  match failed_wallets b with
  | [] => ret tt
  | _ :: _ =>
      emit (EvWriteFailed
              (mkFailedFile timestamp
                            (Z.of_nat (List.length (failed_wallets b)))
                            (enrich (failed_wallets b))))
  end.

(** [def run(self)]; [print_summary] only logs. *)
Definition run : M World unit :=
  _ <- run_wallets 0 (wallets config) (mkLocals false None None) ;;
  save_results.

End GMBot.

(** [GMBot.__init__] starts from two empty lists. *)
Definition new_bot : Bot := mkBot [] [].

(** ** A scripted client for the examples

    Balances and nonces are given per address, the receipts are consumed
    in order. Addresses are [0x] followed by forty decimal digits, on
    which the checksum form is the address itself. *)
Module Sim.

Record t := mk {
  balance_of : string -> Exn + Z;
  nonce_of : string -> Exn + Z;
  price : Exn + Z;
  estimate : Exn + Z;
  receipts : list (Exn + Receipt);
  ticks : Z
}.

Definition is_digit (c : ascii) : bool :=
  let n := nat_of_ascii c in (Nat.leb 48 n && Nat.leb n 57)%bool.

Fixpoint all_digits (s : string) : bool :=
  match s with
  | EmptyString => true
  | String c s' => (is_digit c && all_digits s')%bool
  end.

Definition checksum (a : string) : Exn + string :=
  if (prefix "0x" a && Nat.eqb (String.length a) 42
      && all_digits (drop2 a))%bool
  then inr a
  else inl (mkExn ValueError "invalid address").

Definition MAX_WEI : Z := 2 ^ 256 - 1.

Definition places (u : EthUnit) : nat :=
  match u with ether => 18%nat | gwei => 9%nat end.

Definition wei_to (n : Z) (u : EthUnit) : Exn + Decimal :=
  if n =? 0 then inr (Dec 0 0)
  else if ((n <? 0) || (MAX_WEI <? n))%bool
  then inl (mkExn ValueError "value must be between 1 and 2**256 - 1")
  else inr (Dec n (places u)).

(** Whole amounts only. *)
Definition to_wei (x : PyNum.t) (u : EthUnit) : Exn + Z :=
  match x with
  | PyInt n =>
      let r := n * 10 ^ Z.of_nat (places u) in
      if ((r <? 0) || (MAX_WEI <? r))%bool
      then inl (mkExn ValueError "value must be between 1 and 2**256 - 1")
      else inr r
  | PyFloat _ => inl (mkExn TypeError "unsupported amount")
  end.

Definition wait (h : string) (timeout : Z) (w : t)
  : (Exn + Receipt) * t :=
  match receipts w with
  | [] => (inl (mkExn ClientError "no receipt"), w)
  | r :: rs =>
      (r, mk (balance_of w) (nonce_of w) (price w) (estimate w) rs
             (ticks w))
  end.

Definition now (fmt : string) (w : t) : string * t :=
  (of_Z (ticks w),
   mk (balance_of w) (nonce_of w) (price w) (estimate w) (receipts w)
      (ticks w + 1)).

Definition client : Web3 t :=
  mkWeb3 t
    checksum wei_to to_wei
    (fun h => h)
    (fun _ => inr tt)
    (fun _ key => inr ("signed:" ++ key)%string)
    (fun a w => (balance_of w a, w))
    (fun a w => (nonce_of w a, w))
    (fun w => (price w, w))
    (fun _ w => (estimate w, w))
    (fun p w =>
       (inr (mkTransaction (p_from p) (p_gas p) (p_gasPrice p) (p_nonce p)
                           (p_chainId p) "gm-contract" "gm()" 0), w))
    (fun raw w => (inr ("hash:" ++ raw)%string, w))
    wait now
    (fun a _ w => (a, w)).

End Sim.

(** ** Inputs of the examples *)
Module Ex.

Definition A : string := "0x1111111111111111111111111111111111111111".
Definition B : string := "0x2222222222222222222222222222222222222222".
Definition C : string := "0x3333333333333333333333333333333333333333".

Definition wallet_A : Wallet := mkWallet A "0xaa" None.
Definition wallet_B : Wallet := mkWallet B "bb" None.
Definition wallet_C : Wallet := mkWallet C "cc" (Some "socks5://proxy").

(** The placeholder of [create_default_config]. *)
Definition wallet_dots : Wallet := mkWallet "0x..." "key" None.

Definition one_ether : Z := 1000000000000000000.

(** Three wallets, two tries, one second between tries. *)
Definition cfg : Config :=
  mkConfig None 2 1 (Some (PyFloat f_1_1)) (Some (PyInt 50)) None
           [wallet_A; wallet_B; wallet_C].

Definition cfg_no_retry : Config :=
  mkConfig None 0 1 (Some (PyFloat f_1_1)) (Some (PyInt 50)) None
           [wallet_A; wallet_B; wallet_C].

Definition ok_receipt : Exn + Receipt := inr (mkReceipt 1 21000).
Definition reverted_receipt : Exn + Receipt := inr (mkReceipt 0 100000).

(** [C] is short of funds; the second wait times out. *)
Definition chain : Sim.t :=
  Sim.mk (fun a => if String.eqb a C then inr 50000000000000
                   else inr one_ether)
         (fun _ => inr 7) (inr 40000000000) (inr 21000)
         [ok_receipt; inl (mkExn ClientError "Read timeout"); ok_receipt]
         0.

(** The balance query fails. *)
Definition chain_down : Sim.t :=
  Sim.mk (fun _ => inl (mkExn ClientError "connection timeout"))
         (fun _ => inr 7) (inr 40000000000) (inr 21000) [ok_receipt] 0.

(** The transaction of [A] is mined and reverts. *)
Definition chain_reverting : Sim.t :=
  Sim.mk (fun _ => inr one_ether) (fun _ => inr 7) (inr 40000000000)
         (inl (mkExn ClientError "execution reverted")) [reverted_receipt] 0.

(** The nonce query is throttled. *)
Definition chain_throttled : Sim.t :=
  Sim.mk (fun _ => inr one_ether)
         (fun _ => inl (mkExn ClientError "rate limited, please wait"))
         (inr 40000000000) (inr 21000) [ok_receipt] 0.

(** A negative multiplier, a ceiling of one gwei, and a network price of
    one wei. *)
Definition minus_half : spec_float :=
  S754_finite true 4503599627370496 (-53).

Definition cfg_negative : Config :=
  mkConfig None 2 1 (Some (PyFloat minus_half)) (Some (PyInt 1)) None
           [wallet_A].

Definition chain_cheap : Sim.t :=
  Sim.mk (fun _ => inr one_ether) (fun _ => inr 7) (inr 1) (inr 21000)
         [ok_receipt] 0.

Definition start (w : Sim.t) : State Sim.t := mkState w new_bot.

End Ex.

(** ** Further inputs *)
Module Ex2.

(** The second wallet still carries the placeholder address. *)
Definition cfg_placeholder : Config :=
  mkConfig None 2 1 (Some (PyFloat f_1_1)) (Some (PyInt 50)) None
           [Ex.wallet_A; Ex.wallet_dots; Ex.wallet_B].

(** Delays between wallets are on, with the bounds the wrong way round. *)
Definition cfg_delay : Config :=
  mkConfig None 2 1 (Some (PyFloat f_1_1)) (Some (PyInt 50))
           (Some (mkDelayConfig (Some true) (Some 80) (Some 30)))
           [Ex.wallet_A; Ex.wallet_B].

(** Delays of 30 to 80 seconds between the wallets. *)
Definition cfg_delayed : Config :=
  mkConfig None 2 1 (Some (PyFloat f_1_1)) (Some (PyInt 50))
           (Some (mkDelayConfig (Some true) (Some 30) (Some 80)))
           [Ex.wallet_A; Ex.wallet_B; Ex.wallet_C].

End Ex2.

(** ** Vocabulary of the statements *)

(** Events that come from the chain client. *)
Definition is_client_event (ev : Event) : bool :=
  match ev with
  | EvSleep _ | EvAttempt _ _ | EvWriteResults _ | EvWriteFailed _ => false
  | _ => true
  end.

(** Events that build, sign or broadcast a transaction. *)
Definition is_transaction_event (ev : Event) : bool :=
  match ev with
  | EvBuildTransaction _ _ | EvSignTransaction _ _ _
  | EvSendRawTransaction _ _ => true
  | _ => false
  end.

(** The outcomes that stop the retries. *)
Definition is_final (s : WalletStatus) : bool :=
  match s with
  | SUCCESS | ALREADY_GMED => true
  | _ => false
  end.

(** The trace of a retry loop that starts at attempt [i]: the header of
    each attempt, the client events of that attempt, and [sleep d] between
    two attempts. *)
Fixpoint attempt_trace (addr : string) (d i : Z) (segs : list (list Event))
  : list Event :=
  match segs with
  | [] => []
  | seg :: segs' =>
      EvAttempt addr i :: seg ++
      match segs' with
      | [] => []
      | _ :: _ => EvSleep d :: attempt_trace addr d (i + 1) segs'
      end
  end.

(** What a wallet leaves in [self.results]: the attempts that were retried
    and the last one. *)
Definition Outcome : Type := list Result * Result.

Definition outcome_results (o : Outcome) : list Result := fst o ++ [snd o].

Definition terminal_status (o : Outcome) : WalletStatus := r_status (snd o).

(** The record appended to [self.failed_wallets] for a wallet. *)
Definition failed_record (wo : Wallet * Outcome) : FailedWallet :=
  mkFailedWallet (address (fst wo)) (r_status (snd (snd wo)))
                 (r_message (snd (snd wo))).

(** A well-formed outcome of a wallet: the retried attempts did not end
    the retries, every result carries the wallet's address, and the
    attempts are numbered from 1 without gaps. *)
Definition wallet_outcome (w : Wallet) (o : Outcome) : Prop :=
  Forall (fun x => is_final (r_status x) = false) (fst o) /\
  Forall (fun x => r_address x = address w) (outcome_results o) /\
  map r_attempt (outcome_results o)
  = range 1 (1 + Z.of_nat (List.length (outcome_results o))).

(** Does the wallet end up in [self.failed_wallets]? *)
Definition ends_failed (wo : Wallet * Outcome) : bool :=
  negb (is_final (terminal_status (snd wo))).

(** The entry of the retry file made from a failed record and the wallet
    found for it. *)
Definition entry_of (w : Wallet) (f : FailedWallet) : FailedEntry :=
  mkFailedEntry (address w) (private_key w) (proxy w) (f_last_error f)
                (f_last_status f).

(** Rounding to 53 bits on scaled integers: [X] stands for [X * 2^b] and
    [c] for the least exponent, counted from [b]. *)
Definition round53 (c X : Z) : Z :=
  let s := Z.max (Z.log2 X + 1 - 53) c in
  div_half_even X (2 ^ s) * 2 ^ s.

(** The gas limit that [estimate_gas] draws from the client's answer. *)
Definition gas_limit_of (ans : Exn + Z) : Z :=
  match ans with
  | inl _ => 100000
  | inr gas_estimate =>
      match and_then (mul (PyInt gas_estimate) (PyFloat f_1_2)) to_int with
      | inl _ => 100000
      | inr limit => limit
      end
  end.

(** [wp m s Q]: the outcome, the trace and the final state of [m] run
    from [s] satisfy [Q]. *)
Definition wp {World A} (m : M World A) (s : State World)
           (Q : Exn + A -> list Event -> State World -> Prop) : Prop :=
  Q (fst (fst (m s))) (snd (fst (m s))) (snd (m s)).

(** ** Vocabulary of the further facts *)

(** The place of a client call in an attempt: 1 for the balance, 2 for the
    nonce, and so on up to 8 for the receipt; 0 for what is no client
    call. *)
Definition call_rank (ev : Event) : nat :=
  match ev with
  | EvGetBalance _ _ => 1
  | EvGetTransactionCount _ _ => 2
  | EvGasPrice _ => 3
  | EvBuildTransaction _ _ => 4
  | EvEstimateGas _ _ => 5
  | EvSignTransaction _ _ _ => 6
  | EvSendRawTransaction _ _ => 7
  | EvWaitForReceipt _ _ _ => 8
  | _ => 0
  end.

(** Did the call answer, rather than raise? *)
Definition answered (ev : Event) : bool :=
  match ev with
  | EvGetBalance _ (inl _) | EvGetTransactionCount _ (inl _)
  | EvGasPrice (inl _) | EvBuildTransaction _ (inl _)
  | EvEstimateGas _ (inl _) | EvSignTransaction _ _ (inl _)
  | EvSendRawTransaction _ (inl _) | EvWaitForReceipt _ _ (inl _) => false
  | _ => true
  end.

(** The statuses that the bot hands out; the other two constants of
    [WalletStatus] are defined and never used. *)
Definition handed_out (s : WalletStatus) : bool :=
  match s with
  | NETWORK_ERROR | INVALID_CONTRACT => false
  | _ => true
  end.

(** Events that write a file. *)
Definition is_write_event (ev : Event) : bool :=
  match ev with
  | EvWriteResults _ | EvWriteFailed _ => true
  | _ => false
  end.

(** What the turns of the wallets [ws] may leave in the trace: no file is
    written, and the attempts are attempts on wallets of [ws]. *)
Definition turn_event (ws : list Wallet) (ev : Event) : Prop :=
  is_write_event ev = false /\
  forall a i, ev = EvAttempt a i -> In a (map address ws).

(** What a result of the wallet [w] looks like when its attempts are
    drawn from [rng]. *)
Definition result_of (w : Wallet) (rng : list Z) (x : Result) : Prop :=
  r_address x = address w /\ In (r_attempt x) rng /\
  handed_out (r_status x) = true.

(** The trace of the turns of the wallets [ws], numbered from [index]:
    each turn is the delay before the wallet, when delays are on and the
    wallet is not the first, followed by the attempts on it. A turn is
    given by the delay and by the client events of each attempt. *)
Fixpoint turns_trace (delays : bool) (retry_delay : Z) (index : Z)
         (ws : list Wallet) (turns : list (Z * list (list Event)))
  : list Event :=
  match ws, turns with
  | w :: ws', (d, segs) :: turns' =>
      (if (delays && (index >? 0))%bool then [EvSleep d] else [])
        ++ attempt_trace (address w) retry_delay 1 segs
        ++ turns_trace delays retry_delay (index + 1) ws' turns'
  | _, _ => []
  end.

(** * Configuration files and the command line *)

(** ** JSON documents, as [json.load] returns them

    A dict is the list of its entries in the order of insertion, with
    distinct keys. *)
#[warnings="-register-all"]
Inductive JSON :=
| JNull
| JBool (b : bool)
| JNum (n : PyNum.t)
| JStr (s : string)
| JList (l : list JSON)
| JDict (d : list (string * JSON)).

Fixpoint dict_get (d : list (string * JSON)) (k : string) : option JSON :=
  match d with
  | [] => None
  | (k', v) :: d' => if String.eqb k' k then Some v else dict_get d' k
  end.

(** [d[k] = v] keeps the place of a key that is there and appends a new
    one. *)
Fixpoint dict_set (d : list (string * JSON)) (k : string) (v : JSON)
  : list (string * JSON) :=
  match d with
  | [] => [(k, v)]
  | (k', v') :: d' =>
      if String.eqb k' k then (k, v) :: d' else (k', v') :: dict_set d' k v
  end.

(** The operations below answer [None] where Python raises; the callers
    catch whatever is raised, and nothing depends on which exception it
    is. *)

(** [j[k]] for a string [k]: KeyError on a dict without [k], TypeError on
    everything else. *)
Definition getitem (j : JSON) (k : string) : option JSON :=
  match j with
  | JDict d => dict_get d k
  | _ => None
  end.

(** [j.get(k, default)]: AttributeError on everything but a dict. *)
Definition get_method (j : JSON) (k : string) (default : JSON)
  : option JSON :=
  match j with
  | JDict d =>
      Some match dict_get d k with
           | Some v => v
           | None => default
           end
  | _ => None
  end.

(** [j[k] = v]: TypeError on everything but a dict. *)
Definition setitem (j : JSON) (k : string) (v : JSON) : option JSON :=
  match j with
  | JDict d => Some (JDict (dict_set d k v))
  | _ => None
  end.

(** [len(j) == 0]: TypeError on numbers, booleans and [None]. *)
Definition len_is_0 (j : JSON) : option bool :=
  match j with
  | JList l => Some match l with [] => true | _ :: _ => false end
  | JDict d => Some match d with [] => true | _ :: _ => false end
  | JStr s => Some match s with EmptyString => true | String _ _ => false end
  | _ => None
  end.

(** The bytes of the first character of a UTF-8 string. *)
Definition first_char (s : string) : string :=
  match s with
  | EmptyString => EmptyString
  | String c _ =>
      let n := nat_of_ascii c in
      let k := if Nat.ltb n 192 then 1%nat
               else if Nat.ltb n 224 then 2%nat
               else if Nat.ltb n 240 then 3%nat
               else 4%nat in
      substring 0 k s
  end.

(** [j[0]]: IndexError on what is empty, KeyError on a dict (its keys are
    strings), TypeError on numbers, booleans and [None]. *)
Definition first_item (j : JSON) : option JSON :=
  match j with
  | JList (x :: _) => Some x
  | JStr (String c s) => Some (JStr (first_char (String c s)))
  | _ => None
  end.

(** The truth value of [j]. *)
Definition truthy (j : JSON) : bool :=
  match j with
  | JNull => false
  | JBool b => b
  | JNum (PyInt z) => negb (z =? 0)
  | JNum (PyFloat (S754_zero _)) => false
  | JNum (PyFloat _) => true
  | JStr s => match s with EmptyString => false | String _ _ => true end
  | JList l => match l with [] => false | _ :: _ => true end
  | JDict d => match d with [] => false | _ :: _ => true end
  end.

(** [j == s] for a string [s]. *)
Definition eq_str (j : JSON) (s : string) : bool :=
  match j with
  | JStr x => String.eqb x s
  | _ => false
  end.

(** ** Files

    A file system gives, for a path as the program writes it, what
    [open] followed by [json.load] finds there: a document, or something
    that makes one of the two raise (a directory, a file that may not be
    read or does not hold JSON). A path without an entry is a file that
    does not exist. Writing always works. *)
Inductive File :=
| Doc (j : JSON)
| Unreadable.

Definition FS : Type := list (string * File).

Fixpoint fs_lookup (fs : FS) (path : string) : option File :=
  match fs with
  | [] => None
  | (p, f) :: fs' => if String.eqb p path then Some f else fs_lookup fs' path
  end.

(** [with open(path, 'w') as f: json.dump(j, f)]. *)
Definition fs_write (fs : FS) (path : string) (j : JSON) : FS :=
  (path, Doc j) :: filter (fun e => negb (String.eqb (fst e) path)) fs.

(** [s.endswith(suffix)]. *)
Fixpoint endswith (s suffix : string) : bool :=
  (String.eqb s suffix ||
   match s with
   | EmptyString => false
   | String _ s' => endswith s' suffix
   end)%bool.

(** [s[n:]]. *)
Fixpoint drop (n : nat) (s : string) : string :=
  match n, s with
  | O, _ => s
  | S n', String _ s' => drop n' s'
  | S _, EmptyString => EmptyString
  end.

(** Does [name] match [failed_wallets_*.json]? *)
Definition is_failed_wallets_name (name : string) : bool :=
  (prefix "failed_wallets_" name && endswith (drop 15 name) ".json")%bool.

(** [glob.glob('failed_wallets_*.json')]: the matching names of the
    current directory, in the order in which the directory lists them. *)
Definition glob_failed_wallets (fs : FS) : list string :=
  filter (fun name => (negb (str_in "/" name)
                       && is_failed_wallets_name name)%bool)
         (map fst fs).

(** [max(names)] of a list of strings: the first of the greatest ones in
    the order of the code points, which on UTF-8 is the order of the
    bytes. *)
Definition py_max (names : list string) : option string :=
  match names with
  | [] => None
  | x :: rest =>
      Some (fold_left (fun m y => if String.ltb m y then y else m) rest x)
  end.

(** ** [class Config] *)

Definition INK_RPC_URL : string := "https://rpc-gel.inkonchain.com".

Definition GM_CONTRACT_ADDRESS : string :=
  "0x9F500d075118272B3564ac6Ef2c70a9067Fd2d3F".

(** The dictionary of [create_default_config]. *)
Definition default_config : JSON :=
  JDict
    [("rpc_url", JStr INK_RPC_URL);
     ("chain_id", JNum (PyInt INK_CHAIN_ID));
     ("gm_contract_address",
      JStr "0x9F500d075118272B35564ac6Ef2c70a9067Fd2d3F");
     ("max_retries", JNum (PyInt 3));
     ("retry_delay", JNum (PyInt 5));
     ("gas_price_multiplier", JNum (PyFloat f_1_1));
     ("max_gas_price_gwei", JNum (PyInt 50));
     ("delay_between_wallets",
      JDict [("enabled", JBool true);
             ("min_seconds", JNum (PyInt 30));
             ("max_seconds", JNum (PyInt 80))]);
     ("wallets",
      JList [JDict [("address", JStr "0x...");
                    ("private_key", JStr "ваш_приватный_ключ_1");
                    ("proxy", JNull)];
             JDict [("address", JStr "0x...");
                    ("private_key", JStr "ваш_приватный_ключ_2");
                    ("proxy", JNull)]])].

(** [def create_default_config(config_path)]. *)
Definition create_default_config (fs : FS) (config_path : string) : FS :=
  fs_write fs config_path default_config.

(** [def load_config(config_path)]: the value returned ([JNull] for
    [None]) and the files afterwards; [None] when an exception other than
    FileNotFoundError leaves the function. *)
Definition load_config (fs : FS) (config_path : string)
  : option (JSON * FS) :=
  match fs_lookup fs config_path with
  | Some (Doc j) => Some (j, fs)
  | Some Unreadable => None
  | None => Some (JNull, create_default_config fs config_path)
  end.

(** [def load_failed_wallets(failed_file=None)]; the two handlers return
    [None], here [JNull], so that nothing is ever raised. *)
Definition load_failed_wallets (fs : FS) (failed_file : option string)
  : JSON :=
  match match failed_file with
        | Some f => Some f
        | None => py_max (glob_failed_wallets fs)
        end with
  | None => JNull
  | Some failed_file =>
      match fs_lookup fs failed_file with
      | Some (Doc data) =>
          match getitem data "count" with
          | None => JNull
          | Some _ =>
              match get_method data "timestamp" (JStr "unknown") with
              | None => JNull
              | Some _ =>
                  match getitem data "wallets" with
                  | None => JNull
                  | Some ws => ws
                  end
              end
          end
      | _ => JNull
      end
  end.

(** ** What [save_results] hands to [json.dump] *)

Definition json_of_entry (e : FailedEntry) : JSON :=
  JDict [("address", JStr (e_address e));
         ("private_key", JStr (e_private_key e));
         ("proxy", match e_proxy e with
                   | Some p => JStr p
                   | None => JNull
                   end);
         ("last_error", JStr (e_last_error e));
         ("last_status", JStr (status_text (e_last_status e)))].

Definition json_of_failed_file (doc : FailedFile) : JSON :=
  JDict [("timestamp", JStr (ff_timestamp doc));
         ("count", JNum (PyInt (ff_count doc)));
         ("wallets", JList (map json_of_entry (ff_wallets doc)))].

(** [f"failed_wallets_{timestamp}.json"]. *)
Definition failed_file_name (timestamp : string) : string :=
  ("failed_wallets_" ++ timestamp ++ ".json")%string.

(** The second [json.dump] of [save_results]: the retry file goes under
    the name made from its own [timestamp] entry. *)
Definition write_failed_file (fs : FS) (doc : FailedFile) : FS :=
  fs_write fs (failed_file_name (ff_timestamp doc)) (json_of_failed_file doc).

(** ** [datetime.now().strftime('%Y%m%d_%H%M%S')] *)

Record DateTime := mkDateTime {
  dt_year : Z;
  dt_month : Z;
  dt_day : Z;
  dt_hour : Z;
  dt_minute : Z;
  dt_second : Z
}.

(** [%Y] is the year, which the C library pads to four digits or not at
    all; the two agree from the year 1000 on, and the facts below start
    there. The other fields take two digits. *)
Definition strftime_compact (d : DateTime) : string :=
  (of_Z (dt_year d) ++ zfill 2 (dt_month d) ++ zfill 2 (dt_day d) ++ "_"
     ++ zfill 2 (dt_hour d) ++ zfill 2 (dt_minute d)
     ++ zfill 2 (dt_second d))%string.

(** The dates on which the year has four digits. *)
Definition four_digit_year (d : DateTime) : Prop :=
  1000 <= dt_year d <= 9999 /\
  1 <= dt_month d <= 12 /\ 1 <= dt_day d <= 31 /\
  0 <= dt_hour d <= 23 /\ 0 <= dt_minute d <= 59 /\ 0 <= dt_second d <= 59.

Definition lex (c1 c2 : comparison) : comparison :=
  match c1 with
  | Eq => c2
  | _ => c1
  end.

(** Which of two dates comes first. *)
Definition datetime_compare (a b : DateTime) : comparison :=
  lex (dt_year a ?= dt_year b)
      (lex (dt_month a ?= dt_month b)
           (lex (dt_day a ?= dt_day b)
                (lex (dt_hour a ?= dt_hour b)
                     (lex (dt_minute a ?= dt_minute b)
                          (dt_second a ?= dt_second b))))).

(** ** [def main()] *)

(** The wallet range of the command line: the argument as it stands, or
    the integers of a comma list. *)
Inductive WalletRange :=
| RangeText (s : string)
| RangeList (l : list Z).

Record Args := mkArgs {
  wallet_range : option WalletRange;
  retry_mode : bool;
  retry_file : option string
}.

(** [s.split(',')]. *)
Fixpoint split_comma (s : string) : list string :=
  match s with
  | EmptyString => [EmptyString]
  | String c s' =>
      if Ascii.eqb c ","
      then EmptyString :: split_comma s'
      else match split_comma s' with
           | [] => [String c EmptyString]
           | x :: xs => String c x :: xs
           end
  end.

(** A list comprehension over a function that may raise. *)
Fixpoint map_exn {A B} (f : A -> Exn + B) (l : list A) : Exn + list B :=
  match l with
  | [] => inr []
  | x :: l' =>
      match f x with
      | inl e => inl e
      | inr y =>
          match map_exn f l' with
          | inl e => inl e
          | inr ys => inr (y :: ys)
          end
      end
  end.

(** How [main] ends: with one of its [return]s (no failed wallets to
    retry, no configuration, no wallets, wallets not filled in), in one of
    its two handlers, or by reaching [GMBot(config, wallet_range=...)]
    with the configuration and the range given. The constructor and
    [bot.run()] follow inside the same [try], so that what they raise is
    caught as well. *)
Inductive MainEnd :=
| NoFailedWallets
| NoConfig
| NoWallets
| NotConfigured
| Caught
| Construct (config : JSON) (wallet_range : option WalletRange).

Section CommandLine.

(** [int(x.strip())], which accepts more than ASCII digits. *)
Variable int_strip : string -> Exn + Z.

(** The loop [while i < len(sys.argv)], over the arguments from
    [sys.argv[i]] on. *)
Fixpoint parse_args (args : list string) (a : Args) : Exn + Args :=
  match args with
  | [] => inr a
  | arg :: rest =>
      if (String.eqb arg "--retry" || String.eqb arg "-r")%bool then
        match rest with
        | next :: rest' =>
            if negb (startswith next "-")
            then parse_args rest' (mkArgs (wallet_range a) true (Some next))
            else parse_args rest (mkArgs (wallet_range a) true (retry_file a))
        | [] => parse_args rest (mkArgs (wallet_range a) true (retry_file a))
        end
      else if (String.eqb arg "--retry-last" || String.eqb arg "-rl")%bool
      then parse_args rest (mkArgs (wallet_range a) true None)
      else if str_in "-" arg
      then parse_args rest (mkArgs (Some (RangeText arg)) (retry_mode a)
                                   (retry_file a))
      else if str_in "," arg
      then match map_exn int_strip (split_comma arg) with
           | inl e => inl e
           | inr l =>
               parse_args rest (mkArgs (Some (RangeList l)) (retry_mode a)
                                       (retry_file a))
           end
      else parse_args rest (mkArgs (Some (RangeText arg)) (retry_mode a)
                                   (retry_file a))
  end.

(** Lines 462-488. *)
Definition parse_argv (argv : list string) : Exn + Args :=
  parse_args (tl argv) (mkArgs None false None).

(** Lines 520-534: the checks on the wallets, up to the call of [GMBot];
    [None] when one of them raises. *)
Definition check_wallets (config : JSON) (range : option WalletRange)
  : option MainEnd :=
  match get_method config "wallets" (JList []) with
  | None => None
  | Some shown =>
      match len_is_0 shown with
      | None => None
      | Some _ =>
          match get_method config "wallets" JNull with
          | None => None
          | Some ws =>
              if negb (truthy ws) then Some NoWallets
              else
                match getitem config "wallets" with
                | None => None
                | Some ws =>
                    match len_is_0 ws with
                    | None => None
                    | Some true => Some NoWallets
                    | Some false =>
                        match first_item ws with
                        | None => None
                        | Some first_wallet =>
                            match get_method first_wallet "address" JNull with
                            | None => None
                            | Some addr =>
                                if eq_str addr "0x..."
                                then Some NotConfigured
                                else
                                  match get_method first_wallet "private_key"
                                                   JNull with
                                  | None => None
                                  | Some key =>
                                      if negb (truthy key)
                                      then Some NotConfigured
                                      else Some (Construct config range)
                                  end
                            end
                        end
                    end
                end
          end
      end
  end.

Definition or_caught (r : option MainEnd) : MainEnd :=
  match r with
  | Some e => e
  | None => Caught
  end.

(** [def main()]: how it ends and the files it leaves, or the exception
    that escapes it, which only the reading of the command line, done
    before the [try], can raise. The construction of the bot and its run
    are inside the [try]. *)
Definition main (fs : FS) (argv : list string) : Exn + (MainEnd * FS) :=
  match parse_argv argv with
  | inl e => inl e
  | inr a =>
      inr
        (if retry_mode a then
           match load_failed_wallets fs (retry_file a) with
           | JNull => (NoFailedWallets, fs)
           | failed_wallets =>
               match load_config fs "config.json" with
               | None => (Caught, fs)
               | Some (JNull, fs') => (NoConfig, fs')
               | Some (config, fs') =>
                   match setitem config "wallets" failed_wallets with
                   | None => (Caught, fs')
                   | Some config =>
                       match len_is_0 failed_wallets with
                       | None => (Caught, fs')
                       | Some _ => (or_caught (check_wallets config None), fs')
                       end
                   end
               end
           end
         else
           match load_config fs "config.json" with
           | None => (Caught, fs)
           | Some (JNull, fs') => (NoConfig, fs')
           | Some (config, fs') =>
               (or_caught (check_wallets config (wallet_range a)), fs')
           end)
  end.

End CommandLine.

(** ** Inputs of the examples on files and command lines *)
Module ExCli.

(** [int] on strings of ASCII digits; everything else is refused. *)
Fixpoint digits_value (s : string) (acc : Z) : option Z :=
  match s with
  | EmptyString => Some acc
  | String c s' =>
      if Sim.is_digit c
      then digits_value s' (10 * acc + Z.of_nat (nat_of_ascii c) - 48)
      else None
  end.

Definition int_digits (s : string) : Exn + Z :=
  match s, digits_value s 0 with
  | String _ _, Some z => inr z
  | _, _ =>
      inl (mkExn ValueError
             ("invalid literal for int() with base 10: '" ++ s ++ "'"))
  end.

(** A configuration with one wallet that is filled in. *)
Definition config_doc : list (string * JSON) :=
  [("max_retries", JNum (PyInt 2));
   ("retry_delay", JNum (PyInt 1));
   ("wallets",
    JList [JDict [("address", JStr Ex.A);
                  ("private_key", JStr "0xaa");
                  ("proxy", JNull)]])].

(** The retry file of the scenario: [C] was short of funds. *)
Definition entry_C : FailedEntry :=
  mkFailedEntry Ex.C "cc" (Some "socks5://proxy")
                "Баланс: 0.000050 ETH (нужно минимум 0.000100 ETH)"
                INSUFFICIENT_BALANCE.

Definition new_year : DateTime := mkDateTime 2025 1 1 0 0 5.
Definition new_year_eve : DateTime := mkDateTime 2024 12 31 23 59 58.

Definition retry_doc : FailedFile :=
  mkFailedFile (strftime_compact new_year) 1 [entry_C].

Definition older_doc : FailedFile :=
  mkFailedFile (strftime_compact new_year_eve) 1
               [mkFailedEntry Ex.B "bb" None "Read timeout" TIMEOUT].

(** The directory after the two runs; the older file, written last, is
    listed first. *)
Definition files : FS :=
  write_failed_file
    (write_failed_file [("config.json", Doc (JDict config_doc))] retry_doc)
    older_doc.

End ExCli.

(** * Facts *)

(** ** A weakest-precondition reading of [M] *)

Section Logic.
Context {World : Type}.

Lemma wp_run {A} (m : M World A) (s : State World) Q r t s' :
  wp m s Q -> m s = (r, t, s') -> Q r t s'.
Proof. unfold wp. intros H E. rewrite E in H. exact H. Qed.

Lemma wp_mono {A} (m : M World A) (s : State World)
      (P Q : _ -> _ -> _ -> Prop) :
  wp m s P -> (forall r t s', P r t s' -> Q r t s') -> wp m s Q.
Proof. unfold wp. auto. Qed.

Lemma wp_ret {A} (a : A) (s : State World) Q :
  Q (inr a) [] s -> wp (ret a) s Q.
Proof. auto. Qed.

Lemma wp_raise {A} e (s : State World) (Q : Exn + A -> _) :
  Q (inl e) [] s -> wp (raise e) s Q.
Proof. auto. Qed.

Lemma wp_bind {A B} (m : M World A) (k : A -> M World B) (s : State World) Q :
  wp m s (fun r t s1 =>
            match r with
            | inl e => Q (inl e) t s1
            | inr a => wp (k a) s1 (fun r' t' s2 => Q r' (t ++ t') s2)
            end) ->
  wp (bind m k) s Q.
Proof.
  unfold wp, bind. destruct (m s) as [[[e|a] t] s1]; cbn; auto.
  destruct (k a s1) as [[r' t'] s2]; cbn; auto.
Qed.

Lemma wp_try {A} (m : M World A) h (s : State World) Q :
  wp m s (fun r t s1 =>
            match r with
            | inl e => wp (h e) s1 (fun r' t' s2 => Q r' (t ++ t') s2)
            | inr a => Q (inr a) t s1
            end) ->
  wp (try_except m h) s Q.
Proof.
  unfold wp, try_except. destruct (m s) as [[[e|a] t] s1]; cbn; auto.
  destruct (h e s1) as [[r' t'] s2]; cbn; auto.
Qed.

Lemma wp_lift {A} (x : Exn + A) (s : State World) Q :
  Q x [] s -> wp (lift x) s Q.
Proof. destruct x; auto. Qed.

Lemma wp_emit ev (s : State World) Q :
  Q (inr tt) [ev] s -> wp (emit ev) s Q.
Proof. auto. Qed.

Lemma wp_rpc {A} (f : World -> (Exn + A) * World) ev (s : State World) Q :
  (forall r w, f (world s) = (r, w) -> Q r [ev r] (mkState w (bot s))) ->
  wp (rpc f ev) s Q.
Proof.
  unfold wp, rpc. intros H. destruct (f (world s)) as [r w] eqn:E.
  cbn. auto.
Qed.

Lemma wp_ask {A} (f : World -> A * World) (s : State World) Q :
  (forall a w, f (world s) = (a, w) -> Q (inr a) [] (mkState w (bot s))) ->
  wp (ask f) s Q.
Proof.
  unfold wp, ask. intros H. destruct (f (world s)) as [r w] eqn:E.
  cbn. auto.
Qed.

Lemma wp_get_bot (s : State World) Q :
  Q (inr (bot s)) [] s -> wp get_bot s Q.
Proof. auto. Qed.

Lemma wp_set_bot b (s : State World) Q :
  Q (inr tt) [] (mkState (world s) b) -> wp (set_bot b) s Q.
Proof. auto. Qed.

(** Running [m] after its outcome is known. *)
Lemma bind_ok {A B} (m : M World A) (k : A -> M World B) s a t s1 :
  m s = (inr a, t, s1) ->
  bind m k s = (fst (fst (k a s1)), t ++ snd (fst (k a s1)), snd (k a s1)).
Proof.
  intros E. unfold bind. rewrite E. destruct (k a s1) as [[r t'] s2].
  reflexivity.
Qed.

End Logic.

Ltac wp_step :=
  lazymatch goal with
  | |- wp (bind _ _) _ _ => apply wp_bind
  | |- wp (try_except _ _) _ _ => apply wp_try
  | |- wp (ret _) _ _ => apply wp_ret
  | |- wp (raise _) _ _ => apply wp_raise
  | |- wp (lift ?x) _ _ => apply wp_lift; destruct x eqn:?
  | |- wp (emit _) _ _ => apply wp_emit
  | |- wp (rpc _ _) _ _ => apply wp_rpc; intros [?|?] ? ?
  | |- wp (ask _) _ _ => apply wp_ask; intros ? ? ?
  | |- wp get_bot _ _ => apply wp_get_bot
  | |- wp (set_bot _) _ _ => apply wp_set_bot
  | |- wp (if ?b then _ else _) _ _ => destruct b eqn:?
  | |- wp (match ?x with _ => _ end) _ _ => destruct x eqn:?
  | |- wp (let _ := _ in _) _ _ => cbv zeta
  end.

Ltac in_cases :=
  repeat match goal with
         | H : In _ (_ :: _) |- _ => destruct H as [H | H]
         | H : In _ [] |- _ => destruct H
         | H : _ \/ _ |- _ => destruct H as [H | H]
         | H : False |- _ => destruct H
         end.

(** ** Strings *)

Lemma prefix_app (a b : string) : prefix a (a ++ b)%string = true.
Proof.
  induction a as [|c a IH]; cbn.
  - destruct b; reflexivity.
  - destruct (ascii_dec c c); [exact IH | congruence].
Qed.

Lemma str_in_here (x b : string) : str_in x (x ++ b)%string = true.
Proof.
  pose proof (prefix_app x b) as H.
  destruct (x ++ b)%string; cbn [str_in]; rewrite H; reflexivity.
Qed.

Lemma str_in_app (a x b : string) :
  str_in x (a ++ x ++ b)%string = true.
Proof.
  induction a as [|c a IH].
  - cbn [append]. apply str_in_here.
  - cbn [append str_in]. rewrite IH. apply orb_true_r.
Qed.

Lemma str_in_suffix (a x : string) : str_in x (a ++ x)%string = true.
Proof.
  pose proof (str_in_app a x "") as H.
  replace (x ++ "")%string with x in H; [exact H|].
  clear. induction x; cbn; congruence.
Qed.

Lemma lower_ascii_idem c : lower_ascii (lower_ascii c) = lower_ascii c.
Proof.
  destruct c as [[] [] [] [] [] [] [] []]; reflexivity.
Qed.

Lemma lower_idem s : lower (lower s) = lower s.
Proof.
  induction s as [|c s IH]; cbn; [reflexivity|].
  rewrite lower_ascii_idem, IH. reflexivity.
Qed.

(** The seven status strings are pairwise distinct. *)
Lemma status_eqb_eq a b : status_eqb a b = true <-> a = b.
Proof.
  split.
  - destruct a, b; vm_compute; congruence.
  - intros ->. destruct b; reflexivity.
Qed.

Lemma status_eqb_final s :
  (status_eqb s SUCCESS || status_eqb s ALREADY_GMED)%bool = is_final s.
Proof. destruct s; reflexivity. Qed.

(** ** One attempt: [check_balance], [estimate_gas],
    [send_gm_transaction] *)

Section Attempt.
Context {World : Type}.
Variable w3 : Web3 World.
Variable config : Config.

(** [check_balance] never raises, leaves the bot alone and talks to the
    client at most once. *)
Lemma check_balance_spec address s :
  wp (check_balance w3 address) s
     (fun r t s' =>
        bot s' = bot s /\
        (exists b, r = inr b) /\
        (t = [] \/ exists a ans, t = [EvGetBalance a ans])).
Proof.
  unfold check_balance. repeat wp_step; cbn; repeat split; eauto.
Qed.

(** The balance check builds, signs and broadcasts nothing. *)
Lemma check_balance_no_transaction address s :
  wp (check_balance w3 address) s
     (fun _ t _ => Forall (fun ev => is_transaction_event ev = false) t).
Proof.
  eapply wp_mono; [apply check_balance_spec|].
  intros r t s' [_ [_ [-> | [a [ans ->]]]]]; repeat constructor.
Qed.

(** [estimate_gas] never raises either. *)
Lemma estimate_gas_spec transaction s :
  wp (estimate_gas w3 transaction) s
     (fun r t s' =>
        bot s' = bot s /\
        exists ans,
          t = [EvEstimateGas transaction ans] /\
          r = inr match ans with
                  | inl _ => 100000
                  | inr gas_estimate =>
                      match and_then (mul (PyInt gas_estimate)
                                          (PyFloat f_1_2)) to_int with
                      | inl _ => 100000
                      | inr limit => limit
                      end
                  end).
Proof.
  unfold estimate_gas.
  repeat wp_step; (split; [reflexivity|]);
    eexists; (split; [reflexivity|]); cbv beta iota;
    try match goal with H : and_then _ _ = _ |- _ => rewrite H end;
    reflexivity.
Qed.

(** The trace of an attempt holds client events only. *)
Lemma send_gm_transaction_trace wallet_data s :
  wp (send_gm_transaction w3 config wallet_data) s
     (fun _ t s' => bot s' = bot s /\
                    Forall (fun ev => is_client_event ev = true) t).
Proof.
  unfold send_gm_transaction, send_gm_body, check_balance, estimate_gas,
    check_can_gm.
  repeat wp_step; cbn; split; trivial; repeat constructor.
Qed.

(** What the [try] block returns without raising. *)
Lemma send_gm_body_returns address private_key s :
  wp (send_gm_body w3 config address private_key) s
     (fun r t _ =>
        forall ok status message, r = inr (ok, status, message) ->
          (ok = true /\ status = SUCCESS) \/
          (ok = false /\ status = FAILED) \/
          (ok = false /\ status = INSUFFICIENT_BALANCE /\
           Forall (fun ev => is_transaction_event ev = false) t)).
Proof.
  unfold send_gm_body, check_balance, estimate_gas, check_can_gm.
  cbv beta iota zeta. cbn [negb].
  repeat wp_step; cbn [app]; intros ok status message E;
    inversion E; subst; auto.
  all: right; right; repeat split; repeat constructor.
Qed.

(** C6. Once the transaction is broadcast the attempt waits for its
    receipt with the fixed timeout of 120 seconds: a broadcast that
    answered with a hash is followed at once by the call of
    [wait_for_transaction_receipt] on that hash with [timeout=120], made
    on the chain as the broadcast left it, and that call ends the
    attempt. A receipt with status 1 gives [(True, SUCCESS, msg)] and any
    other status [(False, FAILED, msg)] with a message that says
    "reverted"; in both cases the message contains the transaction id. A
    wait that raises goes to the exception handler. Conversely every wait
    in the trace is such a wait. *)
Theorem receipt_classification wallet_data s r t s' :
  send_gm_transaction w3 config wallet_data s = (r, t, s') ->
  (forall raw tx_hash,
     In (EvSendRawTransaction raw (inr tx_hash)) t ->
     exists pre ans w0 w1,
       t = pre ++ [EvSendRawTransaction raw (inr tx_hash);
                   EvWaitForReceipt tx_hash 120 ans] /\
       send_raw_transaction w3 raw w0 = (inr tx_hash, w1) /\
       wait_for_transaction_receipt w3 tx_hash 120 w1 = (ans, world s') /\
       match ans with
       | inl e => r = inr (classify_error (exn_str e))
       | inr receipt =>
           exists message,
             str_in (hex w3 tx_hash) message = true /\
             if receipt_status receipt =? 1
             then r = inr (true, SUCCESS, message)
             else (r = inr (false, FAILED, message) /\
                   str_in "reverted" message = true)
       end) /\
  forall tx_hash timeout ans,
    In (EvWaitForReceipt tx_hash timeout ans) t ->
    timeout = 120 /\
    (exists raw, In (EvSendRawTransaction raw (inr tx_hash)) t) /\
    forall receipt, ans = inr receipt ->
      exists message,
        str_in (hex w3 tx_hash) message = true /\
        if receipt_status receipt =? 1
        then r = inr (true, SUCCESS, message)
        else (r = inr (false, FAILED, message) /\
              str_in "reverted" message = true).
Proof.
  intros E. pattern r, t, s'. eapply wp_run; [clear E|exact E].
  unfold send_gm_transaction, send_gm_body, check_balance, estimate_gas,
    check_can_gm.
  repeat wp_step; cbn [app]; (split;
    [ intros raw tx_hash Hin; in_cases; try discriminate;
      inversion Hin; subst; clear Hin
    | intros tx_hash timeout ans Hin;
      in_cases; try discriminate; inversion Hin; subst; clear Hin;
      (split; [reflexivity|]); (split; [eexists; cbn; eauto 20|]);
      intros receipt Hr; inversion Hr; subst;
      match goal with H : (_ =? 1) = _ |- _ => rewrite H end;
      eexists; repeat split; try apply str_in_suffix;
      apply (str_in_app "Транзакция " "reverted") ]).
  all: cbn [world bot] in *.
  all: match goal with
       | |- exists pre _ _ _, ?t = _ /\ _ => exists (firstn 6 t)
       end; cbn [firstn app].
  all: do 3 eexists; (split; [reflexivity|]);
    (split; [eassumption|]); (split; [eassumption|]); cbv beta iota.
  all: try reflexivity.
  all: match goal with H : (_ =? 1) = _ |- _ => rewrite H end.
  all: eexists; repeat split; try apply str_in_suffix.
  all: apply (str_in_app "Транзакция " "reverted").
Qed.

(** C8, as amended. [check_can_gm] answers [(True, 0)] for every
    address, so the branch that would return ALREADY_GMED before any
    transaction is dead: an attempt ends in ALREADY_GMED only through the
    exception handler, on a message with "already" or "wait" in it and
    without "insufficient funds", whichever step raised. *)
Theorem already_gmed_only_from_handler wallet_data :
  (forall a, check_can_gm a = (true, 0)) /\
  forall s ok message t s',
    send_gm_transaction w3 config wallet_data s
    = (inr (ok, ALREADY_GMED, message), t, s') ->
    ok = false /\
    exists a e,
      to_checksum_address w3 (address wallet_data) = inr a /\
      send_gm_body w3 config a (strip_0x (private_key wallet_data)) s
      = (inl e, t, s') /\
      message = exn_str e /\
      (str_in "already" (lower message) = true \/
       str_in "wait" (lower message) = true) /\
      str_in "insufficient funds" (lower message) = false.
Proof.
  split; [reflexivity|].
  intros s ok message t s'. unfold send_gm_transaction.
  destruct (to_checksum_address w3 (address wallet_data)) as [e|a] eqn:Ea;
    cbn [lift]; [discriminate|].
  unfold bind at 1. cbn [ret]. unfold try_except.
  pose proof (send_gm_body_returns a (strip_0x (private_key wallet_data)) s)
    as Hbody. unfold wp in Hbody.
  destruct (send_gm_body w3 config a (strip_0x (private_key wallet_data)) s)
    as [[[e|v] t1] s1] eqn:Eb; cbn in *.
  - unfold classify_error. rewrite app_nil_r.
    destruct (str_in "insufficient funds" (lower (exn_str e))) eqn:E1;
      [discriminate|].
    destruct (str_in "already" (lower (exn_str e))) eqn:E2;
      destruct (str_in "wait" (lower (exn_str e))) eqn:E3; cbn;
      try (destruct (str_in "timeout" (lower (exn_str e))); discriminate).
    all: intros E; inversion E; subst; split; [reflexivity|];
      exists a, e; repeat split; auto.
  - intros E; inversion E; subst.
    destruct (Hbody _ _ _ eq_refl) as [[_ H]|[[_ H]|[_ [H _]]]];
      discriminate.
Qed.

(** C5, what the code does with the exception of the checksum. The
    attempt starts with [Web3.to_checksum_address(wallet_data['address'])],
    on line 214, before the [try] of line 221: when that call raises, the
    exception leaves [send_gm_transaction] as it is, whatever its message
    says; no outcome is returned, nothing is classified and the client is
    not called. The same call on the same address inside [check_balance]
    is caught there and answered with [None]. *)
Theorem checksum_error_escapes wallet_data e s :
  to_checksum_address w3 (address wallet_data) = inl e ->
  send_gm_transaction w3 config wallet_data s = (inl e, [], s) /\
  check_balance w3 (address wallet_data) s = (inr None, [], s).
Proof.
  intros Ea. unfold send_gm_transaction, check_balance.
  unfold try_except, bind. rewrite Ea. cbn [lift raise].
  destruct s as [w b]. split; reflexivity.
Qed.

(** The other half of C5: an exception that leaves the [try] block is
    turned into an outcome by the first rule that applies to its
    lower-cased message, in this order: "insufficient funds", then
    "already" or "wait", then "timeout", then FAILED; the flag is [False]
    and the message is [str(e)] unchanged. *)
Lemma exception_classification wallet_data a s e t s' :
  to_checksum_address w3 (address wallet_data) = inr a ->
  send_gm_body w3 config a (strip_0x (private_key wallet_data)) s
  = (inl e, t, s') ->
  exists status,
    send_gm_transaction w3 config wallet_data s
    = (inr (false, status, exn_str e), t, s') /\
    let m := lower (exn_str e) in
    (str_in "insufficient funds" m = true ->
     status = INSUFFICIENT_BALANCE) /\
    (str_in "insufficient funds" m = false ->
     str_in "already" m = true \/ str_in "wait" m = true ->
     status = ALREADY_GMED) /\
    (str_in "insufficient funds" m = false ->
     str_in "already" m = false -> str_in "wait" m = false ->
     str_in "timeout" m = true -> status = TIMEOUT) /\
    (str_in "insufficient funds" m = false ->
     str_in "already" m = false -> str_in "wait" m = false ->
     str_in "timeout" m = false -> status = FAILED).
Proof.
  intros Ea Eb.
  exists (snd (fst (classify_error (exn_str e)))). split.
  - unfold send_gm_transaction. rewrite Ea. cbn [lift].
    unfold bind at 1. cbn [ret]. unfold try_except. rewrite Eb.
    cbn. rewrite app_nil_r. unfold classify_error.
    repeat match goal with
           | |- context [if ?b then _ else _] => destruct b
           end; reflexivity.
  - cbv zeta. unfold classify_error.
    destruct (str_in "insufficient funds" (lower (exn_str e)));
      destruct (str_in "already" (lower (exn_str e)));
      destruct (str_in "wait" (lower (exn_str e)));
      destruct (str_in "timeout" (lower (exn_str e)));
      cbn; repeat split; intros; try reflexivity; try discriminate;
      in_cases; discriminate.
Qed.

(** The outcome depends on the message through its lower case only. *)
Lemma classify_error_case_insensitive m1 m2 :
  lower m1 = lower m2 ->
  snd (fst (classify_error m1)) = snd (fst (classify_error m2)).
Proof.
  intros E. unfold classify_error. rewrite E.
  repeat match goal with
         | |- context [if ?b then _ else _] => destruct b
         end; reflexivity.
Qed.

Lemma classify_error_lower m :
  snd (fst (classify_error (lower m))) = snd (fst (classify_error m)).
Proof. apply classify_error_case_insensitive. apply lower_idem. Qed.

(** C1, what the code does when the balance is unavailable: no
    transaction is built, signed or broadcast, but formatting [None]
    with [.6f] raises inside the [try], and the handler files the
    TypeError under FAILED instead of INSUFFICIENT_BALANCE. *)
Theorem unavailable_balance_is_failed wallet_data a s t s' :
  to_checksum_address w3 (address wallet_data) = inr a ->
  check_balance w3 a s = (inr None, t, s') ->
  send_gm_transaction w3 config wallet_data s
  = (inr (false, FAILED,
          "unsupported format string passed to NoneType.__format__"),
     t, s') /\
  Forall (fun ev => is_transaction_event ev = false) t.
Proof.
  intros Ea Eb. split.
  - unfold send_gm_transaction. rewrite Ea. cbn [lift].
    unfold bind at 1. cbn [ret]. unfold try_except, send_gm_body.
    rewrite (bind_ok _ _ _ _ _ _ Eb). cbn. rewrite !app_nil_r.
    reflexivity.
  - exact (wp_run _ _ _ _ _ _ (check_balance_no_transaction a s) Eb).
Qed.

(** The other half of C1: a balance below [min_balance] ends the attempt
    with INSUFFICIENT_BALANCE and a message that shows it; the trace is
    that of the balance check. *)
Lemma low_balance_is_insufficient wallet_data a d s t s' :
  to_checksum_address w3 (address wallet_data) = inr a ->
  check_balance w3 a s = (inr (Some d), t, s') ->
  decimal_lt_float d min_balance = true ->
  send_gm_transaction w3 config wallet_data s
  = (inr (false, INSUFFICIENT_BALANCE,
          ("Баланс: " ++ format_6f d ++ " ETH (нужно минимум 0.000100 ETH)")
            %string),
     t, s').
Proof.
  intros Ea Eb Hlow. unfold send_gm_transaction. rewrite Ea. cbn [lift].
  unfold bind at 1. cbn [ret]. unfold try_except, send_gm_body.
  rewrite (bind_ok _ _ _ _ _ _ Eb). cbn [balance_too_low]. rewrite Hlow.
  cbn. rewrite !app_nil_r. reflexivity.
Qed.

End Attempt.

(** In wei: the balance check fails up to and including [10^14] wei, that
    is 0.0001 ether, because the float [0.0001] lies just above it. *)
Lemma threshold_in_wei (n : Z) :
  decimal_lt_float (Dec n 18) f_0_0001 = true <-> n <= 100000000000000.
Proof.
  unfold decimal_lt_float, f_0_0001. cbn [dec_num dec_scale Z.leb Z.compare].
  rewrite Z.ltb_lt.
  change (2 ^ (- -66)) with 73786976294838206464.
  change (10 ^ Z.of_nat 18) with 1000000000000000000.
  lia.
Qed.

(** ** The attempt on the scripted client *)

Lemma run_eta {A B C} (x : A * B * C) :
  x = (fst (fst x), snd (fst x), snd x).
Proof. destruct x as [[a b] c]. reflexivity. Qed.

Ltac find_in := vm_compute; repeat (try (left; reflexivity); right).

Example format_6f_small : format_6f (Dec 50000000000000 18) = "0.000050".
Proof. reflexivity. Qed.

Example format_6f_tie : format_6f (Dec 2500000 12) = "0.000002".
Proof. reflexivity. Qed.

(** A balance of exactly 0.0001 ether counts as too low. *)
Example balance_at_threshold :
  Sim.wei_to 100000000000000 ether = inr (Dec 100000000000000 18) /\
  balance_too_low (Some (Dec 100000000000000 18)) = true /\
  balance_too_low (Some (Dec 100000000000001 18)) = false.
Proof. repeat split; vm_compute; reflexivity. Qed.

(** A revert seen by the estimate is swallowed by [estimate_gas]; the
    transaction goes out with the default limit and its receipt decides. *)
Example reverted_transaction :
  let run :=
    send_gm_transaction Sim.client Ex.cfg Ex.wallet_A
                        (Ex.start Ex.chain_reverting) in
  fst (fst run)
  = inr (false, FAILED, "Транзакция reverted. TX: hash:signed:aa") /\
  In (EvSignTransaction
        (mkTransaction Ex.A 100000 44000000000 7 INK_CHAIN_ID
                       "gm-contract" "gm()" 0)
        "aa" (inr "signed:aa"))
     (snd (fst run)).
Proof. split; [vm_compute; reflexivity | find_in]. Qed.

(** C1 on a chain whose balance query fails. *)
Lemma unavailable_balance_is_failed_witness :
  let s := Ex.start Ex.chain_down in
  let t := [EvGetBalance Ex.A (inl (mkExn ClientError "connection timeout"))] in
  check_balance Sim.client Ex.A s = (inr None, t, s) /\
  send_gm_transaction Sim.client Ex.cfg Ex.wallet_A s
  = (inr (false, FAILED,
          "unsupported format string passed to NoneType.__format__"), t, s) /\
  Forall (fun ev => is_transaction_event ev = false) t.
Proof.
  cbv zeta. split; [vm_compute; reflexivity|].
  apply (unavailable_balance_is_failed Sim.client Ex.cfg Ex.wallet_A Ex.A);
    vm_compute; reflexivity.
Defined.

(** C6 on the first wallet of the example chain. *)
Lemma receipt_classification_witness :
  let run :=
    send_gm_transaction Sim.client Ex.cfg Ex.wallet_A (Ex.start Ex.chain) in
  In (EvSendRawTransaction "signed:aa" (inr "hash:signed:aa"))
     (snd (fst run)) /\
  exists pre ans message,
    snd (fst run)
    = pre ++ [EvSendRawTransaction "signed:aa" (inr "hash:signed:aa");
              EvWaitForReceipt "hash:signed:aa" 120 ans] /\
    ans = Ex.ok_receipt /\
    str_in "hash:signed:aa" message = true /\
    fst (fst run) = inr (true, SUCCESS, message).
Proof.
  cbv zeta.
  assert (Hin : In (EvSendRawTransaction "signed:aa" (inr "hash:signed:aa"))
                   (snd (fst (send_gm_transaction Sim.client Ex.cfg Ex.wallet_A
                                                  (Ex.start Ex.chain)))))
    by find_in.
  split; [exact Hin|].
  destruct (receipt_classification Sim.client Ex.cfg Ex.wallet_A
              (Ex.start Ex.chain) _ _ _ (run_eta _)) as [H _].
  destruct (H "signed:aa" "hash:signed:aa" Hin)
    as (pre & ans & w0 & w1 & Ht & _ & _ & Hans).
  assert (Ea : ans = Ex.ok_receipt).
  { assert (Hl : last (snd (fst (send_gm_transaction
                                   Sim.client Ex.cfg Ex.wallet_A
                                   (Ex.start Ex.chain)))) (EvSleep 0)
                 = EvWaitForReceipt "hash:signed:aa" 120 Ex.ok_receipt)
      by (vm_compute; reflexivity).
    rewrite Ht in Hl.
    change (pre ++ [EvSendRawTransaction "signed:aa" (inr "hash:signed:aa");
                    EvWaitForReceipt "hash:signed:aa" 120 ans])
      with (pre ++ [EvSendRawTransaction "signed:aa" (inr "hash:signed:aa")]
                ++ [EvWaitForReceipt "hash:signed:aa" 120 ans]) in Hl.
    rewrite app_assoc, last_last in Hl. congruence. }
  subst ans. destruct Hans as (message & Hm & Hr).
  exists pre, Ex.ok_receipt, message. repeat split; assumption.
Defined.

(** C8: the nonce query is throttled and its message has "wait" in it. *)
Lemma already_gmed_only_from_handler_witness :
  let s := Ex.start Ex.chain_throttled in
  let run := send_gm_transaction Sim.client Ex.cfg Ex.wallet_A s in
  fst (fst run) = inr (false, ALREADY_GMED, "rate limited, please wait") /\
  exists a e,
    send_gm_body Sim.client Ex.cfg a (strip_0x "0xaa") s
    = (inl e, snd (fst run), snd run) /\
    exn_str e = "rate limited, please wait".
Proof.
  cbv zeta. split; [vm_compute; reflexivity|].
  destruct (already_gmed_only_from_handler Sim.client Ex.cfg Ex.wallet_A)
    as [_ H].
  destruct (H (Ex.start Ex.chain_throttled) false
              "rate limited, please wait" _ _ (run_eta _))
    as [_ [a [e [_ [Hb [Hm _]]]]]].
  exists a, e. split; [exact Hb | symmetry; exact Hm].
Defined.

(** C8 as stated fails: the attempt below ends in ALREADY_GMED although
    nothing was broadcast, so nothing could revert. *)
Lemma already_gmed_without_broadcast :
  let run :=
    send_gm_transaction Sim.client Ex.cfg Ex.wallet_A
                        (Ex.start Ex.chain_throttled) in
  fst (fst run) = inr (false, ALREADY_GMED, "rate limited, please wait") /\
  snd (fst run)
  = [EvGetBalance Ex.A (inr Ex.one_ether);
     EvGetTransactionCount
       Ex.A (inl (mkExn ClientError "rate limited, please wait"))].
Proof. split; vm_compute; reflexivity. Qed.

(** The classification on the throttled chain. *)
Lemma exception_classification_witness :
  let s := Ex.start Ex.chain_throttled in
  exists t s',
    send_gm_transaction Sim.client Ex.cfg Ex.wallet_A s
    = (inr (false, ALREADY_GMED, "rate limited, please wait"), t, s').
Proof.
  cbv zeta.
  destruct (exception_classification Sim.client Ex.cfg Ex.wallet_A Ex.A
              (Ex.start Ex.chain_throttled)
              (mkExn ClientError "rate limited, please wait")
              _ _ eq_refl (run_eta _))
    as [status [Hrun [_ [H2 _]]]].
  rewrite (H2 eq_refl (or_intror eq_refl)) in Hrun.
  eexists. eexists. exact Hrun.
Defined.

(** C5 on the wallet of the default config, whose address is the
    placeholder: the ValueError of the checksum leaves the attempt, where
    the handler would have returned FAILED with its message. *)
Lemma checksum_error_escapes_witness :
  let e := mkExn ValueError "invalid address" in
  to_checksum_address Sim.client (address Ex.wallet_dots) = inl e /\
  classify_error (exn_str e) = (false, FAILED, "invalid address") /\
  send_gm_transaction Sim.client Ex.cfg Ex.wallet_dots (Ex.start Ex.chain)
  = (inl e, [], Ex.start Ex.chain) /\
  check_balance Sim.client (address Ex.wallet_dots) (Ex.start Ex.chain)
  = (inr None, [], Ex.start Ex.chain).
Proof.
  cbv zeta. split; [reflexivity|]. split; [reflexivity|].
  apply (checksum_error_escapes Sim.client Ex.cfg Ex.wallet_dots).
  reflexivity.
Defined.

(** ** The retry loop *)

Lemma range_nil lo hi : hi <= lo -> range lo hi = [].
Proof.
intros H. unfold range. replace (Z.to_nat (hi - lo)) with 0%nat by lia.
reflexivity.
Qed.

Lemma range_cons lo hi : lo < hi -> range lo hi = lo :: range (lo + 1) hi.
Proof.
intros H. unfold range.
replace (Z.to_nat (hi - lo)) with (S (Z.to_nat (hi - (lo + 1)))) by lia.
cbn [seq map]. f_equal; [lia|].
rewrite <- seq_shift, map_map. apply map_ext. intros i. lia.
Qed.

Lemma wp_and {World A} (m : M World A) s (P Q : _ -> _ -> _ -> Prop) :
  wp m s P -> wp m s Q -> wp m s (fun r t s' => P r t s' /\ Q r t s').
Proof. unfold wp. auto. Qed.

Section Retry.
Context {World : Type}.
Variable w3 : Web3 World.
Variable config : Config.

(** The flag returned by an attempt says whether the status is SUCCESS. *)
Lemma send_gm_transaction_flag wallet_data s :
  wp (send_gm_transaction w3 config wallet_data) s
     (fun r _ _ => forall ok status message,
          r = inr (ok, status, message) -> ok = status_eqb status SUCCESS).
Proof.
unfold wp, send_gm_transaction.
destruct (to_checksum_address w3 (address wallet_data)) as [e|a] eqn:Ea;
  cbn [lift]; [cbn; discriminate|].
unfold bind at 1. cbn [ret]. unfold try_except.
pose proof (send_gm_body_returns w3 config a
              (strip_0x (private_key wallet_data)) s) as Hbody.
unfold wp in Hbody.
destruct (send_gm_body w3 config a (strip_0x (private_key wallet_data)) s)
  as [[[e|v] t1] s1] eqn:Eb; cbn in *.
- unfold classify_error.
  repeat match goal with
         | |- context [if ?b then _ else _] => destruct b
         end; intros ok status message E; inversion E; reflexivity.
- intros ok status message E; inversion E; subst.
  destruct (Hbody _ _ _ eq_refl) as [[-> ->]|[[-> ->]|[-> [-> _]]]];
    reflexivity.
Qed.

Lemma process_wallet_spec wallet_data attempt s :
  wp (process_wallet w3 config wallet_data attempt) s
     (fun r t s' =>
        bot s' = bot s /\
        (exists seg,
            t = EvAttempt (address wallet_data) attempt :: seg /\
            Forall (fun ev => is_client_event ev = true) seg) /\
        forall ok status message,
          r = inr (ok, status, message) -> ok = status_eqb status SUCCESS).
Proof.
unfold process_wallet. repeat wp_step.
eapply wp_mono;
  [exact (wp_and _ _ _ _ (send_gm_transaction_trace w3 config wallet_data s)
                 (send_gm_transaction_flag wallet_data s))|].
cbn beta. intros r t s' [[Hb Ht] Hf]. repeat split; eauto.
exists t. split; [reflexivity | exact Ht].
Qed.

(** The loop over what is left of [range(1, max_retries + 1)], from
    attempt [lo] on, with [n] attempts left. *)
Lemma attempts_shape wallet_data :
  forall n lo loc s,
    Z.to_nat (max_retries config + 1 - lo) = n ->
    wp (attempts w3 config wallet_data (range lo (max_retries config + 1))
                 loc) s
       (fun r t s' =>
          exists segs rs,
            (List.length segs <= n)%nat /\
            (n <> 0%nat -> segs <> []) /\
            t = attempt_trace (address wallet_data) (retry_delay config)
                              lo segs /\
            Forall (Forall (fun ev => is_client_event ev = true)) segs /\
            results (bot s') = results (bot s) ++ rs /\
            failed_wallets (bot s') = failed_wallets (bot s) /\
            map r_attempt rs = range lo (lo + Z.of_nat (List.length rs)) /\
            Forall (fun x => r_address x = address wallet_data) rs /\
            (List.length rs <= List.length segs)%nat /\
            (forall i x, nth_error rs i = Some x ->
                         is_final (r_status x) = true ->
                         S i = List.length rs /\
                         List.length segs = List.length rs) /\
            (forall loc', r = inr loc' ->
               List.length segs = List.length rs /\
               match rev rs with
               | [] => loc' = loc
               | x :: _ =>
                   loc' = mkLocals (status_eqb (r_status x) SUCCESS)
                                   (Some (r_status x)) (Some (r_message x)) /\
                   (is_final (r_status x) = true \/ List.length rs = n)
               end)).
Proof.
induction n as [|n IH]; intros lo loc s Hn.
- rewrite range_nil by lia. cbn [attempts]. apply wp_ret.
  exists [], []. cbn. rewrite app_nil_r, range_nil by lia.
  repeat split; auto; try congruence; destruct i; discriminate.
- rewrite range_cons by lia. cbn [attempts].
  apply wp_bind. eapply wp_mono; [apply process_wallet_spec|].
  intros r t s1 (Hb1 & (seg & -> & Hseg) & Hflag).
  destruct r as [e|[[ok status] message]].
  + exists [seg], []. cbn. rewrite !app_nil_r, range_nil by lia.
    repeat split; auto; try lia; try congruence; try discriminate;
      try (destruct i; discriminate); rewrite Hb1; reflexivity.
  + rewrite (Hflag _ _ _ eq_refl). clear Hflag.
    apply wp_bind, wp_ask. intros stamp w1 _.
    apply wp_bind. unfold append_result.
    apply wp_bind, wp_get_bot, wp_set_bot. cbn [bot world].
    set (result := mkResult (address wallet_data) lo status message stamp).
    set (s2 := mkState w1 _).
    rewrite status_eqb_final.
    destruct (is_final status) eqn:Hfin.
    * apply wp_ret. exists [seg], [result]. cbn. rewrite !app_nil_r.
      rewrite Hb1.
      repeat split; auto; try lia; try congruence;
        try (destruct i as [|[|i]]; cbn in *; congruence).
      rewrite range_cons, range_nil by lia. reflexivity.
    * apply wp_bind.
      assert (Hrest :
        forall t0 s3, bot s3 = bot s2 ->
        (t0 = [] /\ n = 0%nat \/
         t0 = [EvSleep (retry_delay config)] /\ n <> 0%nat) ->
        wp (attempts w3 config wallet_data
                     (range (lo + 1) (max_retries config + 1))
                     (mkLocals (status_eqb status SUCCESS) (Some status)
                               (Some message))) s3
           (fun r' t' s' =>
              exists segs rs,
                (List.length segs <= S n)%nat /\
                (S n <> 0%nat -> segs <> []) /\
                ((EvAttempt (address wallet_data) lo :: seg) ++ [] ++ [] ++
                   t0 ++ t')
                = attempt_trace (address wallet_data) (retry_delay config)
                                lo segs /\
                Forall (Forall (fun ev => is_client_event ev = true)) segs /\
                results (bot s') = results (bot s) ++ rs /\
                failed_wallets (bot s') = failed_wallets (bot s) /\
                map r_attempt rs = range lo (lo + Z.of_nat (List.length rs)) /\
                Forall (fun x => r_address x = address wallet_data) rs /\
                (List.length rs <= List.length segs)%nat /\
                (forall i x, nth_error rs i = Some x ->
                             is_final (r_status x) = true ->
                             S i = List.length rs /\
                             List.length segs = List.length rs) /\
                (forall loc', r' = inr loc' ->
                   List.length segs = List.length rs /\
                   match rev rs with
                   | [] => loc' = loc
                   | x :: _ =>
                       loc' = mkLocals (status_eqb (r_status x) SUCCESS)
                                       (Some (r_status x))
                                       (Some (r_message x)) /\
                       (is_final (r_status x) = true \/
                        List.length rs = S n)
                   end))).
      { intros t0 s3 Hb3 Ht0.
        eapply wp_mono; [apply (IH (lo + 1)); lia|].
        intros r' t' s'
          (segs & rs & Hlen & Hne & -> & Hcl & Hres & Hfl & Hatt & Haddr &
           Hle & Hlast & Hret).
        exists (seg :: segs), (result :: rs).
        rewrite Hres, Hfl, Hb3. subst s2. cbn [bot results failed_wallets].
        rewrite Hb1.
        repeat split.
        - cbn. lia.
        - discriminate.
        - cbn [app attempt_trace]. f_equal. f_equal.
          destruct Ht0 as [[-> Hn0]|[-> Hn0]].
          + destruct segs; [reflexivity | cbn in Hlen; lia].
          + destruct segs; [exfalso; apply (Hne Hn0); reflexivity
                           | reflexivity].
        - constructor; assumption.
        - rewrite <- app_assoc. reflexivity.
        - cbn [map List.length r_attempt result].
          rewrite (range_cons lo) by lia. f_equal.
          rewrite Hatt. f_equal. lia.
        - constructor; [reflexivity | assumption].
        - cbn. lia.
        - destruct i as [|i]; cbn in H; [|apply Hlast in H; auto; cbn; lia].
          inversion H; subst x. cbn in H0. congruence.
        - destruct i as [|i]; cbn in H; [|apply Hlast in H; auto; cbn; lia].
          inversion H; subst x. cbn in H0. congruence.
        - destruct (Hret _ H) as [Hl _]. cbn. lia.
        - destruct (Hret _ H) as [Hl Hm]. cbn [rev].
          destruct (rev rs) as [|x xs] eqn:Hrev.
          + apply (f_equal (@List.length _)) in Hrev.
            rewrite length_rev in Hrev. cbn in Hrev.
            destruct rs; [|discriminate]. cbn in *.
            destruct segs; [|discriminate].
            split; [exact Hm|]. right. f_equal.
            destruct n; [reflexivity|].
            exfalso. apply Hne; [discriminate | reflexivity].
          + cbn [app]. destruct Hm as [Hm1 Hm2]. split; [exact Hm1|].
            destruct Hm2 as [Hm2|Hm2]; [left; exact Hm2 | right; cbn; lia]. }
      destruct (lo <? max_retries config) eqn:Hlt.
      -- unfold sleep. destruct (retry_delay config <? 0) eqn:Hneg.
         ++ apply wp_raise. exists [seg], [result]. cbn. rewrite !app_nil_r.
            rewrite Hb1.
            repeat split; auto; try lia; try discriminate;
              try (destruct i as [|[|i]]; cbn in *; congruence).
            rewrite range_cons, range_nil by lia. reflexivity.
         ++ apply wp_emit. apply Hrest; [reflexivity|].
            right. split; [reflexivity|]. apply Z.ltb_lt in Hlt. lia.
      -- apply wp_ret. apply Hrest; [reflexivity|].
         left. split; [reflexivity|]. apply Z.ltb_ge in Hlt. lia.
Qed.

End Retry.

(** ** The run *)

Lemma rev_cons_split {A} (l : list A) x xs :
  rev l = x :: xs -> l = rev xs ++ [x].
Proof.
intros H. rewrite <- (rev_involutive l), H. reflexivity.
Qed.

Section Run.
Context {World : Type}.
Variable w3 : Web3 World.
Variable config : Config.

(** C3, as amended. With [max_retries >= 1] the retry loop of a wallet
    makes [k] attempts, [1 <= k <= max_retries], numbered 1 to [k]; its
    trace is attempt 1, [sleep(retry_delay)], attempt 2, and so on, with
    the same delay each time; the results it appends are numbered
    1, 2, ...; a result with SUCCESS or ALREADY_GMED is the last result and
    the last attempt; and when the loop ends normally every attempt left a
    result and the last one stops the retries or is number
    [max_retries]. *)
Theorem retry_loop_shape wallet_data loc s r t s' :
  1 <= max_retries config ->
  attempts w3 config wallet_data (range 1 (max_retries config + 1)) loc s
  = (r, t, s') ->
  exists segs rs,
    1 <= Z.of_nat (List.length segs) <= max_retries config /\
    t = attempt_trace (address wallet_data) (retry_delay config) 1 segs /\
    Forall (Forall (fun ev => is_client_event ev = true)) segs /\
    results (bot s') = results (bot s) ++ rs /\
    map r_attempt rs = range 1 (1 + Z.of_nat (List.length rs)) /\
    (List.length rs <= List.length segs)%nat /\
    (forall i x, nth_error rs i = Some x ->
                 is_final (r_status x) = true ->
                 S i = List.length rs /\
                 List.length segs = List.length rs) /\
    (forall loc', r = inr loc' ->
       List.length segs = List.length rs /\
       exists x xs,
         rev rs = x :: xs /\
         l_status loc' = Some (r_status x) /\
         (is_final (r_status x) = true \/
          Z.of_nat (List.length rs) = max_retries config)).
Proof.
intros Hmax E.
pose proof (wp_run _ _ _ _ _ _
              (attempts_shape w3 config wallet_data
                 (Z.to_nat (max_retries config)) 1 loc s ltac:(lia)) E)
  as (segs & rs & Hlen & Hne & Ht & Hcl & Hres & _ & Hatt & _ & Hle &
      Hlast & Hret).
exists segs, rs. repeat split; auto; try lia.
- destruct segs; [exfalso; apply Hne; [lia | reflexivity] | cbn; lia].
- apply (Hlast _ _ H H0).
- apply (Hlast _ _ H H0).
- apply (Hret _ H).
- destruct (Hret _ H) as [Hl Hm].
  destruct (rev rs) as [|x xs] eqn:Hrev.
  + apply (f_equal (@List.length _)) in Hrev. rewrite length_rev in Hrev.
    destruct segs; [exfalso; apply Hne; [lia | reflexivity]|].
    cbn in *. lia.
  + exists x, xs. destruct Hm as [-> Hm]. repeat split.
    destruct Hm as [Hm|Hm]; [left; exact Hm | right; lia].
Qed.

(** One turn of the outer loop, when [max_retries >= 1] and the turn
    ends without an exception. *)
Lemma run_wallet_spec index wallet_data loc s :
  1 <= max_retries config ->
  wp (run_wallet w3 config index wallet_data loc) s
     (fun r _ s' =>
        forall loc', r = inr loc' ->
          exists o,
            wallet_outcome wallet_data o /\
            l_status loc' = Some (terminal_status o) /\
            results (bot s') = results (bot s) ++ outcome_results o /\
            failed_wallets (bot s')
            = failed_wallets (bot s)
              ++ (if ends_failed (wallet_data, o)
                  then [failed_record (wallet_data, o)] else [])).
Proof.
intros Hmax. unfold run_wallet. cbv zeta.
apply wp_bind.
assert (Hloop : forall s0, bot s0 = bot s ->
  wp (loc0 <- attempts w3 config wallet_data
                (range 1 (max_retries config + 1))
                (mkLocals false (l_status loc) (l_error_message loc)) ;;
      if negb (l_success loc0)
      then status <- read_local "status" (l_status loc0) ;;
           if negb (status_eqb status ALREADY_GMED)
           then error_message <-
                  read_local "error_message" (l_error_message loc0) ;;
                append_failed (mkFailedWallet (address wallet_data) status
                                              error_message) ;;
                ret loc0
           else ret loc0
      else ret loc0)%bot s0
     (fun r _ s' =>
        forall loc', r = inr loc' ->
          exists o,
            wallet_outcome wallet_data o /\
            l_status loc' = Some (terminal_status o) /\
            results (bot s') = results (bot s) ++ outcome_results o /\
            failed_wallets (bot s')
            = failed_wallets (bot s)
              ++ (if ends_failed (wallet_data, o)
                  then [failed_record (wallet_data, o)] else []))).
{ intros s0 Hs0. apply wp_bind.
  eapply wp_mono;
    [apply (attempts_shape w3 config wallet_data
              (Z.to_nat (max_retries config)) 1); lia|].
  intros r t s1
    (segs & rs & Hlen & Hne & _ & _ & Hres & Hfl & Hatt & Haddr & Hle &
     Hlast & Hret).
  destruct r as [e|loc1]; [discriminate|].
  destruct (Hret _ eq_refl) as [Hl Hm].
  destruct (rev rs) as [|x xs] eqn:Hrev.
  { apply (f_equal (@List.length _)) in Hrev. rewrite length_rev in Hrev.
    destruct segs; [exfalso; apply Hne; [lia | reflexivity]|].
    cbn in *. lia. }
  destruct Hm as [-> _]. apply rev_cons_split in Hrev.
  assert (Ho : wallet_outcome wallet_data (rev xs, x)).
  { unfold wallet_outcome, outcome_results. cbn [fst snd].
    rewrite <- Hrev. repeat split; try assumption.
    apply Forall_forall. intros y Hy.
    apply In_nth_error in Hy. destruct Hy as [i Hi].
    destruct (is_final (r_status y)) eqn:Hfin; [|reflexivity].
    assert (Hi' : nth_error rs i = Some y).
    { rewrite Hrev, nth_error_app1; [exact Hi|].
      apply nth_error_Some. congruence. }
    destruct (Hlast _ _ Hi' Hfin) as [Hlen' _].
    assert (i < List.length (rev xs))%nat
      by (apply nth_error_Some; congruence).
    rewrite Hrev, length_app in Hlen'. cbn in Hlen'. lia. }
  cbn [l_success l_status l_error_message].
  destruct (status_eqb (r_status x) SUCCESS) eqn:Hs; cbn [negb].
  - apply wp_ret. intros loc' E. inversion E; subst loc'.
    exists (rev xs, x). unfold ends_failed, terminal_status.
    cbn [fst snd l_status]. apply status_eqb_eq in Hs. rewrite Hs.
    cbn. rewrite app_nil_r. unfold outcome_results. cbn [fst snd].
    rewrite <- Hrev, <- Hs0. auto.
  - apply wp_bind. cbn [read_local]. apply wp_ret.
    destruct (status_eqb (r_status x) ALREADY_GMED) eqn:Ha; cbn [negb].
    + apply wp_ret. intros loc' E. inversion E; subst loc'.
      exists (rev xs, x). unfold ends_failed, terminal_status.
      cbn [fst snd l_status]. apply status_eqb_eq in Ha. rewrite Ha.
      cbn. rewrite app_nil_r. unfold outcome_results. cbn [fst snd].
      rewrite <- Hrev, <- Hs0. auto.
    + apply wp_bind. cbn [read_local]. apply wp_ret.
      apply wp_bind. unfold append_failed.
      apply wp_bind, wp_get_bot, wp_set_bot, wp_ret.
      intros loc' E. inversion E; subst loc'.
      exists (rev xs, x). unfold ends_failed, terminal_status.
      cbn [fst snd l_status bot results failed_wallets].
      assert (Hnf : is_final (r_status x) = false).
      { rewrite <- status_eqb_final, Hs, Ha. reflexivity. }
      rewrite Hnf. cbn [negb]. unfold outcome_results, failed_record.
      cbn [fst snd]. rewrite <- Hrev, <- Hs0, Hfl. auto. }
destruct (delay_enabled config && (index >? 0))%bool.
- apply wp_bind. unfold random_randint.
  destruct (max_delay config <? min_delay config).
  + apply wp_raise. discriminate.
  + apply wp_ask. intros delay w _. unfold sleep.
    destruct (delay <? 0).
    * apply wp_raise. discriminate.
    * apply wp_emit. apply Hloop. reflexivity.
- apply wp_ret. apply Hloop. reflexivity.
Qed.

(** The outer loop, under the same conditions. *)
Lemma run_wallets_spec :
  1 <= max_retries config ->
  forall ws index loc s,
    wp (run_wallets w3 config index ws loc) s
       (fun r _ s' =>
          forall loc', r = inr loc' ->
            exists os,
              Forall2 wallet_outcome ws os /\
              results (bot s')
              = results (bot s) ++ flat_map outcome_results os /\
              failed_wallets (bot s')
              = failed_wallets (bot s)
                ++ map failed_record (filter ends_failed (combine ws os))).
Proof.
intros Hmax. induction ws as [|w ws IH]; intros index loc s; cbn [run_wallets].
- apply wp_ret. intros loc' _. exists []. cbn. rewrite !app_nil_r. auto.
- apply wp_bind. eapply wp_mono; [apply run_wallet_spec; exact Hmax|].
  intros r t s1 H. destruct r as [e|loc1]; [discriminate|].
  destruct (H _ eq_refl) as (o & Ho & _ & Hres & Hfl).
  eapply wp_mono; [apply IH|].
  intros r' t' s' H' loc' E.
  destruct (H' _ E) as (os & Hos & Hres' & Hfl').
  exists (o :: os). split; [constructor; assumption|].
  rewrite Hres', Hres, Hfl', Hfl. cbn [flat_map combine filter].
  rewrite <- !app_assoc. split; [reflexivity|]. f_equal.
  destruct (ends_failed (w, o)); reflexivity.
Qed.

Lemma save_results_spec s :
  wp (save_results w3 config) s
     (fun r t s' =>
        bot s' = bot s /\ r = inr tt /\
        exists stamp,
          t = EvWriteResults
                (mkResultsFile (results (bot s)) (failed_wallets (bot s))
                               (summary config (bot s)))
              :: match failed_wallets (bot s) with
                 | [] => []
                 | _ :: _ =>
                     [EvWriteFailed
                        (mkFailedFile
                           stamp
                           (Z.of_nat (List.length (failed_wallets (bot s))))
                           (enrich config (failed_wallets (bot s))))]
                 end).
Proof.
unfold save_results. repeat wp_step; cbn [bot world app];
  repeat split;
  match goal with stamp : string |- _ => exists stamp end;
  match goal with H : failed_wallets _ = _ |- _ => cbn in H; rewrite H end;
  reflexivity.
Qed.

(** Without retries the first wallet already stops the run: no attempt is
    made and the test after the loop reads [status] unbound. *)
Lemma run_without_retries s wallet_data ws :
  max_retries config <= 0 ->
  wallets config = wallet_data :: ws ->
  run w3 config s
  = (inl (mkExn UnboundLocalError
            ("cannot access local variable 'status' where it is not "
               ++ "associated with a value")),
     [], s).
Proof.
intros Hmax Hws. unfold run. rewrite Hws. cbn [run_wallets].
unfold run_wallet. rewrite range_nil by lia. cbn [attempts].
rewrite andb_false_r. destruct s as [w b]. reflexivity.
Qed.

(** What a run that ends normally leaves behind. *)
Lemma run_outcomes s t s' :
  run w3 config s = (inr tt, t, s') ->
  exists os t0 stamp,
    Forall2 wallet_outcome (wallets config) os /\
    results (bot s') = results (bot s) ++ flat_map outcome_results os /\
    failed_wallets (bot s')
    = failed_wallets (bot s)
      ++ map failed_record
             (filter ends_failed (combine (wallets config) os)) /\
    t = t0 ++
        EvWriteResults
          (mkResultsFile (results (bot s')) (failed_wallets (bot s'))
                         (summary config (bot s')))
        :: match failed_wallets (bot s') with
           | [] => []
           | _ :: _ =>
               [EvWriteFailed
                  (mkFailedFile
                     stamp
                     (Z.of_nat (List.length (failed_wallets (bot s'))))
                     (enrich config (failed_wallets (bot s'))))]
           end.
Proof.
intros E.
assert (Hcase : 1 <= max_retries config \/ wallets config = []).
{ destruct (Z_le_gt_dec 1 (max_retries config)) as [H|H]; [left; exact H|].
  destruct (wallets config) as [|w ws] eqn:Hws; [right; reflexivity|].
  rewrite (run_without_retries s w ws) in E by (lia || assumption).
  discriminate. }
unfold run in E.
assert (Hws :
  wp (run_wallets w3 config 0 (wallets config) (mkLocals false None None)) s
     (fun r _ s1 =>
        forall loc', r = inr loc' ->
          exists os,
            Forall2 wallet_outcome (wallets config) os /\
            results (bot s1)
            = results (bot s) ++ flat_map outcome_results os /\
            failed_wallets (bot s1)
            = failed_wallets (bot s)
              ++ map failed_record
                     (filter ends_failed (combine (wallets config) os)))).
{ destruct Hcase as [Hmax|Hnil].
  - apply run_wallets_spec. exact Hmax.
  - rewrite Hnil. cbn [run_wallets]. apply wp_ret. intros loc' _.
    exists []. cbn. rewrite !app_nil_r. auto. }
unfold wp in Hws. unfold bind in E.
destruct (run_wallets w3 config 0 (wallets config)
                      (mkLocals false None None) s)
  as [[[e|loc1] t1] s1]; [discriminate|].
cbn [fst snd] in Hws. destruct (Hws _ eq_refl) as (os & Hos & Hres & Hfl).
pose proof (save_results_spec s1) as Hsave. unfold wp in Hsave.
destruct (save_results w3 config s1) as [[r2 t2] s2].
cbn [fst snd] in Hsave. destruct Hsave as (Hb & _ & stamp & Ht2).
inversion E; subst. rewrite Hb.
exists os, t1, stamp. auto.
Qed.

(** [find] returns the first element that passes the test. *)
Lemma find_first {A} (p : A -> bool) (l : list A) v :
  find p l = Some v ->
  exists pre post,
    l = pre ++ v :: post /\ Forall (fun u => p u = false) pre /\ p v = true.
Proof.
induction l as [|x l IH]; cbn [find]; [discriminate|].
destruct (p x) eqn:Hx.
- intros E. inversion E; subst. exists [], l. repeat split; auto.
- intros E. destruct (IH E) as (pre & post & -> & Hpre & Hv).
  exists (x :: pre), post. repeat split; auto.
Qed.

(** Among wallets whose addresses differ beyond their case, a wallet is
    known by its lower-cased address. *)
Lemma lower_address_inj (ws : list Wallet) v w :
  NoDup (map (fun u => lower (address u)) ws) ->
  In v ws -> In w ws -> lower (address v) = lower (address w) -> v = w.
Proof.
induction ws as [|x ws IH]; intros Hnd Hv Hw E; [destruct Hv|].
cbn [map] in Hnd. inversion Hnd as [|? ? Hx Hnd']; subst.
destruct Hv as [->|Hv], Hw as [->|Hw]; auto.
- exfalso. apply Hx. rewrite E.
  apply (in_map (fun u => lower (address u))). exact Hw.
- exfalso. apply Hx. rewrite <- E.
  apply (in_map (fun u => lower (address u))). exact Hv.
Qed.

(** The entries of the retry file, read off the config: the record of a
    wallet that failed gets the spelling of the address, the key and the
    proxy of the first wallet of the config with that address up to case,
    and no record is dropped. *)
Lemma enrich_first_match (wos : list (Wallet * Outcome)) :
  (forall wo, In wo wos -> In (fst wo) (wallets config)) ->
  Forall2 (fun wo e =>
             e_last_status e = terminal_status (snd wo) /\
             e_last_error e = r_message (snd (snd wo)) /\
             exists pre v post,
               wallets config = pre ++ v :: post /\
               Forall (fun u => lower (address u) <> lower (address (fst wo)))
                      pre /\
               lower (address v) = lower (address (fst wo)) /\
               e_address e = address v /\
               e_private_key e = private_key v /\
               e_proxy e = proxy v /\
               (NoDup (map (fun u => lower (address u)) (wallets config)) ->
                v = fst wo))
          wos (enrich config (map failed_record wos)).
Proof.
induction wos as [|wo wos IH]; intros Hin; cbn [map enrich]; [constructor|].
pose proof (Hin wo (or_introl eq_refl)) as Hw.
unfold find_original. cbn [failed_record f_address].
destruct (find (fun wallet =>
                  String.eqb (lower (address wallet))
                             (lower (address (fst wo))))
               (wallets config)) as [v|] eqn:Hfind.
- constructor; [|apply IH; intros wo' H; apply Hin; right; exact H].
  cbn [e_last_status e_last_error e_address e_private_key e_proxy
       f_last_status f_last_error].
  split; [reflexivity|]. split; [reflexivity|].
  destruct (find_first _ _ _ Hfind) as (pre & post & Hws & Hpre & Hv).
  apply String.eqb_eq in Hv.
  exists pre, v, post. split; [exact Hws|]. split.
  { eapply Forall_impl; [|exact Hpre]. cbv beta. intros u Hu E.
    rewrite E, String.eqb_refl in Hu. discriminate. }
  split; [exact Hv|]. repeat split.
  intros Hnd. apply (lower_address_inj (wallets config)); auto.
  rewrite Hws. apply in_or_app. right. left. reflexivity.
- exfalso. pose proof (find_none _ _ Hfind _ Hw) as Hn. cbv beta in Hn.
  rewrite String.eqb_refl in Hn. discriminate.
Qed.

Lemma ends_failed_iff w o :
  ends_failed (w, o) = true <->
  terminal_status o <> SUCCESS /\ terminal_status o <> ALREADY_GMED.
Proof.
unfold ends_failed. cbn [snd].
destruct (terminal_status o); cbn; split; try discriminate;
  try (intros [H1 H2]; congruence); intros _; split; discriminate.
Qed.

(** C4. After a run that ends normally, [self.failed_wallets] holds, in
    the order of the config, one record for exactly those wallets whose
    last attempt ended neither in SUCCESS nor in ALREADY_GMED; and the
    retry file, written when there is such a wallet, holds one entry per
    failed wallet, in the same order, with the status and message of the
    wallet's last attempt and with the address, private key and proxy of
    the original wallet: the first wallet of the config whose lower-cased
    address equals that of the failed wallet, which is the failed wallet
    itself when no two wallets of the config share an address up to
    case. *)
Theorem failed_wallets_after_run s t s' :
  bot s = new_bot ->
  run w3 config s = (inr tt, t, s') ->
  exists os t0 stamp,
    Forall2 wallet_outcome (wallets config) os /\
    results (bot s') = flat_map outcome_results os /\
    failed_wallets (bot s')
    = map failed_record (filter ends_failed (combine (wallets config) os)) /\
    (forall w o, ends_failed (w, o) = true <->
                 terminal_status o <> SUCCESS /\
                 terminal_status o <> ALREADY_GMED) /\
    t = t0 ++
        EvWriteResults
          (mkResultsFile (results (bot s')) (failed_wallets (bot s'))
                         (summary config (bot s')))
        :: match failed_wallets (bot s') with
           | [] => []
           | _ :: _ =>
               [EvWriteFailed
                  (mkFailedFile
                     stamp
                     (Z.of_nat (List.length (failed_wallets (bot s'))))
                     (enrich config (failed_wallets (bot s'))))]
           end /\
    Forall2 (fun wo e =>
               e_last_status e = terminal_status (snd wo) /\
               e_last_error e = r_message (snd (snd wo)) /\
               exists pre v post,
                 wallets config = pre ++ v :: post /\
                 Forall (fun u =>
                           lower (address u) <> lower (address (fst wo)))
                        pre /\
                 lower (address v) = lower (address (fst wo)) /\
                 e_address e = address v /\
                 e_private_key e = private_key v /\
                 e_proxy e = proxy v /\
                 (NoDup (map (fun u => lower (address u)) (wallets config)) ->
                  v = fst wo))
            (filter ends_failed (combine (wallets config) os))
            (enrich config (failed_wallets (bot s'))).
Proof.
intros Hnew E.
destruct (run_outcomes s t s' E) as (os & t0 & stamp & Hos & Hres & Hfl & Ht).
rewrite Hnew in Hres, Hfl. cbn [new_bot results failed_wallets app] in *.
exists os, t0, stamp.
split; [exact Hos|]. split; [exact Hres|]. split; [exact Hfl|].
split; [intros w o; apply ends_failed_iff|]. split; [exact Ht|].
rewrite Hfl. apply enrich_first_match.
intros [w o] Hwo. apply filter_In in Hwo. destruct Hwo as [Hwo _].
apply in_combine_l in Hwo. exact Hwo.
Qed.

(** Results that do not stop the retries are neither SUCCESS nor
    ALREADY_GMED, so a wallet counts once at most. *)
Lemma count_status_retried st rs :
  is_final st = true ->
  Forall (fun x => is_final (r_status x) = false) rs ->
  filter (fun r => status_eqb (r_status r) st) rs = [].
Proof.
intros Hst H. induction H as [|x rs Hx _ IH]; cbn [filter]; [reflexivity|].
destruct (status_eqb (r_status x) st) eqn:E; [|exact IH].
apply status_eqb_eq in E. congruence.
Qed.

Lemma count_status_outcome st o :
  is_final st = true ->
  Forall (fun x => is_final (r_status x) = false) (fst o) ->
  count_status st (outcome_results o)
  = if status_eqb (terminal_status o) st then 1 else 0.
Proof.
intros Hst H. unfold count_status, outcome_results.
rewrite filter_app, (count_status_retried st _ Hst H). cbn [app filter].
unfold terminal_status. destruct (status_eqb (r_status (snd o)) st);
  reflexivity.
Qed.

Lemma count_status_app st a b :
  count_status st (a ++ b) = count_status st a + count_status st b.
Proof. unfold count_status. rewrite filter_app, length_app. lia. Qed.

Lemma count_status_outcomes st ws os :
  is_final st = true ->
  Forall2 wallet_outcome ws os ->
  count_status st (flat_map outcome_results os)
  = Z.of_nat
      (List.length (filter (fun o => status_eqb (terminal_status o) st) os)).
Proof.
intros Hst H. induction H as [|w o ws os [Ho _] _ IH]; [reflexivity|].
cbn [flat_map filter]. rewrite count_status_app, IH.
rewrite (count_status_outcome st o Hst Ho).
destruct (status_eqb (terminal_status o) st); cbn [List.length]; lia.
Qed.

(** C10. In a run that ends normally every wallet leaves at most one
    SUCCESS and at most one ALREADY_GMED in [self.results], so the two
    counts of the summary, taken over all results, are the numbers of
    wallets whose last attempt ended in SUCCESS, resp. ALREADY_GMED; that
    summary is the one written to the results file. *)
Theorem summary_counts_wallets s t s' :
  bot s = new_bot ->
  run w3 config s = (inr tt, t, s') ->
  exists os,
    Forall2 wallet_outcome (wallets config) os /\
    results (bot s') = flat_map outcome_results os /\
    Forall (fun o =>
              count_status SUCCESS (outcome_results o) <= 1 /\
              count_status ALREADY_GMED (outcome_results o) <= 1) os /\
    successful (summary config (bot s'))
    = Z.of_nat
        (List.length
           (filter (fun o => status_eqb (terminal_status o) SUCCESS) os)) /\
    already_gmed (summary config (bot s'))
    = Z.of_nat
        (List.length
           (filter (fun o => status_eqb (terminal_status o) ALREADY_GMED)
                   os)) /\
    exists t0 rest,
      t = t0 ++
          EvWriteResults
            (mkResultsFile (results (bot s')) (failed_wallets (bot s'))
                           (summary config (bot s')))
          :: rest.
Proof.
intros Hnew E.
destruct (run_outcomes s t s' E) as (os & t0 & stamp & Hos & Hres & _ & Ht).
rewrite Hnew in Hres. cbn [new_bot results app] in Hres.
exists os. split; [exact Hos|]. split; [exact Hres|]. split.
- clear - Hos. induction Hos as [|w o ws os [Ho _] _ IH]; constructor; auto.
  rewrite !count_status_outcome by (reflexivity || assumption).
  split; match goal with |- (if ?b then _ else _) <= _ => destruct b end; lia.
- cbn [summary successful already_gmed].
  split; [|split].
  + rewrite Hres. apply (count_status_outcomes _ (wallets config));
      [reflexivity | exact Hos].
  + rewrite Hres. apply (count_status_outcomes _ (wallets config));
      [reflexivity | exact Hos].
  + exists t0. eexists. exact Ht.
Qed.

(** C9. With [max_retries = 0] (or less) and at least one wallet, [run]
    makes no attempt, records nothing and raises on the first wallet,
    because the test after the loop reads [status], which was never
    assigned; with [max_retries >= 1] a wallet whose turn ends normally
    has left at least one result, and [status] is that of the last one. *)
Theorem no_retries_unbound_status :
  (forall s wallet_data ws,
      max_retries config <= 0 ->
      wallets config = wallet_data :: ws ->
      attempts w3 config wallet_data (range 1 (max_retries config + 1))
               (mkLocals false None None) s
      = (inr (mkLocals false None None), [], s) /\
      run w3 config s
      = (inl (mkExn UnboundLocalError
                ("cannot access local variable 'status' where it is not "
                   ++ "associated with a value")),
         [], s)) /\
  (forall index wallet_data loc s loc' t s',
      1 <= max_retries config ->
      run_wallet w3 config index wallet_data loc s = (inr loc', t, s') ->
      exists o,
        wallet_outcome wallet_data o /\
        l_status loc' = Some (terminal_status o) /\
        results (bot s') = results (bot s) ++ outcome_results o).
Proof.
split.
- intros s wallet_data ws Hmax Hws. split.
  + rewrite range_nil by lia. reflexivity.
  + apply (run_without_retries s wallet_data ws Hmax Hws).
- intros index wallet_data loc s loc' t s' Hmax E.
  destruct (wp_run _ _ _ _ _ _
              (run_wallet_spec index wallet_data loc s Hmax) E _ eq_refl)
    as (o & Ho & Hst & Hres & _).
  exists o. auto.
Qed.

End Run.

(** ** The run on the scripted client *)

(** The scenario of the specification: A succeeds at once, B times out and
    then succeeds, C is short of funds twice. *)
Example scenario_three_wallets :
  let run := run Sim.client Ex.cfg (Ex.start Ex.chain) in
  fst (fst run) = inr tt /\
  summary Ex.cfg (bot (snd run)) = mkSummary 3 2 0 1 /\
  map r_attempt (results (bot (snd run))) = [1; 1; 2; 1; 2] /\
  failed_wallets (bot (snd run))
  = [mkFailedWallet
       Ex.C INSUFFICIENT_BALANCE
       "Баланс: 0.000050 ETH (нужно минимум 0.000100 ETH)"] /\
  enrich Ex.cfg (failed_wallets (bot (snd run)))
  = [mkFailedEntry
       Ex.C "cc" (Some "socks5://proxy")
       "Баланс: 0.000050 ETH (нужно минимум 0.000100 ETH)"
       INSUFFICIENT_BALANCE].
Proof. repeat split; vm_compute; reflexivity. Qed.

(** C3 on the wallet that is short of funds: two attempts, one second
    apart. *)
Lemma retry_loop_shape_witness :
  let run :=
    attempts Sim.client Ex.cfg Ex.wallet_C (range 1 (max_retries Ex.cfg + 1))
             (mkLocals false None None) (Ex.start Ex.chain) in
  1 <= max_retries Ex.cfg /\
  snd (fst run)
  = [EvAttempt Ex.C 1; EvGetBalance Ex.C (inr 50000000000000); EvSleep 1;
     EvAttempt Ex.C 2; EvGetBalance Ex.C (inr 50000000000000)] /\
  exists segs rs,
    1 <= Z.of_nat (List.length segs) <= max_retries Ex.cfg /\
    snd (fst run) = attempt_trace Ex.C 1 1 segs /\
    results (bot (snd run)) = rs /\
    map r_attempt rs = range 1 (1 + Z.of_nat (List.length rs)).
Proof.
cbv zeta. split; [vm_compute; discriminate|].
split; [vm_compute; reflexivity|].
destruct (retry_loop_shape Sim.client Ex.cfg Ex.wallet_C
            (mkLocals false None None) (Ex.start Ex.chain) _ _ _
            ltac:(vm_compute; discriminate) (run_eta _))
  as (segs & rs & Hk & Ht & _ & Hres & Hatt & _).
exists segs, rs. repeat split; try assumption; apply Hk.
Defined.

(** C3 as stated fails without the bound on [max_retries]: with
    [max_retries = 0] the loop of a wallet ends normally after no attempt
    at all. *)
Lemma retry_loop_without_attempt :
  max_retries Ex.cfg_no_retry = 0 /\
  attempts Sim.client Ex.cfg_no_retry Ex.wallet_A
           (range 1 (max_retries Ex.cfg_no_retry + 1))
           (mkLocals false None None) (Ex.start Ex.chain)
  = (inr (mkLocals false None None), [], Ex.start Ex.chain).
Proof. split; vm_compute; reflexivity. Qed.

(** C4 on the scenario: the third wallet fails, and the entry of the
    retry file carries its key and its proxy. *)
Lemma failed_wallets_after_run_witness :
  let s := Ex.start Ex.chain in
  let run := run Sim.client Ex.cfg s in
  bot s = new_bot /\
  fst (fst run) = inr tt /\
  enrich Ex.cfg (failed_wallets (bot (snd run)))
  = [mkFailedEntry
       Ex.C "cc" (Some "socks5://proxy")
       "Баланс: 0.000050 ETH (нужно минимум 0.000100 ETH)"
       INSUFFICIENT_BALANCE] /\
  exists os,
    Forall2 wallet_outcome (wallets Ex.cfg) os /\
    failed_wallets (bot (snd run))
    = map failed_record (filter ends_failed (combine (wallets Ex.cfg) os)) /\
    Forall2 (fun wo e =>
               e_last_status e = terminal_status (snd wo) /\
               e_last_error e = r_message (snd (snd wo)) /\
               exists pre v post,
                 wallets Ex.cfg = pre ++ v :: post /\
                 lower (address v) = lower (address (fst wo)) /\
                 e_address e = address v /\
                 e_private_key e = private_key v /\
                 e_proxy e = proxy v)
            (filter ends_failed (combine (wallets Ex.cfg) os))
            (enrich Ex.cfg (failed_wallets (bot (snd run)))).
Proof.
cbv zeta. split; [reflexivity|]. split; [vm_compute; reflexivity|].
split; [vm_compute; reflexivity|].
assert (E : run Sim.client Ex.cfg (Ex.start Ex.chain)
            = (inr tt, snd (fst (run Sim.client Ex.cfg (Ex.start Ex.chain))),
               snd (run Sim.client Ex.cfg (Ex.start Ex.chain))))
  by (vm_compute; reflexivity).
destruct (failed_wallets_after_run Sim.client Ex.cfg (Ex.start Ex.chain)
            _ _ eq_refl E)
  as (os & t0 & stamp & Hos & _ & Hfl & _ & _ & Hen).
exists os. split; [exact Hos|]. split; [exact Hfl|].
eapply Forall2_impl; [|exact Hen].
intros wo e (H1 & H2 & pre & v & post & H3 & _ & H4 & H5 & H6 & H7 & _).
split; [exact H1|]. split; [exact H2|].
exists pre, v, post. repeat split; assumption.
Defined.

(** C9 on the scenario with [max_retries = 0]. *)
Lemma no_retries_unbound_status_witness :
  max_retries Ex.cfg_no_retry <= 0 /\
  run Sim.client Ex.cfg_no_retry (Ex.start Ex.chain)
  = (inl (mkExn UnboundLocalError
            ("cannot access local variable 'status' where it is not "
               ++ "associated with a value")),
     [], Ex.start Ex.chain).
Proof.
split; [vm_compute; discriminate|].
apply (proj1 (no_retries_unbound_status Sim.client Ex.cfg_no_retry)
             (Ex.start Ex.chain) Ex.wallet_A [Ex.wallet_B; Ex.wallet_C]);
  [vm_compute; discriminate | reflexivity].
Defined.

(** C10 on the scenario: five results, two wallets that end in SUCCESS. *)
Lemma summary_counts_wallets_witness :
  let s := Ex.start Ex.chain in
  let run := run Sim.client Ex.cfg s in
  bot s = new_bot /\
  fst (fst run) = inr tt /\
  List.length (results (bot (snd run))) = 5%nat /\
  successful (summary Ex.cfg (bot (snd run))) = 2 /\
  exists os,
    Forall2 wallet_outcome (wallets Ex.cfg) os /\
    successful (summary Ex.cfg (bot (snd run)))
    = Z.of_nat
        (List.length
           (filter (fun o => status_eqb (terminal_status o) SUCCESS) os)).
Proof.
cbv zeta. split; [reflexivity|]. split; [vm_compute; reflexivity|].
split; [vm_compute; reflexivity|]. split; [vm_compute; reflexivity|].
assert (E : run Sim.client Ex.cfg (Ex.start Ex.chain)
            = (inr tt, snd (fst (run Sim.client Ex.cfg (Ex.start Ex.chain))),
               snd (run Sim.client Ex.cfg (Ex.start Ex.chain))))
  by (vm_compute; reflexivity).
destruct (summary_counts_wallets Sim.client Ex.cfg (Ex.start Ex.chain)
            _ _ eq_refl E)
  as (os & Hos & _ & _ & Hs & _).
exists os. split; assumption.
Defined.

(** ** Binary64 rounding *)

Example float_of_int_rounds :
  float_of_int (2 ^ 53 + 1) = inr (S754_finite false 4503599627370496 1).
Proof. vm_compute. reflexivity. Qed.

(** [10 * 0.7] is [7.0] although the float [0.7] lies below 7/10: the
    bound of the gas policy is one on Python's products. *)
Example mul_10_by_0_7 :
  mul (PyInt 10) (PyFloat (S754_finite false 6305039478318694 (-53)))
  = inr (PyFloat (S754_finite false 7881299347898368 (-50))) /\
  to_int (PyFloat (S754_finite false 7881299347898368 (-50))) = inr 7.
Proof. split; vm_compute; reflexivity. Qed.

Lemma digits2_pos_bounds m :
  2 ^ (Zpos (digits2_pos m) - 1) <= Zpos m < 2 ^ Zpos (digits2_pos m).
Proof.
induction m as [m IH|m IH|]; cbn [digits2_pos].
- rewrite Pos2Z.inj_succ, Z.pow_succ_r by lia.
  replace (Z.succ (Zpos (digits2_pos m)) - 1)
    with (Z.succ (Zpos (digits2_pos m) - 1)) by lia.
  rewrite Z.pow_succ_r by lia. lia.
- rewrite Pos2Z.inj_succ, Z.pow_succ_r by lia.
  replace (Z.succ (Zpos (digits2_pos m)) - 1)
    with (Z.succ (Zpos (digits2_pos m) - 1)) by lia.
  rewrite Z.pow_succ_r by lia. lia.
- cbn. lia.
Qed.

Lemma digits2_pos_log2 m : Zpos (digits2_pos m) = Z.log2 (Zpos m) + 1.
Proof.
pose proof (digits2_pos_bounds m) as H.
assert (Z.log2 (Zpos m) = Zpos (digits2_pos m) - 1); [|lia].
apply Z.log2_unique; [lia|].
replace (Z.succ (Zpos (digits2_pos m) - 1)) with (Zpos (digits2_pos m))
  by lia.
exact H.
Qed.

Lemma iter_pos_nat {A} (f : A -> A) p :
  forall x, iter_pos f p x = Nat.iter (Pos.to_nat p) f x.
Proof.
induction p as [p IH|p IH|]; intros x; cbn [iter_pos].
- rewrite !IH, Pos2Nat.inj_xI.
  replace (S (2 * Pos.to_nat p)) with (Pos.to_nat p + S (Pos.to_nat p))%nat
    by lia.
  rewrite Nat.iter_add, Nat.iter_succ_r. reflexivity.
- rewrite !IH, Pos2Nat.inj_xO.
  replace (2 * Pos.to_nat p)%nat with (Pos.to_nat p + Pos.to_nat p)%nat
    by lia.
  rewrite Nat.iter_add. reflexivity.
- reflexivity.
Qed.

(** One step of the shift keeps track of what was shifted out: [rho] is
    the part of [M] below the current mantissa. *)
Lemma shr_1_step M P mrs :
  0 < P ->
  (0 <= shr_m mrs /\
   exists rho, M = shr_m mrs * P + rho /\ 0 <= rho < P /\
               (shr_r mrs = true <-> P <= 2 * rho) /\
               (shr_s mrs = true <-> rho <> 0 /\ 2 * rho <> P)) ->
  0 <= shr_m (shr_1 mrs) /\
  exists rho, M = shr_m (shr_1 mrs) * (2 * P) + rho /\ 0 <= rho < 2 * P /\
              (shr_r (shr_1 mrs) = true <-> 2 * P <= 2 * rho) /\
              (shr_s (shr_1 mrs) = true <-> rho <> 0 /\ 2 * rho <> 2 * P).
Proof.
intros HP [Hm (rho & HM & Hrho & Hr & Hs)].
destruct mrs as [m r s]. cbn [shr_m shr_r shr_s] in *.
assert (Hrs : (r || s)%bool = true <-> rho <> 0).
{ rewrite orb_true_iff, Hr, Hs. lia. }
destruct m as [|[p|p|]|p]; cbn [shr_1 shr_m shr_r shr_s]; try lia.
- split; [lia|]. exists rho. split; [lia|]. split; [lia|].
  split; [split; [discriminate | lia] | rewrite Hrs; lia].
- split; [lia|]. exists (P + rho). rewrite Pos2Z.inj_xI in HM.
  split; [lia|]. split; [lia|].
  split; [split; [lia | reflexivity] | rewrite Hrs; lia].
- split; [lia|]. exists rho. rewrite Pos2Z.inj_xO in HM.
  split; [lia|]. split; [lia|].
  split; [split; [discriminate | lia] | rewrite Hrs; lia].
- split; [lia|]. exists (P + rho).
  split; [lia|]. split; [lia|].
  split; [split; [lia | reflexivity] | rewrite Hrs; lia].
Qed.

Lemma shr_iter M k :
  0 <= M ->
  let mrs := Nat.iter k shr_1 (Build_shr_record M false false) in
  0 <= shr_m mrs /\
  exists rho, M = shr_m mrs * 2 ^ Z.of_nat k + rho /\
              0 <= rho < 2 ^ Z.of_nat k /\
              (shr_r mrs = true <-> 2 ^ Z.of_nat k <= 2 * rho) /\
              (shr_s mrs = true <-> rho <> 0 /\ 2 * rho <> 2 ^ Z.of_nat k).
Proof.
intros HM. induction k as [|k IH]; cbv zeta.
- cbn. split; [exact HM|]. exists 0.
  repeat split; try lia; try discriminate; intros; lia.
- rewrite Nat.iter_succ, Nat2Z.inj_succ, Z.pow_succ_r by lia.
  apply shr_1_step; [apply Z.pow_pos_nonneg; lia | exact IH].
Qed.

(** Shifting right by [n] and rounding to nearest even is the
    round-half-even quotient by [2^n]. *)
Lemma shr_round M e n :
  0 <= M -> 0 <= n ->
  round_nearest_even
    (shr_m (fst (shr (Build_shr_record M false false) e n)))
    (loc_of_shr_record (fst (shr (Build_shr_record M false false) e n)))
  = div_half_even M (2 ^ n) /\
  snd (shr (Build_shr_record M false false) e n) = e + n.
Proof.
intros HM Hn.
assert (Hgen : forall mrs P,
  0 < P ->
  (0 <= shr_m mrs /\
   exists rho, M = shr_m mrs * P + rho /\ 0 <= rho < P /\
               (shr_r mrs = true <-> P <= 2 * rho) /\
               (shr_s mrs = true <-> rho <> 0 /\ 2 * rho <> P)) ->
  round_nearest_even (shr_m mrs) (loc_of_shr_record mrs)
  = div_half_even M P).
{ intros [m r s] P HP [Hm (rho & HMeq & Hrho & Hr & Hs)].
  cbn [shr_m shr_r shr_s] in *. unfold div_half_even.
  assert (Hq : M / P = m).
  { symmetry. apply (Z.div_unique M P m rho); lia. }
  assert (Hrem : M mod P = rho).
  { symmetry. apply (Z.mod_unique M P m rho); lia. }
  rewrite Hq, Hrem.
  destruct r, s; cbn [loc_of_shr_record round_nearest_even].
  - assert (P <= 2 * rho) by (apply Hr; reflexivity).
    assert (rho <> 0 /\ 2 * rho <> P) by (apply Hs; reflexivity).
    destruct (2 * rho <? P) eqn:E1; [apply Z.ltb_lt in E1; lia|].
    destruct (P <? 2 * rho) eqn:E2; [reflexivity|].
    apply Z.ltb_ge in E2. lia.
  - assert (P <= 2 * rho) by (apply Hr; reflexivity).
    assert (~ (rho <> 0 /\ 2 * rho <> P)) by (rewrite <- Hs; discriminate).
    destruct (2 * rho <? P) eqn:E1; [apply Z.ltb_lt in E1; lia|].
    destruct (P <? 2 * rho) eqn:E2; [apply Z.ltb_lt in E2; lia|].
    reflexivity.
  - assert (~ P <= 2 * rho) by (rewrite <- Hr; discriminate).
    destruct (2 * rho <? P) eqn:E1; [reflexivity|].
    apply Z.ltb_ge in E1. lia.
  - assert (~ P <= 2 * rho) by (rewrite <- Hr; discriminate).
    destruct (2 * rho <? P) eqn:E1; [reflexivity|].
    apply Z.ltb_ge in E1. lia. }
destruct n as [|p|p]; [| |lia]; cbn [shr fst snd].
- split; [|lia]. apply Hgen; [lia|]. cbn. split; [exact HM|].
  exists 0. repeat split; try lia; try discriminate; intros; lia.
- split; [|reflexivity]. rewrite iter_pos_nat. apply Hgen.
  + apply Z.pow_pos_nonneg; lia.
  + rewrite <- (positive_nat_Z p). apply shr_iter. exact HM.
Qed.

Lemma div_half_even_bounds X P :
  0 <= X -> 0 < P -> X / P <= div_half_even X P <= X / P + 1.
Proof.
intros HX HP. unfold div_half_even.
destruct (2 * (X mod P) <? P); [lia|].
destruct (P <? 2 * (X mod P)); [lia|].
destruct (Z.even (X / P)); lia.
Qed.

(** The rounded quotient never passes a whole bound. *)
Lemma div_half_even_le X P K :
  0 < P -> X <= K * P -> div_half_even X P <= K.
Proof.
intros HP HX. unfold div_half_even.
pose proof (Z.div_mod X P ltac:(lia)) as Hdm.
pose proof (Z.mod_pos_bound X P HP) as Hr.
assert (Hq : X / P <= K) by (apply Z.div_le_upper_bound; lia).
destruct (2 * (X mod P) <? P) eqn:E1; [exact Hq|].
apply Z.ltb_ge in E1.
assert (X / P < K) by nia.
destruct (P <? 2 * (X mod P)); [lia|].
destruct (Z.even (X / P)); lia.
Qed.

Lemma fexp_53 x : fexp prec emax x = Z.max (x - 53) (-1074).
Proof. reflexivity. Qed.

(** [binary_round_aux] on a mantissa of at least 53 bits: shift by [n],
    round, and shift once more when the rounding carried into bit 54. *)
Lemma binary_round_aux_spec sx M E :
  53 <= Zpos (digits2_pos M) ->
  let n := Z.max (Zpos (digits2_pos M) - 53) (-1074 - E) in
  let R := div_half_even (Zpos M) (2 ^ n) in
  binary_round_aux prec emax sx (Zpos M) E loc_Exact
  = if R =? 0 then S754_zero sx
    else if R =? 2 ^ 53
         then (if E + n + 1 <=? 971
               then S754_finite sx 4503599627370496 (E + n + 1)
               else S754_infinity sx)
         else (if E + n <=? 971
               then S754_finite sx (Z.to_pos R) (E + n)
               else S754_infinity sx).
Proof.
intros Hd n R.
assert (Hn : 0 <= n) by lia.
assert (HP : 0 < 2 ^ n) by (apply Z.pow_pos_nonneg; lia).
assert (HR : 0 <= R <= 2 ^ 53).
{ split.
  - pose proof (div_half_even_bounds (Zpos M) (2 ^ n) ltac:(lia) HP).
    pose proof (Z.div_pos (Zpos M) (2 ^ n) ltac:(lia) HP). unfold R. lia.
  - apply div_half_even_le; [exact HP|].
    rewrite <- Z.pow_add_r by lia.
    pose proof (digits2_pos_bounds M) as [_ Hlt].
    assert (2 ^ Zpos (digits2_pos M) <= 2 ^ (53 + n))
      by (apply Z.pow_le_mono_r; lia).
    lia. }
unfold binary_round_aux, shr_fexp.
change (shr_record_of_loc (Zpos M) loc_Exact)
  with (Build_shr_record (Zpos M) false false).
replace (fexp prec emax (Zdigits2 (Zpos M) + E) - E) with n
  by (rewrite fexp_53; unfold n; cbn [Zdigits2]; lia).
pose proof (shr_round (Zpos M) E n ltac:(lia) Hn) as [Hround He].
destruct (shr (Build_shr_record (Zpos M) false false) E n) as [mrs e'].
cbn [fst snd] in Hround, He. rewrite Hround. fold R. subst e'.
change (shr_record_of_loc R loc_Exact) with (Build_shr_record R false false).
destruct (R =? 0) eqn:E0.
- apply Z.eqb_eq in E0. rewrite E0.
  replace (fexp prec emax (Zdigits2 0 + (E + n)) - (E + n))
    with (Z.max (-53) (-1074 - (E + n)))
    by (rewrite fexp_53; cbn [Zdigits2]; lia).
  destruct (Z.max (-53) (-1074 - (E + n))) eqn:Em; try lia; reflexivity.
- apply Z.eqb_neq in E0.
  destruct (R =? 2 ^ 53) eqn:E1.
  + apply Z.eqb_eq in E1. rewrite E1.
    replace (fexp prec emax (Zdigits2 (2 ^ 53) + (E + n)) - (E + n)) with 1
      by (rewrite fexp_53; change (Zdigits2 (2 ^ 53)) with 54; lia).
    cbn [shr iter_pos shr_1 shr_m].
    change (2 ^ 53) with 9007199254740992. cbn [shr_1 shr_m].
    replace (E + n + 1) with (E + n + 1) by reflexivity.
    unfold emax, prec. change (1024 - 53) with 971. reflexivity.
  + apply Z.eqb_neq in E1.
    destruct R as [|r|r] eqn:ER; try lia.
    assert (Hdr : Zpos (digits2_pos r) <= 53).
    { pose proof (digits2_pos_bounds r) as [Hlo _].
      assert (2 ^ (Zpos (digits2_pos r) - 1) < 2 ^ 53) by lia.
      apply Z.pow_lt_mono_r_iff in H; lia. }
    replace (fexp prec emax (Zdigits2 (Zpos r) + (E + n)) - (E + n))
      with (Z.max (Zpos (digits2_pos r) - 53) (-1074 - (E + n)))
      by (rewrite fexp_53; cbn [Zdigits2]; lia).
    destruct (Z.max (Zpos (digits2_pos r) - 53) (-1074 - (E + n))) eqn:Em;
      try lia; cbn [shr shr_m Z.to_pos];
      unfold emax, prec; change (1024 - 53) with 971; reflexivity.
Qed.

Lemma div_half_even_scale X P K :
  0 < P -> 0 < K -> div_half_even (X * K) (P * K) = div_half_even X P.
Proof.
intros HP HK. unfold div_half_even.
rewrite Z.div_mul_cancel_r, Z.mul_mod_distr_r by lia.
replace (2 * (X mod P * K) <? P * K) with (2 * (X mod P) <? P).
2:{ destruct (2 * (X mod P) <? P) eqn:E1; symmetry.
    - apply Z.ltb_lt in E1. apply Z.ltb_lt. nia.
    - apply Z.ltb_ge in E1. apply Z.ltb_ge. nia. }
replace (P * K <? 2 * (X mod P * K)) with (P <? 2 * (X mod P)).
2:{ destruct (P <? 2 * (X mod P)) eqn:E1; symmetry.
    - apply Z.ltb_lt in E1. apply Z.ltb_lt. nia.
    - apply Z.ltb_ge in E1. apply Z.ltb_ge. nia. }
reflexivity.
Qed.

Lemma div_half_even_mono X1 X2 P :
  0 < P -> X1 <= X2 -> div_half_even X1 P <= div_half_even X2 P.
Proof.
intros HP HX. unfold div_half_even.
pose proof (Z.div_mod X1 P ltac:(lia)) as H1.
pose proof (Z.div_mod X2 P ltac:(lia)) as H2.
pose proof (Z.mod_pos_bound X1 P HP) as B1.
pose proof (Z.mod_pos_bound X2 P HP) as B2.
pose proof (Z.div_le_mono X1 X2 P HP HX) as Hq.
destruct (Z.eq_dec (X1 / P) (X2 / P)) as [Heq|Hne].
- rewrite <- Heq in *. assert (X1 mod P <= X2 mod P) by lia.
  destruct (2 * (X1 mod P) <? P) eqn:E1;
    destruct (2 * (X2 mod P) <? P) eqn:E2;
    destruct (P <? 2 * (X1 mod P)) eqn:E3;
    destruct (P <? 2 * (X2 mod P)) eqn:E4;
    destruct (Z.even (X1 / P)); lia.
- destruct (2 * (X1 mod P) <? P);
    destruct (2 * (X2 mod P) <? P);
    destruct (P <? 2 * (X1 mod P));
    destruct (P <? 2 * (X2 mod P));
    destruct (Z.even (X1 / P)); destruct (Z.even (X2 / P)); lia.
Qed.

(** Rounding on scaled integers is monotone. *)
Lemma round53_mono c X1 X2 :
  0 < X1 -> X1 <= X2 ->
  0 <= Z.max (Z.log2 X1 + 1 - 53) c ->
  round53 c X1 <= round53 c X2.
Proof.
intros H1 H12 Hs1. unfold round53. cbv zeta.
pose proof (Z.log2_le_mono X1 X2 H12) as Hlog.
set (s1 := Z.max (Z.log2 X1 + 1 - 53) c) in *.
set (s2 := Z.max (Z.log2 X2 + 1 - 53) c).
assert (Hs12 : s1 <= s2) by (unfold s1, s2; lia).
assert (HP1 : 0 < 2 ^ s1) by (apply Z.pow_pos_nonneg; lia).
assert (HP2 : 0 < 2 ^ s2) by (apply Z.pow_pos_nonneg; lia).
destruct (Z.eq_dec s1 s2) as [Heq|Hne].
- rewrite <- Heq. apply Z.mul_le_mono_nonneg_r; [lia|].
  apply div_half_even_mono; assumption.
- assert (Hs2 : s2 = Z.log2 X2 + 1 - 53) by (unfold s1, s2 in *; lia).
  assert (HL : Z.log2 X1 + 1 <= Z.log2 X2) by (unfold s1, s2 in *; lia).
  pose proof (Z.log2_spec X1 H1) as [_ Hup1].
  pose proof (Z.log2_spec X2 ltac:(lia)) as [Hlo2 _].
  pose proof (Z.log2_nonneg X1) as Hn1.
  set (L2 := Z.log2 X2) in *.
  assert (HT : 2 ^ L2 = 2 ^ (L2 - s1) * 2 ^ s1)
    by (rewrite <- Z.pow_add_r by lia; f_equal; lia).
  assert (HT2 : 2 ^ L2 = 2 ^ 52 * 2 ^ s2)
    by (rewrite <- Z.pow_add_r by lia; f_equal; lia).
  assert (HX1 : X1 <= 2 ^ L2).
  { assert (2 ^ Z.succ (Z.log2 X1) <= 2 ^ L2)
      by (apply Z.pow_le_mono_r; lia). lia. }
  apply Z.le_trans with (2 ^ L2).
  + rewrite HT. apply Z.mul_le_mono_nonneg_r; [lia|].
    apply div_half_even_le; [exact HP1 | lia].
  + rewrite HT2. apply Z.mul_le_mono_nonneg_r; [lia|].
    pose proof (div_half_even_bounds X2 (2 ^ s2) ltac:(lia) HP2) as [Hb _].
    apply Z.le_trans with (X2 / 2 ^ s2); [|exact Hb].
    apply Z.div_le_lower_bound; lia.
Qed.

Lemma log2_scaled (M : positive) k :
  0 <= k -> Z.log2 (Zpos M * 2 ^ k) + 1 = Zpos (digits2_pos M) + k.
Proof.
intros Hk. rewrite Z.log2_mul_pow2 by lia.
rewrite digits2_pos_log2. lia.
Qed.

(** The float that [binary_round_aux] returns, as a scaled integer at any
    base [b] below the exponent. *)
Lemma binary_round_aux_value sx M E b :
  53 <= Zpos (digits2_pos M) -> b <= E ->
  match binary_round_aux prec emax sx (Zpos M) E loc_Exact with
  | S754_zero s =>
      s = sx /\ round53 (-1074 - b) (Zpos M * 2 ^ (E - b)) = 0 /\
      Zpos (digits2_pos M) - 53 < -1074 - E
  | S754_finite s m e =>
      s = sx /\ b <= e /\
      Zpos m * 2 ^ (e - b) = round53 (-1074 - b) (Zpos M * 2 ^ (E - b)) /\
      (-1074 - E <= Zpos (digits2_pos M) - 53 -> 2 ^ 52 <= Zpos m)
  | S754_infinity s =>
      s = sx /\
      2 ^ (1024 - b) <= round53 (-1074 - b) (Zpos M * 2 ^ (E - b))
  | S754_nan => False
  end.
Proof.
intros Hd Hb. rewrite (binary_round_aux_spec sx M E Hd). cbv zeta.
set (n := Z.max (Zpos (digits2_pos M) - 53) (-1074 - E)).
set (R := div_half_even (Zpos M) (2 ^ n)).
assert (Hn : 0 <= n) by (unfold n; lia).
assert (HP : 0 < 2 ^ n) by (apply Z.pow_pos_nonneg; lia).
assert (HK : 0 < 2 ^ (E - b)) by (apply Z.pow_pos_nonneg; lia).
assert (Hval : round53 (-1074 - b) (Zpos M * 2 ^ (E - b))
               = R * 2 ^ (E + n - b)).
{ unfold round53. cbv zeta. rewrite log2_scaled by lia.
  replace (Z.max (Zpos (digits2_pos M) + (E - b) - 53) (-1074 - b))
    with (n + (E - b)) by (unfold n; lia).
  rewrite (Z.pow_add_r 2 n (E - b)) by lia.
  rewrite div_half_even_scale by assumption. fold R.
  rewrite <- Z.pow_add_r by lia. do 2 f_equal. lia. }
assert (Hlow : -1074 - E <= Zpos (digits2_pos M) - 53 -> 2 ^ 52 <= R).
{ intros Hn'. assert (n = Zpos (digits2_pos M) - 53) by (unfold n; lia).
  pose proof (div_half_even_bounds (Zpos M) (2 ^ n) ltac:(lia) HP) as [Hlo _].
  apply Z.le_trans with (Zpos M / 2 ^ n); [|exact Hlo].
  apply Z.div_le_lower_bound; [exact HP|].
  rewrite <- Z.pow_add_r by lia.
  pose proof (digits2_pos_bounds M) as [Hm _].
  replace (n + 52) with (Zpos (digits2_pos M) - 1) by lia. exact Hm. }
destruct (R =? 0) eqn:E0.
- apply Z.eqb_eq in E0. split; [reflexivity|]. split.
  + rewrite Hval, E0. reflexivity.
  + destruct (Z_lt_le_dec (Zpos (digits2_pos M) - 53) (-1074 - E))
      as [H|H]; [exact H|].
    specialize (Hlow H). assert (0 < 2 ^ 52) by (apply Z.pow_pos_nonneg; lia).
    lia.
- apply Z.eqb_neq in E0. destruct (R =? 2 ^ 53) eqn:E1.
  + apply Z.eqb_eq in E1.
    destruct (E + n + 1 <=? 971) eqn:Eo.
    2:{ apply Z.leb_gt in Eo. split; [reflexivity|].
        rewrite Hval, E1, <- Z.pow_add_r by lia.
        apply Z.pow_le_mono_r; lia. }
    split; [reflexivity|]. split; [lia|]. split.
    * rewrite Hval, E1.
      replace (E + n + 1 - b) with (1 + (E + n - b)) by lia.
      rewrite (Z.pow_add_r 2 1 (E + n - b)) by lia.
      change (Zpos 4503599627370496) with (2 ^ 52).
      change (2 ^ 53) with (2 ^ 52 * 2 ^ 1). ring.
    * intros _. change (Zpos 4503599627370496) with (2 ^ 52). lia.
  + destruct (E + n <=? 971) eqn:Eo.
    2:{ apply Z.leb_gt in Eo. split; [reflexivity|].
        assert (HR52 : 2 ^ 52 <= R) by (apply Hlow; unfold n in Eo; lia).
        rewrite Hval.
        apply Z.le_trans with (2 ^ 52 * 2 ^ (E + n - b)).
        - rewrite <- Z.pow_add_r by lia. apply Z.pow_le_mono_r; lia.
        - apply Z.mul_le_mono_nonneg_r; [|exact HR52].
          apply Z.pow_nonneg. lia. }
    assert (HRpos : 0 < R).
    { pose proof (div_half_even_bounds (Zpos M) (2 ^ n) ltac:(lia) HP).
      pose proof (Z.div_pos (Zpos M) (2 ^ n) ltac:(lia) HP).
      unfold R in *. lia. }
    rewrite Z2Pos.id by exact HRpos.
    split; [reflexivity|]. split; [lia|]. split; [symmetry; exact Hval|].
    exact Hlow.
Qed.

Lemma iter_xO m k : Zpos (Pos.iter xO m k) = Zpos m * 2 ^ Zpos k.
Proof.
induction k as [|k IH] using Pos.peano_ind.
- cbn [Pos.iter]. rewrite Pos2Z.inj_xO. change (2 ^ 1) with 2. lia.
- rewrite Pos.iter_succ, Pos2Z.inj_xO, IH, Pos2Z.inj_succ, Z.pow_succ_r
    by lia. ring.
Qed.

Lemma shl_align_spec mx ex ex' :
  snd (shl_align mx ex ex') = Z.min ex ex' /\
  Zpos (fst (shl_align mx ex ex'))
  = Zpos mx * 2 ^ (ex - Z.min ex ex').
Proof.
unfold shl_align.
destruct (IntDef.Z.sub ex' ex) as [|d|d] eqn:H; cbn [fst snd].
- replace (Z.min ex ex') with ex by lia. rewrite Z.sub_diag. cbn. lia.
- replace (Z.min ex ex') with ex by lia. rewrite Z.sub_diag. cbn. lia.
- replace (Z.min ex ex') with ex' by lia. split; [reflexivity|].
  rewrite iter_xO. f_equal. f_equal. lia.
Qed.

Lemma digits_of_large m : 2 ^ 52 <= Zpos m -> 53 <= Zpos (digits2_pos m).
Proof.
intros H. pose proof (digits2_pos_bounds m) as [_ Hup].
assert (2 ^ 52 < 2 ^ Zpos (digits2_pos m)) by lia.
apply Z.pow_lt_mono_r_iff in H0; lia.
Qed.

(** [float(a)] for a non-zero [a]: a float of the sign of [a] with a full
    mantissa, whose value is the rounding of [|a|]. *)
Lemma binary_round_int sx pa :
  match binary_round prec emax sx pa 0 with
  | S754_finite s m e =>
      s = sx /\ -52 <= e /\ 2 ^ 52 <= Zpos m /\
      forall b, b <= -52 ->
                Zpos m * 2 ^ (e - b)
                = round53 (-1074 - b) (Zpos pa * 2 ^ (- b))
  | S754_infinity s =>
      s = sx /\
      forall b, b <= -52 ->
                2 ^ (1024 - b) <= round53 (-1074 - b) (Zpos pa * 2 ^ (- b))
  | _ => False
  end.
Proof.
unfold binary_round.
pose proof (shl_align_spec pa 0
              (fexp prec emax (Zpos (digits2_pos pa) + 0))) as [He Hm].
destruct (shl_align pa 0 (fexp prec emax (Zpos (digits2_pos pa) + 0)))
  as [mz ez]. cbn [fst snd] in He, Hm.
rewrite fexp_53 in He, Hm.
pose proof (digits2_pos_bounds pa) as [Hlo Hup].
assert (Hez : -52 <= ez <= 0) by lia.
assert (Hmz : 2 ^ 52 <= Zpos mz).
{ rewrite Hm.
  destruct (Z_le_gt_dec 53 (Zpos (digits2_pos pa))) as [Hd|Hd].
  - replace (Z.min 0 (Z.max (Zpos (digits2_pos pa) + 0 - 53) (-1074)))
      with 0 by lia.
    cbn. assert (2 ^ 52 <= 2 ^ (Zpos (digits2_pos pa) - 1))
      by (apply Z.pow_le_mono_r; lia). lia.
  - replace (0 - Z.min 0 (Z.max (Zpos (digits2_pos pa) + 0 - 53) (-1074)))
      with (53 - Zpos (digits2_pos pa)) by lia.
    replace 52 with ((Zpos (digits2_pos pa) - 1)
                     + (53 - Zpos (digits2_pos pa))) by lia.
    rewrite Z.pow_add_r by lia.
    apply Z.mul_le_mono_nonneg_r; [|exact Hlo].
    apply Z.pow_nonneg. lia. }
pose proof (digits_of_large mz Hmz) as Hdz.
assert (Hscale : forall b, b <= -52 ->
  Zpos mz * 2 ^ (ez - b) = Zpos pa * 2 ^ (- b)).
{ intros b Hb. rewrite Hm.
  rewrite <- Z.mul_assoc, <- Z.pow_add_r by lia.
  rewrite He. do 2 f_equal. lia. }
generalize (binary_round_aux_value sx mz ez).
destruct (binary_round_aux prec emax sx (Zpos mz) ez loc_Exact)
  as [s|s| |s m e]; intros Hval.
- destruct (Hval ez Hdz ltac:(lia)) as (_ & _ & H). lia.
- split; [apply (Hval ez Hdz ltac:(lia))|].
  intros b Hb. rewrite <- (Hscale b Hb). apply (Hval b Hdz ltac:(lia)).
- exact (Hval ez Hdz ltac:(lia)).
- destruct (Hval ez Hdz ltac:(lia)) as (Hs & Hee & _ & Hlow).
  split; [exact Hs|]. split; [lia|]. split; [apply Hlow; lia|].
  intros b Hb. destruct (Hval b Hdz ltac:(lia)) as (_ & _ & Hv & _).
  rewrite Hv, (Hscale b Hb). reflexivity.
Qed.

(** The product of a float with a full mantissa and a positive float. *)
Lemma SFmul_finite sx ma ea mm em :
  2 ^ 52 <= Zpos ma ->
  match SFmul prec emax (S754_finite sx ma ea) (S754_finite false mm em) with
  | S754_zero s =>
      s = sx /\
      forall b, b <= ea + em ->
                round53 (-1074 - b)
                        (Zpos ma * 2 ^ (ea + em - b) * Zpos mm) = 0
  | S754_finite s m e =>
      s = sx /\
      forall b, b <= ea + em ->
                b <= e /\
                Zpos m * 2 ^ (e - b)
                = round53 (-1074 - b)
                          (Zpos ma * 2 ^ (ea + em - b) * Zpos mm)
  | S754_infinity s =>
      s = sx /\
      forall b, b <= ea + em ->
                2 ^ (1024 - b)
                <= round53 (-1074 - b)
                           (Zpos ma * 2 ^ (ea + em - b) * Zpos mm)
  | S754_nan => False
  end.
Proof.
intros Hma. cbn [SFmul]. rewrite xorb_false_r.
assert (Hd : 53 <= Zpos (digits2_pos (ma * mm))).
{ apply digits_of_large. rewrite Pos2Z.inj_mul. nia. }
generalize (binary_round_aux_value sx (ma * mm) (ea + em)).
assert (Hre : forall b,
  Zpos (ma * mm) * 2 ^ (ea + em - b)
  = Zpos ma * 2 ^ (ea + em - b) * Zpos mm)
  by (intros b; rewrite Pos2Z.inj_mul; ring).
destruct (binary_round_aux prec emax sx (Zpos (ma * mm)) (ea + em) loc_Exact)
  as [s|s| |s m e]; intros Hval.
- split; [apply (Hval (ea + em) Hd ltac:(lia))|].
  intros b Hb. rewrite <- Hre. apply (Hval b Hd Hb).
- split; [apply (Hval (ea + em) Hd ltac:(lia))|].
  intros b Hb. rewrite <- Hre. apply (Hval b Hd Hb).
- exact (Hval (ea + em) Hd ltac:(lia)).
- split; [apply (Hval (ea + em) Hd ltac:(lia))|].
  intros b Hb. rewrite <- Hre.
  destruct (Hval b Hd Hb) as (_ & He & Hv & _). auto.
Qed.

Lemma trunc_scaled m e b :
  b <= 0 -> b <= e ->
  0 <= trunc_finite false m e /\
  trunc_finite false m e * 2 ^ (- b) <= Zpos m * 2 ^ (e - b).
Proof.
intros Hb He. unfold trunc_finite.
destruct (Z_le_gt_dec 0 e) as [H|H].
- rewrite Z.shiftl_mul_pow2 by lia.
  assert (0 < 2 ^ e) by (apply Z.pow_pos_nonneg; lia).
  split; [lia|].
  rewrite <- Z.mul_assoc, <- Z.pow_add_r by lia.
  replace (e + - b) with (e - b) by lia. lia.
- rewrite Z.shiftl_div_pow2 by lia.
  assert (HP : 0 < 2 ^ (- e)) by (apply Z.pow_pos_nonneg; lia).
  assert (HQ : 0 < 2 ^ (e - b)) by (apply Z.pow_pos_nonneg; lia).
  pose proof (Z.div_pos (Zpos m) (2 ^ (- e)) ltac:(lia) HP) as Hg.
  split; [exact Hg|].
  replace (- b) with (- e + (e - b)) by lia.
  rewrite Z.pow_add_r by lia.
  pose proof (Z.mul_div_le (Zpos m) (2 ^ (- e)) HP). nia.
Qed.

Lemma int_le_scaled g m e b :
  b <= 0 -> b <= e ->
  g * 2 ^ (- b) <= Zpos m * 2 ^ (e - b) ->
  int_le g (PyFloat (S754_finite false m e)) = true.
Proof.
intros Hb He H. cbn [int_le].
destruct (0 <=? e) eqn:E0.
- apply Z.leb_le in E0. apply Z.leb_le.
  assert (HP : 0 < 2 ^ (- b)) by (apply Z.pow_pos_nonneg; lia).
  replace (e - b) with (e + - b) in H by lia.
  rewrite Z.pow_add_r in H by lia. nia.
- apply Z.leb_gt in E0. apply Z.leb_le.
  assert (HQ : 0 < 2 ^ (e - b)) by (apply Z.pow_pos_nonneg; lia).
  replace (- b) with (- e + (e - b)) in H by lia.
  rewrite Z.pow_add_r in H by lia. nia.
Qed.

Lemma int_le_nonpos g f :
  g <= 0 ->
  match f with
  | S754_zero _ | S754_infinity false | S754_finite false _ _ => True
  | _ => False
  end ->
  int_le g (PyFloat f) = true.
Proof.
intros Hg. destruct f as [s|[|]| |[|] m e]; try contradiction; intros _;
  cbn [int_le negb]; try reflexivity.
- apply Z.leb_le. exact Hg.
- destruct (0 <=? e) eqn:E0; apply Z.leb_le.
  + apply Z.leb_le in E0.
    assert (0 < 2 ^ e) by (apply Z.pow_pos_nonneg; lia). nia.
  + apply Z.leb_gt in E0.
    assert (0 < 2 ^ (- e)) by (apply Z.pow_pos_nonneg; lia). nia.
Qed.

Lemma float_of_int_cases a fa :
  float_of_int a = inr fa ->
  match a with
  | 0 => fa = S754_zero false
  | Zpos pa | Zneg pa =>
      exists m e,
        fa = S754_finite (a <? 0) m e /\ -52 <= e /\ 2 ^ 52 <= Zpos m /\
        forall b, b <= -52 ->
                  Zpos m * 2 ^ (e - b)
                  = round53 (-1074 - b) (Zpos pa * 2 ^ (- b))
  end.
Proof.
unfold float_of_int, binary_normalize.
destruct a as [|pa|pa].
- intros E. inversion E. reflexivity.
- generalize (binary_round_int false pa).
  destruct (binary_round prec emax false pa 0) as [s|s| |s m e];
    intros H E; try contradiction; try discriminate.
  inversion E; subst fa. destruct H as (-> & He & Hm & Hv).
  exists m, e. auto.
- generalize (binary_round_int true pa).
  destruct (binary_round prec emax true pa 0) as [s|s| |s m e];
    intros H E; try contradiction; try discriminate.
  inversion E; subst fa. destruct H as (-> & He & Hm & Hv).
  exists m, e. auto.
Qed.

(** What [0 <= m] says of a float. *)
Lemma int_le_0_float f :
  int_le 0 (PyFloat f) = true ->
  match f with
  | S754_zero _ | S754_infinity false | S754_finite false _ _ => True
  | _ => False
  end.
Proof.
destruct f as [s|[|]| |[|] m e]; cbn [int_le negb]; try discriminate; auto.
destruct (0 <=? e) eqn:E0; intros H; apply Z.leb_le in H.
- apply Z.leb_le in E0.
  assert (0 < 2 ^ e) by (apply Z.pow_pos_nonneg; lia). nia.
- lia.
Qed.

(** [int(a * f)] against [c * f] for a positive float [f] and
    [0 < a <= c]. *)
Lemma mul_trunc_mono_pos a c mm em g cm :
  0 < a -> a <= c ->
  and_then (mul (PyInt a) (PyFloat (S754_finite false mm em))) to_int
  = inr g ->
  mul (PyInt c) (PyFloat (S754_finite false mm em)) = inr cm ->
  int_le g cm = true.
Proof.
intros Ha Hac. cbn [mul].
destruct (float_of_int a) as [ea|fa] eqn:Efa; [discriminate|].
destruct (float_of_int c) as [ec|fc] eqn:Efc; [discriminate|].
apply float_of_int_cases in Efa, Efc.
destruct a as [|pa|pa]; try lia. destruct c as [|pc|pc]; try lia.
destruct Efa as (ma & xa & -> & Hxa & Hma & Hva).
destruct Efc as (mc & xc & -> & Hxc & Hmc & Hvc).
change (Zpos pa <? 0) with false. change (Zpos pc <? 0) with false.
pose proof (SFmul_finite false ma xa mm em Hma) as H1.
pose proof (SFmul_finite false mc xc mm em Hmc) as H2.
set (f1 := SFmul prec emax (S754_finite false ma xa)
                 (S754_finite false mm em)) in *.
set (f2 := SFmul prec emax (S754_finite false mc xc)
                 (S754_finite false mm em)) in *.
clearbody f1 f2.
cbn [and_then]. intros Hg Hcm. inversion Hcm; subst cm. clear Hcm.
set (b1 := Z.min (-52) (- em)).
set (b2 := b1 + em).
assert (Hb1 : b1 <= -52) by (unfold b1; lia).
assert (Hb2 : b2 <= 0) by (unfold b2, b1; lia).
specialize (Hva b1 Hb1). specialize (Hvc b1 Hb1).
assert (HP : 0 < 2 ^ (- b1)) by (apply Z.pow_pos_nonneg; lia).
assert (HW : Zpos ma * 2 ^ (xa - b1) <= Zpos mc * 2 ^ (xc - b1)).
{ rewrite Hva, Hvc. apply round53_mono; [lia | nia |].
  rewrite Z.log2_mul_pow2 by lia. pose proof (Z.log2_nonneg (Zpos pa)). lia. }
assert (HWa : 2 ^ 52 <= Zpos ma * 2 ^ (xa - b1)).
{ assert (0 < 2 ^ (xa - b1)) by (apply Z.pow_pos_nonneg; lia). nia. }
destruct f1 as [s1|s1| |s1 m1 e1]; try contradiction;
  cbn [to_int] in Hg; try discriminate; inversion Hg; subst g; clear Hg.
- (* the smaller product rounds to zero *)
  apply int_le_nonpos; [lia|].
  destruct f2 as [s2|s2| |s2 m2 e2]; try contradiction; auto.
  + destruct H2 as [-> _]. exact I.
  + destruct H2 as [-> _]. exact I.
- destruct H1 as [-> H1].
  destruct (H1 b2 ltac:(unfold b2; lia)) as [He1 Hv1].
  replace (xa + em - b2) with (xa - b1) in Hv1 by (unfold b2; lia).
  assert (Hmono :
    round53 (-1074 - b2) (Zpos ma * 2 ^ (xa - b1) * Zpos mm)
    <= round53 (-1074 - b2) (Zpos mc * 2 ^ (xc - b1) * Zpos mm)).
  { apply round53_mono; [nia | nia |].
    assert (52 <= Z.log2 (Zpos ma * 2 ^ (xa - b1) * Zpos mm)).
    { apply Z.log2_le_pow2; nia. } lia. }
  destruct f2 as [s2|s2| |s2 m2 e2]; try contradiction.
  + (* the larger product cannot round to zero *)
    exfalso. destruct H2 as [_ H2].
    specialize (H2 b2 ltac:(unfold b2; lia)).
    replace (xc + em - b2) with (xc - b1) in H2 by (unfold b2; lia).
    assert (0 < Zpos m1 * 2 ^ (e1 - b2)).
    { assert (0 < 2 ^ (e1 - b2)) by (apply Z.pow_pos_nonneg; lia). nia. }
    lia.
  + destruct H2 as [-> _]. reflexivity.
  + destruct H2 as [-> H2].
    destruct (H2 b2 ltac:(unfold b2; lia)) as [He2 Hv2].
    replace (xc + em - b2) with (xc - b1) in Hv2 by (unfold b2; lia).
    pose proof (trunc_scaled m1 e1 b2 Hb2 He1) as [_ Ht].
    apply (int_le_scaled _ m2 e2 b2 Hb2 He2). lia.
Qed.

Lemma mul_trunc_nonpos a mm em g :
  a <= 0 ->
  and_then (mul (PyInt a) (PyFloat (S754_finite false mm em))) to_int
  = inr g ->
  g <= 0.
Proof.
intros Ha. cbn [mul].
destruct (float_of_int a) as [ea|fa] eqn:Efa; [discriminate|].
apply float_of_int_cases in Efa.
destruct a as [|pa|pa]; try lia.
- subst fa. cbn. intros E. inversion E. lia.
- destruct Efa as (ma & xa & -> & _ & Hma & _).
  change (Zneg pa <? 0) with true.
  pose proof (SFmul_finite true ma xa mm em Hma) as H1.
  set (f1 := SFmul prec emax (S754_finite true ma xa)
                   (S754_finite false mm em)) in *.
  clearbody f1. cbn [and_then].
  destruct f1 as [s1|s1| |s1 m1 e1]; try contradiction;
    cbn [to_int]; intros E; try discriminate; inversion E; subst g.
  + lia.
  + destruct H1 as [-> _]. unfold trunc_finite.
    pose proof (Z.shiftl_nonneg (Zpos m1) e1). lia.
Qed.

Lemma mul_nonneg_shape c mm em cm :
  0 <= c ->
  mul (PyInt c) (PyFloat (S754_finite false mm em)) = inr cm ->
  exists f2,
    cm = PyFloat f2 /\
    match f2 with
    | S754_zero _ | S754_infinity false | S754_finite false _ _ => True
    | _ => False
    end.
Proof.
intros Hc. cbn [mul].
destruct (float_of_int c) as [ec|fc] eqn:Efc; [discriminate|].
apply float_of_int_cases in Efc.
destruct c as [|pc|pc]; try lia.
- subst fc. intros E. inversion E. eexists. split; [reflexivity|].
  cbn. exact I.
- destruct Efc as (mc & xc & -> & _ & Hmc & _).
  change (Zpos pc <? 0) with false.
  pose proof (SFmul_finite false mc xc mm em Hmc) as H2.
  set (f2 := SFmul prec emax (S754_finite false mc xc)
                   (S754_finite false mm em)) in *.
  clearbody f2. intros E. inversion E. exists f2. split; [reflexivity|].
  destruct f2 as [s2|s2| |s2 m2 e2]; try contradiction; auto.
  + destruct H2 as [-> _]. exact I.
  + destruct H2 as [-> _]. exact I.
Qed.

(** [int(a * m) <= c * m] whenever [a <= c], [0 <= c] and [0 <= m], the
    products being Python's. *)
Lemma mul_trunc_mono a c m g cm :
  0 <= c -> a <= c -> int_le 0 m = true ->
  and_then (mul (PyInt a) m) to_int = inr g ->
  mul (PyInt c) m = inr cm ->
  int_le g cm = true.
Proof.
intros Hc Hac Hm.
destruct m as [n|f].
- cbn. intros E1 E2. inversion E1; inversion E2; subst.
  cbn in Hm. apply Z.leb_le in Hm. apply Z.leb_le. nia.
- apply int_le_0_float in Hm.
  destruct f as [s|[|]| |[|] mm em]; try contradiction.
  + (* times zero *)
    cbn [mul].
    destruct (float_of_int a) as [ea|fa] eqn:Efa; [discriminate|].
    destruct (float_of_int c) as [ec|fc] eqn:Efc; [discriminate|].
    apply float_of_int_cases in Efa, Efc.
    assert (Hfa : exists s', SFmul prec emax fa (S754_zero s) = S754_zero s').
    { destruct a; [subst fa|destruct Efa as (? & ? & -> & _)
                  |destruct Efa as (? & ? & -> & _)]; cbn; eauto. }
    assert (Hfc : exists s', SFmul prec emax fc (S754_zero s) = S754_zero s').
    { destruct c; [subst fc|destruct Efc as (? & ? & -> & _)
                  |destruct Efc as (? & ? & -> & _)]; cbn; eauto. }
    destruct Hfa as [sa ->]. destruct Hfc as [sc ->].
    cbn. intros E1 E2. inversion E1; inversion E2; subst. reflexivity.
  + (* times infinity: [int] raises *)
    cbn [mul]. destruct (float_of_int a) as [ea|fa]; [discriminate|].
    destruct fa as [?|?| |? ? ?]; cbn; discriminate.
  + destruct (Z_lt_le_dec 0 a) as [Ha|Ha].
    * apply mul_trunc_mono_pos; assumption.
    * intros E1 E2.
      pose proof (mul_trunc_nonpos a mm em g Ha E1) as Hg.
      destruct (mul_nonneg_shape c mm em cm Hc E2) as (f2 & -> & Hf2).
      apply int_le_nonpos; assumption.
Qed.

Section GasPolicy.
Context {World : Type}.
Variable w3 : Web3 World.
Variable config : Config.

(** The price handed to [build_transaction] is the effective price of the
    gas price read in the same attempt. *)
Lemma build_transaction_price wallet_data s r t s' :
  send_gm_transaction w3 config wallet_data s = (r, t, s') ->
  forall params ans,
    In (EvBuildTransaction params ans) t ->
    exists network ceiling,
      In (EvGasPrice (inr network)) t /\
      to_wei w3 (match max_gas_price_gwei config with
                 | Some c => c
                 | None => PyInt 50
                 end) gwei = inr ceiling /\
      effective_gas_price network ceiling
                          (match gas_price_multiplier config with
                           | Some m => m
                           | None => PyFloat f_1_1
                           end)
      = inr (p_gasPrice params).
Proof.
intros E. pattern r, t, s'. eapply wp_run; [clear E|exact E].
unfold send_gm_transaction, send_gm_body, check_balance, estimate_gas,
  check_can_gm.
repeat wp_step; cbn [app]; intros params ans Hin;
  in_cases; try discriminate; inversion Hin; subst; clear Hin;
  cbn [p_gasPrice];
  match goal with
  | Hg : gas_price w3 _ = (inr ?g, _), Hc : to_wei w3 _ _ = inr ?c |- _ =>
      exists g, c
  end;
  (split; [cbn; auto 20 | split; first [assumption | reflexivity]]).
Qed.

End GasPolicy.

(** C2, as amended. The effective gas price is [int(min(p, c) * m)] in
    Python's arithmetic; it is 44 Gwei for 40 Gwei under a ceiling of 50
    with multiplier 1.1, and 55 Gwei for 60 Gwei; for a ceiling [c >= 0]
    and a multiplier [m >= 0] it never exceeds [c * m]; and it is the
    price of every transaction that an attempt builds. *)
Theorem effective_gas_price_policy :
  (forall p c m,
      effective_gas_price p c m
      = and_then (mul (PyInt (Z.min p c)) m) to_int) /\
  effective_gas_price 40000000000 50000000000 (PyFloat f_1_1)
  = inr 44000000000 /\
  effective_gas_price 60000000000 50000000000 (PyFloat f_1_1)
  = inr 55000000000 /\
  (forall p c m g cm,
      0 <= c -> int_le 0 m = true ->
      effective_gas_price p c m = inr g ->
      mul (PyInt c) m = inr cm ->
      int_le g cm = true) /\
  (forall World (w3 : Web3 World) config wallet_data s r t s',
      send_gm_transaction w3 config wallet_data s = (r, t, s') ->
      forall params ans,
        In (EvBuildTransaction params ans) t ->
        exists network ceiling,
          In (EvGasPrice (inr network)) t /\
          to_wei w3 (match max_gas_price_gwei config with
                     | Some c => c
                     | None => PyInt 50
                     end) gwei = inr ceiling /\
          effective_gas_price network ceiling
                              (match gas_price_multiplier config with
                               | Some m => m
                               | None => PyFloat f_1_1
                               end)
          = inr (p_gasPrice params)).
Proof.
assert (Hmin : forall p c m,
  effective_gas_price p c m = and_then (mul (PyInt (Z.min p c)) m) to_int).
{ intros p c m. unfold effective_gas_price.
  destruct (p >? c) eqn:E.
  - rewrite Z.min_r; [reflexivity|]. apply Z.gtb_lt in E. lia.
  - rewrite Z.min_l; [reflexivity|].
    rewrite Z.gtb_ltb in E. apply Z.ltb_ge in E. exact E. }
split; [exact Hmin|].
split; [vm_compute; reflexivity|]. split; [vm_compute; reflexivity|].
split.
- intros p c m g cm Hc Hm Hg Hcm. rewrite Hmin in Hg.
  apply (mul_trunc_mono (Z.min p c) c m g cm); try assumption. lia.
- intros World w3 config wallet_data s r t s' E.
  exact (build_transaction_price w3 config wallet_data s r t s' E).
Qed.

(** C2 at 40 Gwei under a ceiling of 50 Gwei. *)
Lemma effective_gas_price_policy_witness :
  0 <= 50000000000 /\ int_le 0 (PyFloat f_1_1) = true /\
  effective_gas_price 40000000000 50000000000 (PyFloat f_1_1)
  = inr 44000000000 /\
  exists cm,
    mul (PyInt 50000000000) (PyFloat f_1_1) = inr cm /\
    int_le 44000000000 cm = true.
Proof.
split; [lia|]. split; [reflexivity|]. split; [vm_compute; reflexivity|].
destruct (mul (PyInt 50000000000) (PyFloat f_1_1)) as [e|cm] eqn:E;
  [vm_compute in E; discriminate|].
exists cm. split; [reflexivity|].
destruct effective_gas_price_policy as (_ & _ & _ & H & _).
apply (H 40000000000 50000000000 (PyFloat f_1_1) 44000000000 cm);
  [lia | reflexivity | vm_compute; reflexivity | exact E].
Defined.

(** C2 as stated fails for a negative multiplier: with [m = -0.5], a
    ceiling of one gwei and a network price of one wei the transaction is
    built with price [int(-0.5) = 0], above [c * m = -500000000.0]. *)
Lemma effective_gas_price_above_bound :
  effective_gas_price 1 1000000000 (PyFloat Ex.minus_half) = inr 0 /\
  (exists cm,
      mul (PyInt 1000000000) (PyFloat Ex.minus_half) = inr cm /\
      int_le (-500000000) cm = true /\
      int_le 0 cm = false) /\
  In (EvBuildTransaction
        (mkTxParams Ex.A 100000 0 7 INK_CHAIN_ID)
        (inr (mkTransaction Ex.A 100000 0 7 INK_CHAIN_ID
                            "gm-contract" "gm()" 0)))
     (snd (fst (send_gm_transaction Sim.client Ex.cfg_negative Ex.wallet_A
                                    (Ex.start Ex.chain_cheap)))).
Proof.
split; [vm_compute; reflexivity|]. split.
- eexists. split; [vm_compute; reflexivity|].
  split; vm_compute; reflexivity.
- find_in.
Qed.

(** ** The 20% margin *)

Lemma div_half_even_exact K P : 0 < P -> div_half_even (K * P) P = K.
Proof.
intros HP. unfold div_half_even.
rewrite Z.div_mul, Z.mod_mul by lia.
destruct (2 * 0 <? P) eqn:E; [reflexivity|]. apply Z.ltb_ge in E. lia.
Qed.

(** The rounded quotient is within half a unit of the exact one. *)
Lemma div_half_even_near X P :
  0 < P ->
  2 * X - P <= 2 * (div_half_even X P * P) <= 2 * X + P.
Proof.
intros HP. unfold div_half_even.
pose proof (Z.div_mod X P ltac:(lia)) as Hdm.
pose proof (Z.mod_pos_bound X P HP) as Hr.
destruct (2 * (X mod P) <? P) eqn:E1.
- apply Z.ltb_lt in E1. nia.
- apply Z.ltb_ge in E1. destruct (P <? 2 * (X mod P)) eqn:E2.
  + apply Z.ltb_lt in E2. nia.
  + apply Z.ltb_ge in E2. destruct (Z.even (X / P)); nia.
Qed.

Lemma trunc_scaled_upper m e b :
  b <= 0 -> b <= e ->
  Zpos m * 2 ^ (e - b) < (trunc_finite false m e + 1) * 2 ^ (- b).
Proof.
intros Hb He. unfold trunc_finite.
destruct (Z_le_gt_dec 0 e) as [H|H].
- rewrite Z.shiftl_mul_pow2 by lia.
  assert (0 < 2 ^ e) by (apply Z.pow_pos_nonneg; lia).
  assert (0 < 2 ^ (- b)) by (apply Z.pow_pos_nonneg; lia).
  replace (e - b) with (e + - b) by lia. rewrite Z.pow_add_r by lia. nia.
- rewrite Z.shiftl_div_pow2 by lia.
  assert (HP : 0 < 2 ^ (- e)) by (apply Z.pow_pos_nonneg; lia).
  assert (HQ : 0 < 2 ^ (e - b)) by (apply Z.pow_pos_nonneg; lia).
  replace (- b) with (- e + (e - b)) by lia.
  rewrite Z.pow_add_r by lia.
  pose proof (Z.div_mod (Zpos m) (2 ^ (- e)) ltac:(lia)) as Hdm.
  pose proof (Z.mod_pos_bound (Zpos m) (2 ^ (- e)) HP) as Hr.
  nia.
Qed.

(** Integers below [2^53] convert to [float] without error. *)
Lemma float_of_int_exact a :
  0 < a < 2 ^ 53 ->
  exists m e,
    float_of_int a = inr (S754_finite false m e) /\
    -52 <= e /\ 2 ^ 52 <= Zpos m /\
    Zpos m * 2 ^ (e + 52) = a * 2 ^ 52.
Proof.
intros Ha.
assert (Hround : round53 (-1074 - -52) (a * 2 ^ (- -52)) = a * 2 ^ 52).
{ unfold round53. cbv zeta. change (- -52) with 52.
  rewrite Z.log2_mul_pow2 by lia.
  pose proof (Z.log2_nonneg a) as HL0.
  assert (HL : Z.log2 a < 53) by (apply Z.log2_lt_pow2; lia).
  replace (Z.max (52 + Z.log2 a + 1 - 53) (-1074 - -52)) with (Z.log2 a)
    by lia.
  replace (a * 2 ^ 52) with (a * 2 ^ (52 - Z.log2 a) * 2 ^ Z.log2 a).
  2:{ rewrite <- Z.mul_assoc, <- Z.pow_add_r by lia. do 2 f_equal. lia. }
  rewrite div_half_even_exact by (apply Z.pow_pos_nonneg; lia).
  reflexivity. }
unfold float_of_int, binary_normalize.
destruct a as [|pa|pa]; try lia.
generalize (binary_round_int false pa).
destruct (binary_round prec emax false pa 0) as [s|s| |s m e]; intros H;
  try contradiction.
- exfalso. destruct H as [_ H]. specialize (H (-52) ltac:(lia)).
  rewrite Hround in H.
  assert (2 ^ 105 <= 2 ^ (1024 - -52)) by (apply Z.pow_le_mono_r; lia).
  assert (Zpos pa * 2 ^ 52 < 2 ^ 105).
  { change (2 ^ 105) with (2 ^ 53 * 2 ^ 52).
    apply Z.mul_lt_mono_pos_r; lia. }
  lia.
- destruct H as (-> & He & Hm & Hv). exists m, e.
  split; [reflexivity|]. split; [exact He|]. split; [exact Hm|].
  specialize (Hv (-52) ltac:(lia)). rewrite Hround in Hv.
  replace (e + 52) with (e - -52) by lia. exact Hv.
Qed.

(** [int(est * 1.2)] is the exact [floor(6 * est / 5)] for every estimate
    below [2^50]. *)
Lemma margin_exact est :
  0 <= est < 2 ^ 50 ->
  and_then (mul (PyInt est) (PyFloat f_1_2)) to_int = inr (6 * est / 5).
Proof.
intros Hest.
destruct (Z.eq_dec est 0) as [->|Hne]; [reflexivity|].
destruct (float_of_int_exact est) as (ma & ea & Efa & Hea & Hma & Hva).
{ assert (2 ^ 50 < 2 ^ 53) by (apply Z.pow_lt_mono_r; lia). lia. }
unfold f_1_2. cbn [mul]. rewrite Efa.
pose proof (SFmul_finite false ma ea 5404319552844595 (-52) Hma) as Hf.
set (f := SFmul prec emax (S754_finite false ma ea)
                (S754_finite false 5404319552844595 (-52))) in *.
clearbody f. cbn [and_then].
set (q := 6 * est / 5).
assert (Hq : 5 * q <= 6 * est <= 5 * q + 4).
{ pose proof (Z.div_mod (6 * est) 5 ltac:(lia)).
  pose proof (Z.mod_pos_bound (6 * est) 5 ltac:(lia)). unfold q. lia. }
set (X := Zpos ma * 2 ^ (ea + -52 - -104) * 5404319552844595).
assert (HX : X = est * 24338891524382003608016776069120).
{ unfold X. replace (ea + -52 - -104) with (ea + 52) by lia.
  rewrite Hva. change (2 ^ 52) with 4503599627370496. lia. }
assert (Hbound :
  q * 2 ^ 104 <= round53 (-1074 - -104) X < (q + 1) * 2 ^ 104).
{ unfold round53. cbv zeta.
  assert (H50 : 2 ^ 50 = 1125899906842624) by reflexivity.
  assert (HXlo : 2 ^ 104 <= X)
    by (rewrite HX; change (2 ^ 104) with 20282409603651670423947251286016;
        lia).
  assert (HXhi : X < 2 ^ 155)
    by (rewrite HX;
        change (2 ^ 155)
          with 45671926166590716193865151022383844364247891968; lia).
  assert (HL1 : 104 <= Z.log2 X) by (apply Z.log2_le_pow2; lia).
  assert (HL2 : Z.log2 X < 155) by (apply Z.log2_lt_pow2; lia).
  replace (Z.max (Z.log2 X + 1 - 53) (-1074 - -104))
    with (Z.log2 X - 52) by lia.
  set (s := Z.log2 X - 52).
  assert (HP : 0 < 2 ^ s) by (apply Z.pow_pos_nonneg; lia).
  assert (HP102 : 2 ^ s <= 2 ^ 102) by (apply Z.pow_le_mono_r; lia).
  assert (HPX : X < 2 ^ s * 2 ^ 53).
  { rewrite <- Z.pow_add_r by lia.
    replace (s + 53) with (Z.succ (Z.log2 X)) by lia.
    apply Z.log2_spec. lia. }
  assert (HB : 2 ^ 104 = 2 ^ (104 - s) * 2 ^ s)
    by (rewrite <- Z.pow_add_r by lia; f_equal; lia).
  assert (HK : 0 < 2 ^ (104 - s)) by (apply Z.pow_pos_nonneg; lia).
  pose proof (div_half_even_near X (2 ^ s) HP) as [Hlo Hhi].
  set (D := div_half_even X (2 ^ s)) in *.
  set (P := 2 ^ s) in *. set (K := 2 ^ (104 - s)) in *.
  change (2 ^ 102) with 5070602400912917605986812821504 in HP102.
  change (2 ^ 53) with 9007199254740992 in HPX.
  change (2 ^ 104) with 20282409603651670423947251286016 in *.
  split.
  - destruct (Z_lt_le_dec D (q * K)) as [Hlt|Hge].
    + exfalso.
      assert ((D + 1) * P <= q * K * P)
        by (apply Z.mul_le_mono_nonneg_r; lia).
      assert (q * K * P = q * 20282409603651670423947251286016)
        by (rewrite <- Z.mul_assoc, <- HB; reflexivity).
      lia.
    + rewrite HB, Z.mul_assoc.
      apply Z.mul_le_mono_nonneg_r; lia.
  - lia. }
destruct f as [s|s| |s m e]; try contradiction.
- exfalso. destruct Hf as [_ Hf]. specialize (Hf (-104) ltac:(lia)).
  fold X in Hf. assert (0 < 2 ^ 104) by (apply Z.pow_pos_nonneg; lia).
  assert (1 <= q) by lia. nia.
- exfalso. destruct Hf as [_ Hf]. specialize (Hf (-104) ltac:(lia)).
  fold X in Hf.
  assert (2 ^ 155 <= 2 ^ (1024 - -104)) by (apply Z.pow_le_mono_r; lia).
  assert ((q + 1) * 2 ^ 104 <= 2 ^ 155).
  { change (2 ^ 155) with (2 ^ 51 * 2 ^ 104).
    apply Z.mul_le_mono_nonneg_r; [apply Z.pow_nonneg; lia|].
    change (2 ^ 51) with 2251799813685248.
    change (2 ^ 50) with 1125899906842624 in Hest. lia. }
  lia.
- destruct Hf as [-> Hf]. destruct (Hf (-104) ltac:(lia)) as [He Hv].
  fold X in Hv. cbn [to_int]. f_equal.
  pose proof (trunc_scaled m e (-104) ltac:(lia) He) as [_ Hlo].
  pose proof (trunc_scaled_upper m e (-104) ltac:(lia) He) as Hhi.
  change (- -104) with 104 in *.
  assert (0 < 2 ^ 104) by (apply Z.pow_pos_nonneg; lia).
  nia.
Qed.

Section GasLimit.
Context {World : Type}.
Variable w3 : Web3 World.
Variable config : Config.

(** The transaction that is signed carries the limit drawn from the
    estimate made in the same attempt. *)
Lemma signed_transaction_gas wallet_data s r t s' :
  send_gm_transaction w3 config wallet_data s = (r, t, s') ->
  forall transaction key signed,
    In (EvSignTransaction transaction key signed) t ->
    exists built ans,
      In (EvEstimateGas built ans) t /\
      transaction = set_gas built (gas_limit_of ans).
Proof.
intros E. pattern r, t, s'. eapply wp_run; [clear E|exact E].
unfold send_gm_transaction, send_gm_body, check_balance, estimate_gas,
  check_can_gm.
repeat wp_step; cbn [app]; intros transaction key signed Hin;
  in_cases; try discriminate; inversion Hin; subst; clear Hin;
  eexists; eexists; (split; [cbn; eauto 20|]);
  unfold gas_limit_of;
  try match goal with H : and_then _ _ = _ |- _ => rewrite H end;
  reflexivity.
Qed.

(** C7. [estimate_gas] never raises and asks the client once. When the
    client raises, the limit is 100000; when it answers, the limit is
    [int(estimate * 1.2)] in Python's arithmetic, which for every estimate
    below [2^50] is exactly the estimate plus 20%, rounded down; and the
    transaction that gets signed carries that limit. *)
Theorem estimate_gas_margin transaction s ans w' :
  eth_estimate_gas w3 transaction (world s) = (ans, w') ->
  estimate_gas w3 transaction s
  = (inr (gas_limit_of ans), [EvEstimateGas transaction ans],
     mkState w' (bot s)) /\
  match ans with
  | inl _ => gas_limit_of ans = 100000
  | inr gas_estimate =>
      (forall limit,
          and_then (mul (PyInt gas_estimate) (PyFloat f_1_2)) to_int
          = inr limit ->
          gas_limit_of ans = limit) /\
      (0 <= gas_estimate < 2 ^ 50 ->
       gas_limit_of ans = 6 * gas_estimate / 5)
  end /\
  (forall wallet_data s0 r t s1,
      send_gm_transaction w3 config wallet_data s0 = (r, t, s1) ->
      forall signed key sig,
        In (EvSignTransaction signed key sig) t ->
        exists built answer,
          In (EvEstimateGas built answer) t /\
          signed = set_gas built (gas_limit_of answer)).
Proof.
intros E. split; [|split].
- unfold estimate_gas, try_except, bind, rpc, lift, gas_limit_of.
  rewrite E. destruct ans as [e|gas_estimate]; [reflexivity|].
  destruct (and_then (mul (PyInt gas_estimate) (PyFloat f_1_2)) to_int);
    reflexivity.
- destruct ans as [e|gas_estimate]; [reflexivity|]. split.
  + intros limit H. unfold gas_limit_of. rewrite H. reflexivity.
  + intros H. unfold gas_limit_of. rewrite (margin_exact _ H). reflexivity.
- intros wallet_data s0 r t s1 H.
  exact (signed_transaction_gas wallet_data s0 r t s1 H).
Qed.

End GasLimit.

(** C7 on the example chain: an estimate of 21000 gives 25200. *)
Lemma estimate_gas_margin_witness :
  let s := Ex.start Ex.chain in
  let transaction := mkTransaction Ex.A 100000 44000000000 7 INK_CHAIN_ID
                                   "gm-contract" "gm()" 0 in
  eth_estimate_gas Sim.client transaction (world s) = (inr 21000, Ex.chain) /\
  estimate_gas Sim.client transaction s
  = (inr 25200, [EvEstimateGas transaction (inr 21000)], s) /\
  gas_limit_of (inr 21000) = 6 * 21000 / 5.
Proof.
cbv zeta. split; [reflexivity|].
destruct (estimate_gas_margin
            Sim.client Ex.cfg
            (mkTransaction Ex.A 100000 44000000000 7 INK_CHAIN_ID
                           "gm-contract" "gm()" 0)
            (Ex.start Ex.chain) (inr 21000) Ex.chain eq_refl)
  as (Hrun & (_ & Hexact) & _).
split.
- rewrite Hrun. reflexivity.
- apply Hexact. vm_compute. split; [discriminate | reflexivity].
Defined.

(** Above [2^53] the conversion of the estimate rounds, and the limit is
    no longer the exact margin. *)
Example margin_inexact_above_2_53 :
  gas_limit_of (inr (2 ^ 53 + 1)) = 10808639105689190 /\
  6 * (2 ^ 53 + 1) / 5 = 10808639105689191.
Proof. split; vm_compute; reflexivity. Qed.

(** An estimate too large for a [float] makes the product raise inside the
    [try], and the limit falls back to the default. *)
Example margin_overflow : gas_limit_of (inr (2 ^ 1024)) = 100000.
Proof. vm_compute. reflexivity. Qed.

(** * Further facts *)

(** ** One attempt: further facts *)

Section BalanceQuery.
Context {World : Type}.
Variable w3 : Web3 World.
Variable config : Config.

(** X1. [check_balance] never raises and never touches the bot's lists.
    It returns a balance only when the address passed the checksum, the
    client answered and the conversion to ether worked; the balance it
    asks for is that of the checksummed address, and it asks once at
    most. Every failure is answered with [None]. *)
Theorem check_balance_never_raises address s :
  exists b t s',
    check_balance w3 address s = (inr b, t, s') /\
    bot s' = bot s /\
    match b with
    | Some d =>
        exists a wei,
          to_checksum_address w3 address = inr a /\
          get_balance w3 a (world s) = (inr wei, world s') /\
          from_wei w3 wei ether = inr d /\
          t = [EvGetBalance a (inr wei)]
    | None =>
        (exists e, to_checksum_address w3 address = inl e /\ t = []) \/
        (exists a ans,
            to_checksum_address w3 address = inr a /\
            fst (get_balance w3 a (world s)) = ans /\
            t = [EvGetBalance a ans] /\
            match ans with
            | inl _ => True
            | inr wei => exists e, from_wei w3 wei ether = inl e
            end)
    end.
Proof.
  unfold check_balance, try_except, bind, lift, rpc, ret, raise.
  destruct (to_checksum_address w3 address) as [e|a] eqn:Ea.
  - do 3 eexists. split; [reflexivity|]. split; [reflexivity|].
    left. exists e. split; reflexivity.
  - destruct (get_balance w3 a (world s)) as [[e|wei] w] eqn:Eb.
    + do 3 eexists. split; [reflexivity|]. split; [reflexivity|].
      right. exists a, (inl e). repeat split. rewrite Eb. reflexivity.
    + destruct (from_wei w3 wei ether) as [e|d] eqn:Ec.
      * do 3 eexists. split; [reflexivity|]. split; [reflexivity|].
        right. exists a, (inr wei). repeat split;
          [rewrite Eb; reflexivity | exists e; exact Ec].
      * do 3 eexists. split; [reflexivity|]. split; [reflexivity|].
        exists a, wei. repeat split; [exact Eb | exact Ec].
Qed.

End BalanceQuery.

(** The balance test in wei, whatever scale the Decimal has. *)
Lemma balance_too_low_wei d n :
  dec_num d * 10 ^ 18 = n * 10 ^ Z.of_nat (dec_scale d) ->
  balance_too_low (Some d) = true <-> n <= 100000000000000.
Proof.
  intros H. unfold balance_too_low, min_balance, decimal_lt_float, f_0_0001.
  cbn [Z.leb Z.compare]. rewrite Z.ltb_lt.
  change (2 ^ (- -66)) with 73786976294838206464.
  set (P := 10 ^ Z.of_nat (dec_scale d)) in *.
  assert (HP : 0 < P) by (apply Z.pow_pos_nonneg; lia).
  change (10 ^ 18) with 1000000000000000000 in H.
  split; intros L.
  - assert (dec_num d * 1000000000000000000 * 73786976294838206464
            < 7378697629483821 * P * 1000000000000000000) by nia.
    rewrite H in H0. nia.
  - assert (n * P * 73786976294838206464
            < 7378697629483821 * P * 1000000000000000000) by nia.
    rewrite <- H in H0. nia.
Qed.

Lemma wp_any {World A} (m : M World A) s (Q : _ -> _ -> _ -> Prop) :
  (forall r t s', Q r t s') -> wp m s Q.
Proof. unfold wp. auto. Qed.

Section BalanceThreshold.
Context {World : Type}.
Variable w3 : Web3 World.
Variable config : Config.

(** X2. The balance check in wei. When the client reports [n] wei and
    [from_wei] converts exactly, an attempt ends at the balance check with
    INSUFFICIENT_BALANCE, after that one query, for every [n] up to and
    including [10^14] wei (0.0001 ether: the float literal [0.0001] lies
    just above a ten-thousandth); from [10^14 + 1] wei on the attempt goes
    on to ask for the nonce of the checksummed address. *)
Theorem balance_threshold_inclusive wallet_data a a' n w d s :
  to_checksum_address w3 (address wallet_data) = inr a ->
  to_checksum_address w3 a = inr a' ->
  get_balance w3 a' (world s) = (inr n, w) ->
  from_wei w3 n ether = inr d ->
  dec_num d * 10 ^ 18 = n * 10 ^ Z.of_nat (dec_scale d) ->
  (n <= 100000000000000 ->
   send_gm_transaction w3 config wallet_data s
   = (inr (false, INSUFFICIENT_BALANCE,
           ("Баланс: " ++ format_6f d ++ " ETH (нужно минимум 0.000100 ETH)")
             %string),
      [EvGetBalance a' (inr n)], mkState w (bot s))) /\
  (100000000000000 < n ->
   exists ans rest,
     snd (fst (send_gm_transaction w3 config wallet_data s))
     = EvGetBalance a' (inr n) :: EvGetTransactionCount a ans :: rest).
Proof.
  intros Ea Ea' Eb Ed Hd.
  assert (Ec : check_balance w3 a s
               = (inr (Some d), [EvGetBalance a' (inr n)], mkState w (bot s))).
  { unfold check_balance, try_except, bind, lift, rpc, ret.
    rewrite Ea'. cbn. rewrite Eb, Ed. reflexivity. }
  split; intros Hn.
  - apply (low_balance_is_insufficient w3 config wallet_data a d s _ _ Ea Ec).
    apply (balance_too_low_wei d n Hd). exact Hn.
  - assert (Hlow : balance_too_low (Some d) = false).
    { destruct (balance_too_low (Some d)) eqn:E; [|reflexivity].
      apply (balance_too_low_wei d n Hd) in E. lia. }
    change (wp (send_gm_transaction w3 config wallet_data) s
               (fun _ t _ =>
                  exists ans rest,
                    t = EvGetBalance a' (inr n)
                        :: EvGetTransactionCount a ans :: rest)).
    unfold send_gm_transaction. rewrite Ea. cbn [lift].
    apply wp_bind, wp_ret, wp_try. unfold send_gm_body.
    apply wp_bind. unfold wp at 1. rewrite Ec. cbn [fst snd].
    rewrite Hlow. unfold check_can_gm. cbv beta iota zeta. cbn [negb].
    apply wp_bind, wp_rpc. intros [e|nonce] w1 _.
    + apply wp_ret. eexists _, _. reflexivity.
    + apply wp_any. intros [e|v] t1 s1; [apply wp_ret|];
        eexists _, _; reflexivity.
Qed.

(** X3. On a wallet that has an address and a private key, both strings,
    an attempt raises on one occasion only: when the address is refused by
    [to_checksum_address], which is called before the [try]; the
    exception is that of the checksum, and the client was not called.
    Whatever happens later is caught and returned as an outcome. *)
Theorem attempt_raises_only_on_bad_address wallet_data s :
  match to_checksum_address w3 (address wallet_data) with
  | inl e => send_gm_transaction w3 config wallet_data s = (inl e, [], s)
  | inr _ =>
      exists outcome t s',
        send_gm_transaction w3 config wallet_data s = (inr outcome, t, s')
  end.
Proof.
  unfold send_gm_transaction.
  destruct (to_checksum_address w3 (address wallet_data)) as [e|a];
    cbn [lift]; [reflexivity|].
  unfold bind at 1. cbn [ret]. unfold try_except.
  destruct (send_gm_body w3 config a (strip_0x (private_key wallet_data)) s)
    as [[[e|v] t1] s1]; cbn; eauto.
Qed.

End BalanceThreshold.

Section AttemptOrder.
Context {World : Type}.
Variable w3 : Web3 World.
Variable config : Config.

(** X4. Within an attempt the client is called in one fixed order:
    balance, nonce, gas price, build, gas estimate, signature, broadcast,
    receipt; each call is made once at most, and none is made after a
    call that raised, the gas estimate excepted. So an attempt broadcasts
    at most one transaction, and only one that was built and signed
    before. *)
Theorem attempt_call_order wallet_data s :
  let t := snd (fst (send_gm_transaction w3 config wallet_data s)) in
  map call_rank t = seq 1 (List.length t) /\
  (List.length t <= 8)%nat /\
  forall i ev,
    nth_error t i = Some ev -> (S i < List.length t)%nat ->
    answered ev = true \/ call_rank ev = 5%nat.
Proof.
  cbv zeta.
  change (wp (send_gm_transaction w3 config wallet_data) s
             (fun _ t _ =>
                map call_rank t = seq 1 (List.length t) /\
                (List.length t <= 8)%nat /\
                forall i ev,
                  nth_error t i = Some ev -> (S i < List.length t)%nat ->
                  answered ev = true \/ call_rank ev = 5%nat)).
  unfold send_gm_transaction, send_gm_body, check_balance, estimate_gas,
    check_can_gm.
  repeat wp_step; try discriminate; cbn [app]; (split; [reflexivity|]);
    (split; [cbn; lia|]); intros i ev Hi Hlt;
    repeat match type of Hi with
           | nth_error (_ :: _) _ = _ =>
               destruct i as [|i];
               [ inversion Hi; subst ev; cbn; auto
               | cbn [nth_error] in Hi ]
           end;
    try (destruct i; discriminate Hi);
    cbn in Hlt; lia.
Qed.

(** X5. An attempt ends in SUCCESS only after all eight calls were made,
    every one of them answered except perhaps the gas estimate (when the
    estimate raised, the limit is the default 100000), and the receipt
    came back with status 1. The calls are chained as the source chains
    them: the nonce is that of the checksummed address, the
    transaction is built from that address with the provisional gas
    100000, the effective gas price and the chain id of the config (57073
    when absent); the transaction that is signed carries the gas limit
    drawn from the estimate and is signed with the key stripped of its
    [0x]; what is broadcast is the signed transaction, and the receipt
    awaited is that of the hash returned by the broadcast. *)
Theorem success_needs_mined_receipt wallet_data s ok message t s' :
  send_gm_transaction w3 config wallet_data s
  = (inr (ok, SUCCESS, message), t, s') ->
  exists a a' balance nonce price max_gas_price params tx est limit raw
         tx_hash receipt,
    to_checksum_address w3 (address wallet_data) = inr a /\
    t = [EvGetBalance a' (inr balance);
         EvGetTransactionCount a (inr nonce);
         EvGasPrice (inr price);
         EvBuildTransaction params (inr tx);
         EvEstimateGas tx est;
         EvSignTransaction (set_gas tx limit)
                           (strip_0x (private_key wallet_data)) (inr raw);
         EvSendRawTransaction raw (inr tx_hash);
         EvWaitForReceipt tx_hash 120 (inr receipt)] /\
    to_wei w3 (match max_gas_price_gwei config with
               | Some c => c
               | None => PyInt 50
               end) gwei = inr max_gas_price /\
    effective_gas_price price max_gas_price
                        (match gas_price_multiplier config with
                         | Some m => m
                         | None => PyFloat f_1_1
                         end) = inr (p_gasPrice params) /\
    params = mkTxParams a 100000 (p_gasPrice params) nonce
                        (match chain_id config with
                         | Some c => c
                         | None => INK_CHAIN_ID
                         end) /\
    limit = gas_limit_of est /\
    receipt_status receipt = 1 /\
    ok = true /\
    message = ("TX: " ++ hex w3 tx_hash)%string.
Proof.
  intros E.
  assert (H : wp (send_gm_transaction w3 config wallet_data) s
    (fun r t _ =>
       forall ok message, r = inr (ok, SUCCESS, message) ->
       exists a a' balance nonce price max_gas_price params tx est limit raw
              tx_hash receipt,
         to_checksum_address w3 (address wallet_data) = inr a /\
         t = [EvGetBalance a' (inr balance);
              EvGetTransactionCount a (inr nonce);
              EvGasPrice (inr price);
              EvBuildTransaction params (inr tx);
              EvEstimateGas tx est;
              EvSignTransaction (set_gas tx limit)
                                (strip_0x (private_key wallet_data))
                                (inr raw);
              EvSendRawTransaction raw (inr tx_hash);
              EvWaitForReceipt tx_hash 120 (inr receipt)] /\
         to_wei w3 (match max_gas_price_gwei config with
                    | Some c => c
                    | None => PyInt 50
                    end) gwei = inr max_gas_price /\
         effective_gas_price price max_gas_price
                             (match gas_price_multiplier config with
                              | Some m => m
                              | None => PyFloat f_1_1
                              end) = inr (p_gasPrice params) /\
         params = mkTxParams a 100000 (p_gasPrice params) nonce
                             (match chain_id config with
                              | Some c => c
                              | None => INK_CHAIN_ID
                              end) /\
         limit = gas_limit_of est /\
         receipt_status receipt = 1 /\
         ok = true /\
         message = ("TX: " ++ hex w3 tx_hash)%string)).
  { unfold send_gm_transaction, send_gm_body, check_balance, estimate_gas,
      check_can_gm.
    repeat wp_step; try discriminate; cbn [app]; intros ok0 message0 E0;
      try (unfold classify_error in E0;
           repeat match type of E0 with
                  | context [if ?b then _ else _] => destruct b
                  end; discriminate E0);
      inversion E0; subst; clear E0.
    all: do 13 eexists.
    all: split; [reflexivity|].
    all: split; [reflexivity|].
    all: split; [reflexivity|].
    all: split; [cbn [p_gasPrice]; eassumption|].
    all: split; [reflexivity|].
    all: split;
      [unfold gas_limit_of;
       repeat match goal with
              | H : and_then _ _ = _ |- _ => rewrite H
              end; reflexivity|].
    all: split; [apply Z.eqb_eq; assumption|].
    all: split; reflexivity. }
  exact (wp_run _ _ _ _ _ _ H E ok message eq_refl).
Qed.

End AttemptOrder.

Lemma range_length lo hi : List.length (range lo hi) = Z.to_nat (hi - lo).
Proof. unfold range. rewrite length_map, length_seq. reflexivity. Qed.

(** ** Invariants of the run, whether it ends normally or not *)

Lemma Forall_turn_mono ws ws' t :
  incl ws ws' -> Forall (turn_event ws) t -> Forall (turn_event ws') t.
Proof.
  intros Hi H. eapply Forall_impl; [|exact H].
  intros ev [Hw Ha]. split; [exact Hw|].
  intros a i E. apply (incl_map address Hi). exact (Ha a i E).
Qed.

Lemma client_turn_event ws ev :
  is_client_event ev = true -> turn_event ws ev.
Proof.
  intros H. split; [destruct ev; try reflexivity; discriminate|].
  intros a i ->. discriminate.
Qed.

Section RunInvariants.
Context {World : Type}.
Variable w3 : Web3 World.
Variable config : Config.

(** An attempt hands out one of five statuses. *)
Lemma send_gm_transaction_status wallet_data s :
  wp (send_gm_transaction w3 config wallet_data) s
     (fun r _ _ => forall ok status message,
          r = inr (ok, status, message) -> handed_out status = true).
Proof.
  unfold wp, send_gm_transaction.
  destruct (to_checksum_address w3 (address wallet_data)) as [e|a] eqn:Ea;
    cbn [lift]; [cbn; discriminate|].
  unfold bind at 1. cbn [ret]. unfold try_except.
  pose proof (send_gm_body_returns w3 config a
                (strip_0x (private_key wallet_data)) s) as Hbody.
  unfold wp in Hbody.
  destruct (send_gm_body w3 config a (strip_0x (private_key wallet_data)) s)
    as [[[e|v] t1] s1] eqn:Eb; cbn in *.
  - unfold classify_error.
    repeat match goal with
           | |- context [if ?b then _ else _] => destruct b
           end; intros ok status message E; inversion E; reflexivity.
  - intros ok status message E; inversion E; subst.
    destruct (Hbody _ _ _ eq_refl) as [[_ ->]|[[_ ->]|[_ [-> _]]]];
      reflexivity.
Qed.

Lemma process_wallet_turn wallet_data attempt s :
  wp (process_wallet w3 config wallet_data attempt) s
     (fun r t s' =>
        bot s' = bot s /\
        Forall (turn_event [wallet_data]) t /\
        forall ok status message,
          r = inr (ok, status, message) ->
          ok = status_eqb status SUCCESS /\ handed_out status = true).
Proof.
  unfold process_wallet. apply wp_bind, wp_emit.
  eapply wp_mono;
    [exact (wp_and _ _ _ _
              (wp_and _ _ _ _
                 (send_gm_transaction_trace w3 config wallet_data s)
                 (send_gm_transaction_flag w3 config wallet_data s))
              (send_gm_transaction_status wallet_data s))|].
  cbn beta. intros r t s' [[[Hb Ht] Hf] Hs].
  split; [exact Hb|]. split.
  - constructor.
    + split; [reflexivity|]. intros a i E. inversion E. left. reflexivity.
    + eapply Forall_impl; [|exact Ht]. intros ev. apply client_turn_event.
  - intros ok status message E. split; [exact (Hf _ _ _ E)|exact (Hs _ _ _ E)].
Qed.

Lemma attempts_turn wallet_data :
  forall rng loc s,
    wp (attempts w3 config wallet_data rng loc) s
       (fun r t s' =>
          Forall (turn_event [wallet_data]) t /\
          failed_wallets (bot s') = failed_wallets (bot s) /\
          exists rs,
            results (bot s') = results (bot s) ++ rs /\
            (List.length rs <= List.length rng)%nat /\
            Forall (result_of wallet_data rng) rs).
Proof.
  induction rng as [|attempt rng IH]; intros loc s; cbn [attempts].
  - apply wp_ret. split; [constructor|]. split; [reflexivity|].
    exists []. rewrite app_nil_r. repeat split; auto.
  - apply wp_bind. eapply wp_mono; [apply process_wallet_turn|].
    intros r t s1 (Hb1 & Ht & Hst).
    destruct r as [e|[[ok status] message]].
    + split; [exact Ht|]. rewrite Hb1. split; [reflexivity|].
      exists []. rewrite app_nil_r. repeat split; auto. cbn. lia.
    + destruct (Hst _ _ _ eq_refl) as [-> Hh]. clear Hst.
      apply wp_bind, wp_ask. intros stamp w1 _.
      apply wp_bind. unfold append_result.
      apply wp_bind, wp_get_bot, wp_set_bot. cbn [bot world].
      set (result := mkResult (address wallet_data) attempt status message
                              stamp).
      set (s2 := mkState w1 _).
      assert (Hres : result_of wallet_data (attempt :: rng) result).
      { repeat split; [left; reflexivity | exact Hh]. }
      assert (Hb2 : bot s2 = mkBot (results (bot s) ++ [result])
                                   (failed_wallets (bot s))).
      { subst s2. cbn [bot]. rewrite Hb1. reflexivity. }
      destruct (status_eqb status SUCCESS || status_eqb status ALREADY_GMED)
        %bool.
      * apply wp_ret. rewrite !app_nil_r. split; [exact Ht|].
        rewrite Hb2. split; [reflexivity|]. exists [result].
        repeat split; auto. cbn. lia.
      * apply wp_bind.
        assert (Hrest :
          forall t0 s3,
            Forall (turn_event [wallet_data]) t0 ->
            bot s3 = bot s2 ->
            wp (attempts w3 config wallet_data rng
                  (mkLocals (status_eqb status SUCCESS) (Some status)
                            (Some message))) s3
               (fun r t' s' =>
                  Forall (turn_event [wallet_data])
                         (t ++ [] ++ [] ++ t0 ++ t') /\
                  failed_wallets (bot s') = failed_wallets (bot s) /\
                  exists rs,
                    results (bot s') = results (bot s) ++ rs /\
                    (List.length rs <= List.length (attempt :: rng))%nat /\
                    Forall (result_of wallet_data (attempt :: rng)) rs)).
        { intros t0 s3 Ht0 Hs3. eapply wp_mono; [apply IH|].
          intros r' t' s' (Ht' & Hf' & rs & Hr' & Hl' & Hrs').
          rewrite Hs3, Hb2 in Hf', Hr'.
          cbn [results failed_wallets] in Hf', Hr'.
          split.
          - cbn [app]. apply Forall_app. split; [exact Ht|].
            apply Forall_app. split; assumption.
          - split; [exact Hf'|]. exists (result :: rs).
            rewrite Hr', <- app_assoc. split; [reflexivity|].
            split; [cbn; lia|]. constructor; [exact Hres|].
            eapply Forall_impl; [|exact Hrs'].
            intros x (Ha & Hi & Hx). repeat split; auto. right. exact Hi. }
        destruct (attempt <? max_retries config).
        -- unfold sleep. destruct (retry_delay config <? 0).
           ++ apply wp_raise. rewrite !app_nil_r. split; [exact Ht|].
              rewrite Hb2. split; [reflexivity|]. exists [result].
              repeat split; auto. cbn. lia.
           ++ apply wp_emit. apply Hrest; [|reflexivity].
              constructor; [|constructor]. split; [reflexivity|].
              intros a0 i0 E. discriminate.
        -- apply wp_ret. apply (Hrest []); [constructor | reflexivity].
Qed.

Lemma run_wallet_turn index wallet_data loc s :
  wp (run_wallet w3 config index wallet_data loc) s
     (fun r t s' =>
        Forall (turn_event [wallet_data]) t /\
        exists rs fs,
          results (bot s') = results (bot s) ++ rs /\
          failed_wallets (bot s') = failed_wallets (bot s) ++ fs /\
          (List.length rs <= Z.to_nat (max_retries config))%nat /\
          (List.length fs <= 1)%nat /\
          Forall (result_of wallet_data (range 1 (max_retries config + 1)))
                 rs /\
          Forall (fun f => f_address f = address wallet_data) fs).
Proof.
  unfold run_wallet. cbv zeta. apply wp_bind.
  assert (Hloop : forall t0 s0,
    Forall (turn_event [wallet_data]) t0 -> bot s0 = bot s ->
    wp (loc0 <- attempts w3 config wallet_data
                  (range 1 (max_retries config + 1))
                  (mkLocals false (l_status loc) (l_error_message loc)) ;;
        if negb (l_success loc0)
        then status <- read_local "status" (l_status loc0) ;;
             if negb (status_eqb status ALREADY_GMED)
             then error_message <-
                    read_local "error_message" (l_error_message loc0) ;;
                  append_failed (mkFailedWallet (address wallet_data) status
                                                error_message) ;;
                  ret loc0
             else ret loc0
        else ret loc0)%bot s0
       (fun r t s' =>
          Forall (turn_event [wallet_data]) (t0 ++ t) /\
          exists rs fs,
            results (bot s') = results (bot s) ++ rs /\
            failed_wallets (bot s') = failed_wallets (bot s) ++ fs /\
            (List.length rs <= Z.to_nat (max_retries config))%nat /\
            (List.length fs <= 1)%nat /\
            Forall (result_of wallet_data (range 1 (max_retries config + 1)))
                   rs /\
            Forall (fun f => f_address f = address wallet_data) fs)).
  { intros t0 s0 Ht0 Hs0. apply wp_bind.
    eapply wp_mono; [apply attempts_turn|].
    intros r t s1 (Ht & Hf & rs & Hr & Hl & Hrs).
    rewrite Hs0 in Hf, Hr. rewrite range_length in Hl.
    replace (max_retries config + 1 - 1) with (max_retries config) in Hl
      by lia.
    assert (Hidle : forall t1,
      t1 = [] ->
      Forall (turn_event [wallet_data]) (t0 ++ t ++ t1) /\
      exists rs0 fs,
        results (bot s1) = results (bot s) ++ rs0 /\
        failed_wallets (bot s1) = failed_wallets (bot s) ++ fs /\
        (List.length rs0 <= Z.to_nat (max_retries config))%nat /\
        (List.length fs <= 1)%nat /\
        Forall (result_of wallet_data (range 1 (max_retries config + 1)))
               rs0 /\
        Forall (fun f => f_address f = address wallet_data) fs).
    { intros t1 ->. rewrite app_nil_r. split.
      - apply Forall_app. split; assumption.
      - exists rs, []. rewrite app_nil_r. repeat split; auto. }
    destruct r as [e|loc1].
    - rewrite <- (app_nil_r t). apply Hidle. reflexivity.
    - destruct (negb (l_success loc1)).
      + apply wp_bind. destruct (l_status loc1) as [status|];
          cbn [read_local].
        * apply wp_ret.
          destruct (negb (status_eqb status ALREADY_GMED)).
          -- apply wp_bind. destruct (l_error_message loc1) as [msg|];
               cbn [read_local].
             ++ apply wp_ret. apply wp_bind. unfold append_failed.
                apply wp_bind, wp_get_bot, wp_set_bot, wp_ret.
                cbn [bot results failed_wallets]. rewrite !app_nil_r.
                split; [apply Forall_app; split; assumption|].
                exists rs, [mkFailedWallet (address wallet_data) status msg].
                rewrite Hf. repeat split; auto.
             ++ apply wp_raise. apply Hidle. reflexivity.
          -- apply wp_ret. apply Hidle. reflexivity.
        * apply wp_raise. apply Hidle. reflexivity.
      + apply wp_ret. apply Hidle. reflexivity. }
  assert (Hstop : forall s0 : State World, bot s0 = bot s ->
    Forall (turn_event [wallet_data]) ([] : list Event) /\
    exists rs fs,
      results (bot s0) = results (bot s) ++ rs /\
      failed_wallets (bot s0) = failed_wallets (bot s) ++ fs /\
      (List.length rs <= Z.to_nat (max_retries config))%nat /\
      (List.length fs <= 1)%nat /\
      Forall (result_of wallet_data (range 1 (max_retries config + 1))) rs /\
      Forall (fun f => f_address f = address wallet_data) fs).
  { intros s0 ->. split; [constructor|]. exists [], [].
    rewrite !app_nil_r. repeat split; auto; cbn; lia. }
  destruct (delay_enabled config && (index >? 0))%bool.
  - apply wp_bind. unfold random_randint.
    destruct (max_delay config <? min_delay config).
    + apply wp_raise. apply Hstop. reflexivity.
    + apply wp_ask. intros delay w _. unfold sleep.
      destruct (delay <? 0).
      * apply wp_raise. apply Hstop. reflexivity.
      * apply wp_emit. apply (Hloop ([] ++ [EvSleep delay])); [|reflexivity].
        constructor; [|constructor]. split; [reflexivity|].
        intros a0 i0 E. discriminate.
  - apply wp_ret. apply (Hloop []); [constructor | reflexivity].
Qed.

Lemma run_wallets_turn :
  forall ws index loc s,
    wp (run_wallets w3 config index ws loc) s
       (fun r t s' =>
          Forall (turn_event ws) t /\
          exists rs fs,
            results (bot s') = results (bot s) ++ rs /\
            failed_wallets (bot s') = failed_wallets (bot s) ++ fs /\
            (List.length rs
             <= List.length ws * Z.to_nat (max_retries config))%nat /\
            (List.length fs <= List.length ws)%nat /\
            Forall (fun x => exists w,
                        In w ws /\
                        result_of w (range 1 (max_retries config + 1)) x)
                   rs /\
            Forall (fun f => In (f_address f) (map address ws)) fs).
Proof.
  induction ws as [|w ws IH]; intros index loc s; cbn [run_wallets].
  - apply wp_ret. split; [constructor|]. exists [], [].
    rewrite !app_nil_r. repeat split; auto.
  - apply wp_bind. eapply wp_mono; [apply run_wallet_turn|].
    intros r t s1 (Ht & rs & fs & Hr & Hf & Hlr & Hlf & Hrs & Hfs).
    assert (Hrs' : Forall (fun x => exists w0,
                             In w0 (w :: ws) /\
                             result_of w0 (range 1 (max_retries config + 1)) x)
                          rs).
    { eapply Forall_impl; [|exact Hrs]. intros x Hx. exists w.
      split; [left; reflexivity | exact Hx]. }
    assert (Hfs' : Forall (fun f => In (f_address f) (map address (w :: ws)))
                          fs).
    { eapply Forall_impl; [|exact Hfs]. intros f Hx. left. symmetry.
      exact Hx. }
    assert (Ht' : Forall (turn_event (w :: ws)) t).
    { apply (Forall_turn_mono [w]); [|exact Ht].
      intros x [<-|[]]. left. reflexivity. }
    destruct r as [e|loc1].
    + split; [exact Ht'|]. exists rs, fs. cbn [List.length].
      repeat split; auto; lia.
    + eapply wp_mono; [apply IH|].
      intros r' t' s' (Ht2 & rs2 & fs2 & Hr2 & Hf2 & Hlr2 & Hlf2 & Hrs2 & Hfs2).
      split.
      * apply Forall_app. split; [exact Ht'|].
        apply (Forall_turn_mono ws); [|exact Ht2].
        intros x Hx. right. exact Hx.
      * exists (rs ++ rs2), (fs ++ fs2).
        rewrite Hr2, Hf2, Hr, Hf, <- !app_assoc, !length_app.
        cbn [List.length].
        repeat split; auto; try lia.
        -- apply Forall_app. split; [exact Hrs'|].
           eapply Forall_impl; [|exact Hrs2]. intros x (w0 & Hw0 & Hx).
           exists w0. split; [right; exact Hw0 | exact Hx].
        -- apply Forall_app. split; [exact Hfs'|].
           eapply Forall_impl; [|exact Hfs2]. intros f Hx. right. exact Hx.
Qed.

End RunInvariants.

Lemma in_range x lo hi : In x (range lo hi) -> lo <= x < hi.
Proof.
  unfold range. intros H. apply in_map_iff in H.
  destruct H as (i & <- & Hi). apply in_seq in Hi. lia.
Qed.

Section RunMore.
Context {World : Type}.
Variable w3 : Web3 World.
Variable config : Config.

(** What [run] leaves in the bot and in the trace, however it ends. *)
Lemma run_turn s :
  wp (run w3 config) s
     (fun r t s' =>
        (exists rs fs,
            results (bot s') = results (bot s) ++ rs /\
            failed_wallets (bot s') = failed_wallets (bot s) ++ fs /\
            (List.length rs
             <= List.length (wallets config)
                * Z.to_nat (max_retries config))%nat /\
            (List.length fs <= List.length (wallets config))%nat /\
            Forall (fun x => exists w,
                        In w (wallets config) /\
                        result_of w (range 1 (max_retries config + 1)) x)
                   rs /\
            Forall (fun f => In (f_address f) (map address (wallets config)))
                   fs) /\
        match r with
        | inl _ => Forall (turn_event (wallets config)) t
        | inr _ =>
            exists t0 stamp,
              Forall (turn_event (wallets config)) t0 /\
              t = t0 ++
                  EvWriteResults
                    (mkResultsFile (results (bot s'))
                                   (failed_wallets (bot s'))
                                   (summary config (bot s')))
                  :: match failed_wallets (bot s') with
                     | [] => []
                     | _ :: _ =>
                         [EvWriteFailed
                            (mkFailedFile
                               stamp
                               (Z.of_nat
                                  (List.length (failed_wallets (bot s'))))
                               (enrich config (failed_wallets (bot s'))))]
                     end
        end).
Proof.
  unfold run. apply wp_bind.
  eapply wp_mono; [apply run_wallets_turn|].
  intros r t s1 (Ht & Hbot). destruct r as [e|loc1].
  - split; [exact Hbot | exact Ht].
  - eapply wp_mono; [apply save_results_spec|].
    intros r2 t2 s2 (Hb & -> & stamp & ->). rewrite Hb.
    split; [exact Hbot|]. exists t, stamp. split; [exact Ht | reflexivity].
Qed.

(** The turns of the wallets, one after the other: what each wallet
    that got its turn added to the two lists. *)
Lemma run_wallets_blocks :
  forall ws index loc s,
    wp (run_wallets w3 config index ws loc) s
       (fun r t s' =>
          exists turns : list (list Result * list FailedWallet),
            (List.length turns <= List.length ws)%nat /\
            results (bot s') = results (bot s) ++ flat_map fst turns /\
            failed_wallets (bot s')
            = failed_wallets (bot s) ++ flat_map snd turns /\
            Forall2 (fun w turn =>
                       (List.length (fst turn)
                        <= Z.to_nat (max_retries config))%nat /\
                       (List.length (snd turn) <= 1)%nat /\
                       Forall (result_of
                                 w (range 1 (max_retries config + 1)))
                              (fst turn) /\
                       Forall (fun f => f_address f = address w) (snd turn))
                    (firstn (List.length turns) ws) turns).
Proof.
  induction ws as [|w ws IH]; intros index loc s; cbn [run_wallets].
  - apply wp_ret. exists []. cbn. rewrite !app_nil_r.
    repeat split; auto.
  - apply wp_bind. eapply wp_mono; [apply run_wallet_turn|].
    intros r t s1 (_ & rs & fs & Hr & Hf & Hlr & Hlf & Hrs & Hfs).
    destruct r as [e|loc1].
    + exists [(rs, fs)]. cbn [List.length flat_map fst snd firstn].
      rewrite !app_nil_r. split; [lia|]. split; [exact Hr|].
      split; [exact Hf|]. constructor; [|constructor]. auto.
    + eapply wp_mono; [apply IH|].
      intros r' t' s' (turns & Hl & Hr2 & Hf2 & Hturns).
      exists ((rs, fs) :: turns). cbn [List.length flat_map fst snd firstn].
      rewrite Hr2, Hf2, Hr, Hf, <- !app_assoc.
      split; [lia|]. split; [reflexivity|]. split; [reflexivity|].
      constructor; [|exact Hturns]. auto.
Qed.

(** X6. The work of a run is bounded, also when the run ends in an
    exception. Started on a new bot, the run leaves the two lists made
    of the turns of the wallets, in the order of the config and one turn
    per wallet that was reached: a turn adds at most [max_retries]
    results and at most one failed record, all about that wallet. Every
    result carries an attempt number between 1 and [max_retries] and one
    of the five statuses SUCCESS, FAILED, INSUFFICIENT_BALANCE,
    ALREADY_GMED and TIMEOUT: NETWORK_ERROR and INVALID_CONTRACT are never
    handed out. So there are at most [max_retries] results and one failed
    record per wallet of the config in all. *)
Theorem run_work_is_bounded s :
  bot s = new_bot ->
  let b := bot (snd (run w3 config s)) in
  (exists turns : list (list Result * list FailedWallet),
      (List.length turns <= List.length (wallets config))%nat /\
      results b = flat_map fst turns /\
      failed_wallets b = flat_map snd turns /\
      Forall2 (fun w turn =>
                 Z.of_nat (List.length (fst turn))
                 <= Z.max 0 (max_retries config) /\
                 (List.length (snd turn) <= 1)%nat /\
                 Forall (fun x =>
                           r_address x = address w /\
                           1 <= r_attempt x <= max_retries config /\
                           handed_out (r_status x) = true)
                        (fst turn) /\
                 Forall (fun f => f_address f = address w) (snd turn))
              (firstn (List.length turns) (wallets config)) turns) /\
  Z.of_nat (List.length (results b))
  <= Z.of_nat (List.length (wallets config)) * Z.max 0 (max_retries config) /\
  (List.length (failed_wallets b) <= List.length (wallets config))%nat /\
  Forall (fun x =>
            In (r_address x) (map address (wallets config)) /\
            1 <= r_attempt x <= max_retries config /\
            handed_out (r_status x) = true)
         (results b) /\
  Forall (fun f => In (f_address f) (map address (wallets config)))
         (failed_wallets b).
Proof.
  intros Hnew. cbv zeta. split.
  - assert (H : wp (run w3 config) s
      (fun _ _ s' =>
         exists turns : list (list Result * list FailedWallet),
           (List.length turns <= List.length (wallets config))%nat /\
           results (bot s') = results (bot s) ++ flat_map fst turns /\
           failed_wallets (bot s')
           = failed_wallets (bot s) ++ flat_map snd turns /\
           Forall2 (fun w turn =>
                      (List.length (fst turn)
                       <= Z.to_nat (max_retries config))%nat /\
                      (List.length (snd turn) <= 1)%nat /\
                      Forall (result_of
                                w (range 1 (max_retries config + 1)))
                             (fst turn) /\
                      Forall (fun f => f_address f = address w) (snd turn))
                   (firstn (List.length turns) (wallets config)) turns)).
    { unfold run. apply wp_bind.
      eapply wp_mono; [apply run_wallets_blocks|].
      intros r t s1 Hturns. destruct r as [e|loc1]; [exact Hturns|].
      eapply wp_mono; [apply save_results_spec|].
      intros r2 t2 s2 (Hb & _). rewrite Hb. exact Hturns. }
    destruct H as (turns & Hl & Hr & Hf & Hturns).
    rewrite Hnew in Hr, Hf. cbn [new_bot results failed_wallets app] in Hr, Hf.
    exists turns. split; [exact Hl|]. split; [exact Hr|]. split; [exact Hf|].
    eapply Forall2_impl; [|exact Hturns].
    intros w turn (H1 & H2 & H3 & H4).
    split; [lia|]. split; [exact H2|]. split; [|exact H4].
    eapply Forall_impl; [|exact H3].
    intros x (Ha & Hi & Hs). apply in_range in Hi.
    repeat split; try assumption; lia.
  - destruct (run_turn s) as [(rs & fs & Hr & Hf & Hlr & Hlf & Hrs & Hfs) _].
    rewrite Hnew in Hr, Hf. cbn [new_bot results failed_wallets app] in Hr, Hf.
    rewrite Hr, Hf. repeat split; try assumption.
    + rewrite <- Z2Nat.id with (n := Z.max 0 (max_retries config)) by lia.
      rewrite <- Nat2Z.inj_mul. apply Nat2Z.inj_le.
      replace (Z.to_nat (Z.max 0 (max_retries config)))
        with (Z.to_nat (max_retries config)) by lia.
      exact Hlr.
    + eapply Forall_impl; [|exact Hrs].
      intros x (w & Hw & Ha & Hi & Hs). apply in_range in Hi.
      repeat split; try assumption; try lia.
      rewrite Ha. apply in_map. exact Hw.
Qed.

(** X7. The files are written at the very end and nowhere else. A run
    that ends in an exception has written nothing, whatever was sent
    before; a run that ends normally has written the results file once,
    after the last wallet, with every result and failed record of the bot
    and the summary over them, followed by the retry file when (and only
    when) there is a failed record. *)
Theorem files_written_at_the_end s :
  let r := fst (fst (run w3 config s)) in
  let t := snd (fst (run w3 config s)) in
  let b := bot (snd (run w3 config s)) in
  match r with
  | inl _ => Forall (fun ev => is_write_event ev = false) t
  | inr _ =>
      exists t0 rest,
        t = t0 ++
            EvWriteResults
              (mkResultsFile (results b) (failed_wallets b)
                             (summary config b)) :: rest /\
        Forall (fun ev => is_write_event ev = false) t0 /\
        match failed_wallets b with
        | [] => rest = []
        | _ :: _ =>
            exists stamp,
              rest = [EvWriteFailed
                        (mkFailedFile
                           stamp
                           (Z.of_nat (List.length (failed_wallets b)))
                           (enrich config (failed_wallets b)))]
        end
  end.
Proof.
  cbv zeta. destruct (run_turn s) as [_ H].
  destruct (fst (fst (run w3 config s))) as [e|u].
  - eapply Forall_impl; [|exact H]. intros ev [Hw _]. exact Hw.
  - destruct H as (t0 & stamp & Ht0 & ->).
    exists t0. eexists. split; [reflexivity|]. split.
    + eapply Forall_impl; [|exact Ht0]. intros ev [Hw _]. exact Hw.
    + destruct (failed_wallets (bot (snd (run w3 config s))));
        [reflexivity | exists stamp; reflexivity].
Qed.

End RunMore.

(** Every wallet ends in SUCCESS, in ALREADY_GMED or among the failed. *)
Lemma outcomes_partition (ws : list Wallet) (os : list Outcome) :
  List.length ws = List.length os ->
  (List.length (filter (fun o => status_eqb (terminal_status o) SUCCESS) os)
   + List.length
       (filter (fun o => status_eqb (terminal_status o) ALREADY_GMED) os)
   + List.length (filter ends_failed (combine ws os)))%nat
  = List.length ws.
Proof.
  revert os. induction ws as [|w ws IH]; intros [|o os] H; try discriminate;
    [reflexivity|].
  cbn [combine filter]. injection H as H. specialize (IH os H).
  unfold ends_failed at 1. cbn [snd].
  destruct (terminal_status o); cbn [status_eqb status_text is_final negb];
    cbn; lia.
Qed.

(** With addresses that differ beyond their case, a wallet is the first
    one that carries its address. *)
Lemma find_own_wallet (ws : list Wallet) w :
  NoDup (map (fun x => lower (address x)) ws) ->
  In w ws ->
  find (fun x => String.eqb (lower (address x)) (lower (address w))) ws
  = Some w.
Proof.
  induction ws as [|x ws IH]; intros Hnd Hin; [destruct Hin|].
  cbn [map] in Hnd. inversion Hnd as [|? ? Hx Hnd']; subst. cbn [find].
  destruct Hin as [->|Hin].
  - rewrite String.eqb_refl. reflexivity.
  - destruct (String.eqb (lower (address x)) (lower (address w))) eqn:E.
    + apply String.eqb_eq in E. exfalso. apply Hx. rewrite E.
      apply (in_map (fun x => lower (address x))). exact Hin.
    + apply IH; assumption.
Qed.

Section RunEnd.
Context {World : Type}.
Variable w3 : Web3 World.
Variable config : Config.

Lemma enrich_own_wallets (wos : list (Wallet * Outcome)) :
  NoDup (map (fun x => lower (address x)) (wallets config)) ->
  (forall wo, In wo wos -> In (fst wo) (wallets config)) ->
  enrich config (map failed_record wos)
  = map (fun wo => entry_of (fst wo) (failed_record wo)) wos.
Proof.
  intros Hnd. induction wos as [|wo wos IH]; intros Hin; [reflexivity|].
  cbn [map enrich]. unfold find_original. cbn [failed_record f_address].
  rewrite (find_own_wallet _ (fst wo) Hnd (Hin wo (or_introl eq_refl))).
  unfold entry_of at 1. cbn [failed_record f_last_error f_last_status].
  f_equal. apply IH. intros wo' H. apply Hin. right. exact H.
Qed.

(** X8. The summary of a run that ends normally accounts for every
    wallet once: the counts of successful, already-sent and failed
    wallets add up to the total, which is the number of wallets of the
    config. *)
Theorem summary_adds_up s t s' :
  bot s = new_bot ->
  run w3 config s = (inr tt, t, s') ->
  let sm := summary config (bot s') in
  successful sm + already_gmed sm + failed sm = total sm /\
  total sm = Z.of_nat (List.length (wallets config)).
Proof.
  intros Hnew E. cbv zeta.
  destruct (run_outcomes w3 config s t s' E)
    as (os & t0 & stamp & Hos & Hres & Hfl & _).
  rewrite Hnew in Hres, Hfl. cbn [new_bot results failed_wallets app] in *.
  cbn [summary successful already_gmed failed total].
  split; [|reflexivity].
  rewrite Hres, Hfl, length_map.
  rewrite !(count_status_outcomes _ (wallets config)) by (reflexivity || assumption).
  rewrite <- !Nat2Z.inj_add. f_equal.
  apply outcomes_partition. exact (Forall2_length Hos).
Qed.

(** X9. The retry file names exactly the wallets that failed. When no
    two wallets of the config share an address up to case, the entries of
    the retry file written by a run are, in the order of the config, the
    wallets whose last attempt ended neither in SUCCESS nor in
    ALREADY_GMED, each with its own address as the config spells it, its
    own private key and proxy, and the status and message of its last
    attempt; and [count] is the number of entries. The attempts are those
    of the run: the results that the bot holds at the end are the results
    of the wallets, one wallet after the other, and its failed records
    are those of the wallets listed. *)
Theorem retry_file_lists_the_failed_wallets s t s' doc :
  bot s = new_bot ->
  NoDup (map (fun w => lower (address w)) (wallets config)) ->
  run w3 config s = (inr tt, t, s') ->
  In (EvWriteFailed doc) t ->
  exists os,
    Forall2 wallet_outcome (wallets config) os /\
    results (bot s') = flat_map outcome_results os /\
    failed_wallets (bot s')
    = map failed_record (filter ends_failed (combine (wallets config) os)) /\
    ff_wallets doc
    = map (fun wo =>
             mkFailedEntry (address (fst wo)) (private_key (fst wo))
                           (proxy (fst wo)) (r_message (snd (snd wo)))
                           (terminal_status (snd wo)))
          (filter ends_failed (combine (wallets config) os)) /\
    ff_count doc = Z.of_nat (List.length (ff_wallets doc)) /\
    0 < ff_count doc.
Proof.
  intros Hnew Hnd E Hin.
  destruct (run_outcomes w3 config s t s' E)
    as (os & _ & _ & Hos & Hres & Hfl & _).
  rewrite Hnew in Hres, Hfl.
  cbn [new_bot results failed_wallets app] in Hres, Hfl.
  destruct (run_turn w3 config s) as [_ H].
  rewrite E in H. cbn [fst snd] in H.
  destruct H as (t0 & stamp & Ht0 & ->).
  set (rest := match failed_wallets (bot s') with
               | [] => []
               | _ :: _ => _
               end) in *.
  assert (Hdoc : In (EvWriteFailed doc) rest).
  { apply in_app_or in Hin. destruct Hin as [Hin|[Hin|Hin]].
    - rewrite Forall_forall in Ht0. apply Ht0 in Hin.
      destruct Hin as [Hin _]. discriminate.
    - discriminate.
    - exact Hin. }
  subst rest.
  destruct (failed_wallets (bot s')) as [|f fs] eqn:Hf; [destruct Hdoc|].
  destruct Hdoc as [Hdoc|[]].
  assert (Hd : doc = mkFailedFile stamp
                                  (Z.of_nat (List.length (f :: fs)))
                                  (enrich config (f :: fs)))
    by congruence.
  subst doc. clear Hdoc. cbn [ff_wallets ff_count].
  exists os. split; [exact Hos|]. split; [exact Hres|]. split; [exact Hfl|].
  assert (Hen : enrich config (f :: fs)
                = map (fun wo => entry_of (fst wo) (failed_record wo))
                      (filter ends_failed (combine (wallets config) os))).
  { rewrite Hfl. apply enrich_own_wallets; [exact Hnd|].
    intros wo Hwo. apply filter_In in Hwo. destruct Hwo as [Hwo _].
    destruct wo as [w o]. apply in_combine_l in Hwo. exact Hwo. }
  rewrite Hen. split; [reflexivity|].
  rewrite length_map, <- (length_map failed_record), <- Hfl.
  split; [reflexivity | cbn; lia].
Qed.

End RunEnd.

Section RunStops.
Context {World : Type}.
Variable w3 : Web3 World.
Variable config : Config.

(** The first attempt on a wallet whose address is refused raises. *)
Lemma attempts_bad_address wallet_data loc s e :
  1 <= max_retries config ->
  to_checksum_address w3 (address wallet_data) = inl e ->
  wp (attempts w3 config wallet_data (range 1 (max_retries config + 1)) loc)
     s (fun r _ _ => r = inl e).
Proof.
  intros Hmax Hbad. rewrite range_cons by lia. cbn [attempts].
  apply wp_bind. unfold process_wallet. apply wp_bind, wp_emit.
  unfold send_gm_transaction. rewrite Hbad. cbn [lift].
  apply wp_bind, wp_raise. reflexivity.
Qed.

(** Neither does the turn of such a wallet end normally. *)
Lemma run_wallet_bad_address index wallet_data loc s e :
  1 <= max_retries config ->
  to_checksum_address w3 (address wallet_data) = inl e ->
  wp (run_wallet w3 config index wallet_data loc) s
     (fun r _ _ => exists e', r = inl e').
Proof.
  intros Hmax Hbad. unfold run_wallet. cbv zeta. apply wp_bind.
  assert (Hrest : forall (s0 : State World) k,
    wp (bind (attempts w3 config wallet_data
                       (range 1 (max_retries config + 1))
                       (mkLocals false (l_status loc) (l_error_message loc)))
             k) s0
       (fun (r : Exn + Locals) (_ : list Event) (_ : State World) =>
          exists e', r = inl e')).
  { intros s0 k. apply wp_bind.
    eapply wp_mono; [apply (attempts_bad_address _ _ _ e Hmax Hbad)|].
    intros r t s1 ->. exists e. reflexivity. }
  destruct (delay_enabled config && (index >? 0))%bool.
  - apply wp_bind. unfold random_randint.
    destruct (max_delay config <? min_delay config).
    + apply wp_raise. eexists. reflexivity.
    + apply wp_ask. intros delay w _. unfold sleep.
      destruct (delay <? 0).
      * apply wp_raise. eexists. reflexivity.
      * apply wp_emit. apply Hrest.
  - apply wp_ret. apply Hrest.
Qed.

Lemma run_wallets_bad_address w post e :
  1 <= max_retries config ->
  to_checksum_address w3 (address w) = inl e ->
  forall pre index loc s,
    wp (run_wallets w3 config index (pre ++ w :: post) loc) s
       (fun r t _ =>
          (exists e', r = inl e') /\ Forall (turn_event (pre ++ [w])) t).
Proof.
  intros Hmax Hbad. induction pre as [|p pre IH]; intros index loc s;
    cbn [app run_wallets]; apply wp_bind.
  - eapply wp_mono;
      [exact (wp_and _ _ _ _
                (run_wallet_bad_address index w loc s e Hmax Hbad)
                (run_wallet_turn w3 config index w loc s))|].
    cbn beta. intros r t s1 [[e' ->] [Ht _]]. split; [eauto | exact Ht].
  - eapply wp_mono; [apply run_wallet_turn|].
    intros r t s1 [Ht _].
    assert (Ht' : Forall (turn_event (p :: pre ++ [w])) t).
    { apply (Forall_turn_mono [p]); [|exact Ht].
      intros x [<-|[]]. left. reflexivity. }
    destruct r as [e'|loc1]; [split; [eauto | exact Ht']|].
    eapply wp_mono; [apply IH|].
    intros r' t' s' [He Ht2]. split; [exact He|].
    apply Forall_app. split; [exact Ht'|].
    apply (Forall_turn_mono (pre ++ [w])); [|exact Ht2].
    intros x Hx. right. exact Hx.
Qed.

(** X10. One address that [to_checksum_address] refuses stops the whole
    run. With [max_retries >= 1], a run over a config that holds such a
    wallet ends in an exception: the wallets before it have had their
    attempts, those after it have none, and no file is written, so the
    outcomes of the wallets already processed are lost. *)
Theorem bad_address_stops_the_run pre w post e s :
  wallets config = pre ++ w :: post ->
  1 <= max_retries config ->
  to_checksum_address w3 (address w) = inl e ->
  exists e' t s',
    run w3 config s = (inl e', t, s') /\
    Forall (fun ev => is_write_event ev = false) t /\
    forall a i, In (EvAttempt a i) t -> In a (map address (pre ++ [w])).
Proof.
  intros Hws Hmax Hbad.
  assert (H : wp (run w3 config) s
                 (fun r t _ =>
                    (exists e', r = inl e') /\
                    Forall (turn_event (pre ++ [w])) t)).
  { unfold run. rewrite Hws. apply wp_bind.
    eapply wp_mono; [apply (run_wallets_bad_address w post e Hmax Hbad)|].
    intros r t s1 [[e' ->] Ht]. split; [eauto | exact Ht]. }
  unfold wp in H. destruct (run w3 config s) as [[r t] s'].
  cbn [fst snd] in H. destruct H as [[e' ->] Ht].
  exists e', t, s'. split; [reflexivity|]. split.
  - eapply Forall_impl; [|exact Ht]. intros ev [Hw _]. exact Hw.
  - intros a i Hin. rewrite Forall_forall in Ht.
    destruct (Ht _ Hin) as [_ Ha]. exact (Ha a i eq_refl).
Qed.

(** X11. A delay range that is empty stops the run at the second wallet.
    With the delay between wallets enabled and [max_seconds] below
    [min_seconds], a run over two wallets or more ends in an exception
    ([random.randint] refuses the range): the first wallet alone has had
    its attempts, and no file is written. *)
Theorem empty_delay_range_stops_the_run w1 w2 ws s :
  wallets config = w1 :: w2 :: ws ->
  delay_enabled config = true ->
  max_delay config < min_delay config ->
  exists e t s',
    run w3 config s = (inl e, t, s') /\
    Forall (fun ev => is_write_event ev = false) t /\
    forall a i, In (EvAttempt a i) t -> a = address w1.
Proof.
  intros Hws Hen Hrange.
  assert (H : wp (run w3 config) s
                 (fun r t _ =>
                    (exists e, r = inl e) /\ Forall (turn_event [w1]) t)).
  { unfold run. rewrite Hws. cbn [run_wallets]. do 2 apply wp_bind.
    eapply wp_mono; [apply run_wallet_turn|].
    intros r t s1 [Ht _]. destruct r as [e|loc1]; [split; [eauto|exact Ht]|].
    apply wp_bind. unfold run_wallet. cbv zeta. rewrite Hen.
    replace (0 + 1 >? 0) with true by reflexivity. cbn [andb].
    do 2 apply wp_bind. unfold random_randint.
    apply Z.ltb_lt in Hrange. rewrite Hrange. apply wp_raise.
    rewrite app_nil_r. split; [eauto | exact Ht]. }
  unfold wp in H. destruct (run w3 config s) as [[r t] s'].
  cbn [fst snd] in H. destruct H as [[e ->] Ht].
  exists e, t, s'. split; [reflexivity|]. split.
  - eapply Forall_impl; [|exact Ht]. intros ev [Hw _]. exact Hw.
  - intros a i Hin. rewrite Forall_forall in Ht.
    destruct (Ht _ Hin) as [_ Ha]. destruct (Ha a i eq_refl) as [H|[]].
    symmetry. exact H.
Qed.

End RunStops.

(** ** The additional facts on the scripted client *)

(** X2 on the two sides of the threshold: [C] holds 0.00005 ether, [A]
    one ether. *)
Lemma balance_threshold_inclusive_witness :
  send_gm_transaction Sim.client Ex.cfg Ex.wallet_C (Ex.start Ex.chain)
  = (inr (false, INSUFFICIENT_BALANCE,
          "Баланс: 0.000050 ETH (нужно минимум 0.000100 ETH)"),
     [EvGetBalance Ex.C (inr 50000000000000)], Ex.start Ex.chain) /\
  exists ans rest,
    snd (fst (send_gm_transaction Sim.client Ex.cfg Ex.wallet_A
                                  (Ex.start Ex.chain)))
    = EvGetBalance Ex.A (inr Ex.one_ether)
      :: EvGetTransactionCount Ex.A ans :: rest.
Proof.
  split.
  - apply (proj1 (balance_threshold_inclusive
                    Sim.client Ex.cfg Ex.wallet_C Ex.C Ex.C 50000000000000
                    Ex.chain (Dec 50000000000000 18) (Ex.start Ex.chain)
                    eq_refl eq_refl eq_refl eq_refl eq_refl)).
    vm_compute. discriminate.
  - apply (proj2 (balance_threshold_inclusive
                    Sim.client Ex.cfg Ex.wallet_A Ex.A Ex.A Ex.one_ether
                    Ex.chain (Dec Ex.one_ether 18) (Ex.start Ex.chain)
                    eq_refl eq_refl eq_refl eq_refl eq_refl)).
    vm_compute. reflexivity.
Defined.

(** X5 on the wallet [A], whose transaction is mined. *)
Lemma success_needs_mined_receipt_witness :
  fst (fst (send_gm_transaction Sim.client Ex.cfg Ex.wallet_A
                                (Ex.start Ex.chain)))
  = inr (true, SUCCESS, "TX: hash:signed:aa") /\
  exists receipt,
    In (EvWaitForReceipt "hash:signed:aa" 120 (inr receipt))
       (snd (fst (send_gm_transaction Sim.client Ex.cfg Ex.wallet_A
                                      (Ex.start Ex.chain)))) /\
    receipt_status receipt = 1.
Proof.
  split; [vm_compute; reflexivity|].
  destruct (success_needs_mined_receipt
              Sim.client Ex.cfg Ex.wallet_A (Ex.start Ex.chain)
              true "TX: hash:signed:aa" _ _ (run_eta _))
    as (a & a' & balance & nonce & price & maxp & params & tx & est & limit &
        raw & tx_hash & receipt & _ & Ht & _ & _ & _ & _ & Hr & _ & Hm).
  exists receipt. split; [|exact Hr].
  rewrite Ht. do 7 right. left.
  cbn in Hm. injection Hm as <-. reflexivity.
Defined.

(** X6 on the scenario: three wallets, two tries each. *)
Lemma run_work_is_bounded_witness :
  let s := Ex.start Ex.chain in
  let b := bot (snd (run Sim.client Ex.cfg s)) in
  bot s = new_bot /\
  map r_address (results b) = [Ex.A; Ex.B; Ex.B; Ex.C; Ex.C] /\
  Z.of_nat (List.length (results b)) <= 3 * 2 /\
  exists turns : list (list Result * list FailedWallet),
    results b = flat_map fst turns /\
    failed_wallets b = flat_map snd turns /\
    Forall (fun turn =>
              Z.of_nat (List.length (fst turn)) <= 2 /\
              (List.length (snd turn) <= 1)%nat)
           turns.
Proof.
  cbv zeta. split; [reflexivity|]. split; [vm_compute; reflexivity|].
  destruct (run_work_is_bounded Sim.client Ex.cfg (Ex.start Ex.chain)
                                eq_refl)
    as ((turns & _ & Hr & Hf & Hturns) & Hn & _).
  split; [exact Hn|]. exists turns. split; [exact Hr|]. split; [exact Hf|].
  clear - Hturns. induction Hturns as [|w turn ws turns (H1 & H2 & _) _ IH];
    constructor; [split; [exact H1 | exact H2] | exact IH].
Defined.

(** X8 on the scenario: two successes, none already sent, one failed. *)
Lemma summary_adds_up_witness :
  let s := Ex.start Ex.chain in
  let sm := summary Ex.cfg (bot (snd (run Sim.client Ex.cfg s))) in
  bot s = new_bot /\
  fst (fst (run Sim.client Ex.cfg s)) = inr tt /\
  successful sm + already_gmed sm + failed sm = 3.
Proof.
  cbv zeta. split; [reflexivity|]. split; [vm_compute; reflexivity|].
  assert (E : run Sim.client Ex.cfg (Ex.start Ex.chain)
              = (inr tt, snd (fst (run Sim.client Ex.cfg (Ex.start Ex.chain))),
                 snd (run Sim.client Ex.cfg (Ex.start Ex.chain))))
    by (vm_compute; reflexivity).
  destruct (summary_adds_up Sim.client Ex.cfg (Ex.start Ex.chain) _ _
                            eq_refl E) as [H1 H2].
  rewrite H1. exact H2.
Defined.

(** X9 on the scenario: the retry file holds [C] with its key and
    proxy. *)
Lemma retry_file_lists_the_failed_wallets_witness :
  let s := Ex.start Ex.chain in
  let doc :=
    mkFailedFile
      "5" 1
      [mkFailedEntry Ex.C "cc" (Some "socks5://proxy")
         "Баланс: 0.000050 ETH (нужно минимум 0.000100 ETH)"
         INSUFFICIENT_BALANCE] in
  bot s = new_bot /\
  NoDup (map (fun w => lower (address w)) (wallets Ex.cfg)) /\
  fst (fst (run Sim.client Ex.cfg s)) = inr tt /\
  In (EvWriteFailed doc) (snd (fst (run Sim.client Ex.cfg s))) /\
  ff_count doc = Z.of_nat (List.length (ff_wallets doc)).
Proof.
  cbv zeta.
  assert (Hnd : NoDup (map (fun w => lower (address w)) (wallets Ex.cfg))).
  { repeat constructor; vm_compute; intuition discriminate. }
  assert (E : run Sim.client Ex.cfg (Ex.start Ex.chain)
              = (inr tt, snd (fst (run Sim.client Ex.cfg (Ex.start Ex.chain))),
                 snd (run Sim.client Ex.cfg (Ex.start Ex.chain))))
    by (vm_compute; reflexivity).
  assert (Hin :
    In (EvWriteFailed
          (mkFailedFile
             "5" 1
             [mkFailedEntry Ex.C "cc" (Some "socks5://proxy")
                "Баланс: 0.000050 ETH (нужно минимум 0.000100 ETH)"
                INSUFFICIENT_BALANCE]))
       (snd (fst (run Sim.client Ex.cfg (Ex.start Ex.chain)))))
    by find_in.
  split; [reflexivity|]. split; [exact Hnd|].
  split; [vm_compute; reflexivity|]. split; [exact Hin|].
  destruct (retry_file_lists_the_failed_wallets
              Sim.client Ex.cfg (Ex.start Ex.chain) _ _ _ eq_refl Hnd E Hin)
    as (os & _ & _ & _ & _ & Hc & _).
  exact Hc.
Defined.

(** X10 on a config whose second wallet is the placeholder: [A] is
    served, the run stops at the placeholder, [B] is never tried. *)
Lemma bad_address_stops_the_run_witness :
  wallets Ex2.cfg_placeholder = [Ex.wallet_A] ++ Ex.wallet_dots :: [Ex.wallet_B]
  /\ 1 <= max_retries Ex2.cfg_placeholder /\
  Sim.checksum (address Ex.wallet_dots)
  = inl (mkExn ValueError "invalid address") /\
  exists e t s',
    run Sim.client Ex2.cfg_placeholder (Ex.start Ex.chain) = (inl e, t, s') /\
    Forall (fun ev => is_write_event ev = false) t.
Proof.
  split; [reflexivity|]. split; [vm_compute; discriminate|].
  split; [reflexivity|].
  destruct (bad_address_stops_the_run
              Sim.client Ex2.cfg_placeholder [Ex.wallet_A] Ex.wallet_dots
              [Ex.wallet_B] (mkExn ValueError "invalid address")
              (Ex.start Ex.chain) eq_refl
              ltac:(vm_compute; discriminate) eq_refl)
    as (e & t & s' & E & Hw & _).
  exists e, t, s'. split; assumption.
Defined.

(** X11 on a config with delays from 80 to 30 seconds. *)
Lemma empty_delay_range_stops_the_run_witness :
  wallets Ex2.cfg_delay = [Ex.wallet_A; Ex.wallet_B] /\
  delay_enabled Ex2.cfg_delay = true /\
  max_delay Ex2.cfg_delay < min_delay Ex2.cfg_delay /\
  exists e t s',
    run Sim.client Ex2.cfg_delay (Ex.start Ex.chain) = (inl e, t, s') /\
    forall a i, In (EvAttempt a i) t -> a = Ex.A.
Proof.
  split; [reflexivity|]. split; [reflexivity|]. split; [reflexivity|].
  destruct (empty_delay_range_stops_the_run
              Sim.client Ex2.cfg_delay Ex.wallet_A Ex.wallet_B []
              (Ex.start Ex.chain) eq_refl eq_refl eq_refl)
    as (e & t & s' & E & _ & Ha).
  exists e, t, s'. split; assumption.
Defined.

(** ** The default multiplier *)

(** [int(x * 1.1)] is the exact [floor(11 * x / 10)] for every [x] below
    [2^48]. *)
Lemma default_multiplier_exact est :
  0 <= est < 2 ^ 48 ->
  and_then (mul (PyInt est) (PyFloat f_1_1)) to_int = inr (11 * est / 10).
Proof.
intros Hest.
destruct (Z.eq_dec est 0) as [->|Hne]; [reflexivity|].
destruct (float_of_int_exact est) as (ma & ea & Efa & Hea & Hma & Hva).
{ assert (2 ^ 48 < 2 ^ 53) by (apply Z.pow_lt_mono_r; lia). lia. }
unfold f_1_1. cbn [mul]. rewrite Efa.
pose proof (SFmul_finite false ma ea 4953959590107546 (-52) Hma) as Hf.
set (f := SFmul prec emax (S754_finite false ma ea)
                (S754_finite false 4953959590107546 (-52))) in *.
clearbody f. cbn [and_then].
set (q := 11 * est / 10).
assert (Hq : 10 * q <= 11 * est <= 10 * q + 9).
{ pose proof (Z.div_mod (11 * est) 10 ltac:(lia)).
  pose proof (Z.mod_pos_bound (11 * est) 10 ltac:(lia)). unfold q. lia. }
set (X := Zpos ma * 2 ^ (ea + -52 - -104) * 4953959590107546).
assert (HX : X = est * 22310650564016839267781827362816).
{ unfold X. replace (ea + -52 - -104) with (ea + 52) by lia.
  rewrite Hva. change (2 ^ 52) with 4503599627370496. lia. }
assert (Hbound :
  q * 2 ^ 104 <= round53 (-1074 - -104) X < (q + 1) * 2 ^ 104).
{ unfold round53. cbv zeta.
  assert (H48 : 2 ^ 48 = 281474976710656) by reflexivity.
  assert (HXlo : 2 ^ 104 <= X)
    by (rewrite HX; change (2 ^ 104) with 20282409603651670423947251286016;
        lia).
  assert (HXhi : X < 2 ^ 153)
    by (rewrite HX;
        change (2 ^ 153)
          with 11417981541647679048466287755595961091061972992; lia).
  assert (HL1 : 104 <= Z.log2 X) by (apply Z.log2_le_pow2; lia).
  assert (HL2 : Z.log2 X < 153) by (apply Z.log2_lt_pow2; lia).
  replace (Z.max (Z.log2 X + 1 - 53) (-1074 - -104))
    with (Z.log2 X - 52) by lia.
  set (s := Z.log2 X - 52).
  assert (HP : 0 < 2 ^ s) by (apply Z.pow_pos_nonneg; lia).
  assert (HP102 : 2 ^ s <= 2 ^ 100) by (apply Z.pow_le_mono_r; lia).
  assert (HPX : X < 2 ^ s * 2 ^ 53).
  { rewrite <- Z.pow_add_r by lia.
    replace (s + 53) with (Z.succ (Z.log2 X)) by lia.
    apply Z.log2_spec. lia. }
  assert (HB : 2 ^ 104 = 2 ^ (104 - s) * 2 ^ s)
    by (rewrite <- Z.pow_add_r by lia; f_equal; lia).
  assert (HK : 0 < 2 ^ (104 - s)) by (apply Z.pow_pos_nonneg; lia).
  pose proof (div_half_even_near X (2 ^ s) HP) as [Hlo Hhi].
  set (D := div_half_even X (2 ^ s)) in *.
  set (P := 2 ^ s) in *. set (K := 2 ^ (104 - s)) in *.
  change (2 ^ 100) with 1267650600228229401496703205376 in HP102.
  change (2 ^ 53) with 9007199254740992 in HPX.
  change (2 ^ 104) with 20282409603651670423947251286016 in *.
  split.
  - destruct (Z_lt_le_dec D (q * K)) as [Hlt|Hge].
    + exfalso.
      assert ((D + 1) * P <= q * K * P)
        by (apply Z.mul_le_mono_nonneg_r; lia).
      assert (q * K * P = q * 20282409603651670423947251286016)
        by (rewrite <- Z.mul_assoc, <- HB; reflexivity).
      lia.
    + rewrite HB, Z.mul_assoc.
      apply Z.mul_le_mono_nonneg_r; lia.
  - lia. }
destruct f as [s|s| |s m e]; try contradiction.
- exfalso. destruct Hf as [_ Hf]. specialize (Hf (-104) ltac:(lia)).
  fold X in Hf. assert (0 < 2 ^ 104) by (apply Z.pow_pos_nonneg; lia).
  assert (1 <= q) by lia. nia.
- exfalso. destruct Hf as [_ Hf]. specialize (Hf (-104) ltac:(lia)).
  fold X in Hf.
  assert (2 ^ 153 <= 2 ^ (1024 - -104)) by (apply Z.pow_le_mono_r; lia).
  assert ((q + 1) * 2 ^ 104 <= 2 ^ 153).
  { change (2 ^ 153) with (2 ^ 49 * 2 ^ 104).
    apply Z.mul_le_mono_nonneg_r; [apply Z.pow_nonneg; lia|].
    change (2 ^ 49) with 562949953421312.
    change (2 ^ 48) with 281474976710656 in Hest. lia. }
  lia.
- destruct Hf as [-> Hf]. destruct (Hf (-104) ltac:(lia)) as [He Hv].
  fold X in Hv. cbn [to_int]. f_equal.
  pose proof (trunc_scaled m e (-104) ltac:(lia) He) as [_ Hlo].
  pose proof (trunc_scaled_upper m e (-104) ltac:(lia) He) as Hhi.
  change (- -104) with 104 in *.
  assert (0 < 2 ^ 104) by (apply Z.pow_pos_nonneg; lia).
  nia.
Qed.
Section DefaultPrice.
Context {World : Type}.
Variable w3 : Web3 World.
Variable config : Config.

(** X18. With the multiplier left at its default 1.1 the gas price of
    the transaction is exactly eleven tenths of the capped network price,
    rounded down: [int(x * 1.1) = floor(11 * x / 10)] for
    [x = min(network price, ceiling)] anywhere from 0 up to [2^48] wei
    (281474 gwei), although the float 1.1 is not eleven tenths and the
    product is rounded; and that is the price handed to
    [build_transaction]. *)
Theorem default_price_is_eleven_tenths :
  (forall p c,
      0 <= Z.min p c < 2 ^ 48 ->
      effective_gas_price p c (PyFloat f_1_1) = inr (11 * Z.min p c / 10)) /\
  forall wallet_data s r t s',
    gas_price_multiplier config = None \/
    gas_price_multiplier config = Some (PyFloat f_1_1) ->
    send_gm_transaction w3 config wallet_data s = (r, t, s') ->
    forall params ans,
      In (EvBuildTransaction params ans) t ->
      exists network ceiling,
        In (EvGasPrice (inr network)) t /\
        to_wei w3 (match max_gas_price_gwei config with
                   | Some c => c
                   | None => PyInt 50
                   end) gwei = inr ceiling /\
        (0 <= Z.min network ceiling < 2 ^ 48 ->
         p_gasPrice params = 11 * Z.min network ceiling / 10).
Proof.
  assert (Hpure : forall p c,
    0 <= Z.min p c < 2 ^ 48 ->
    effective_gas_price p c (PyFloat f_1_1) = inr (11 * Z.min p c / 10)).
  { intros p c H. unfold effective_gas_price.
    replace (if p >? c then c else p) with (Z.min p c).
    - apply default_multiplier_exact. exact H.
    - destruct (p >? c) eqn:E.
      + apply Z.gtb_lt in E. lia.
      + rewrite Z.gtb_ltb in E. apply Z.ltb_ge in E. lia. }
  split; [exact Hpure|].
  intros wallet_data s r t s' Hm E params ans Hin.
  destruct (build_transaction_price w3 config wallet_data s r t s' E
                                    params ans Hin)
    as (network & ceiling & Hn & Hc & Hp).
  exists network, ceiling. split; [exact Hn|]. split; [exact Hc|].
  intros Hb.
  assert (Hmul : match gas_price_multiplier config with
                 | Some m => m
                 | None => PyFloat f_1_1
                 end = PyFloat f_1_1)
    by (destruct Hm as [-> | ->]; reflexivity).
  rewrite Hmul, (Hpure network ceiling Hb) in Hp. congruence.
Qed.

End DefaultPrice.

(** X18 on the scenario: 40 gwei under a ceiling of 50 gwei. *)
Lemma default_price_is_eleven_tenths_witness :
  0 <= Z.min 40000000000 50000000000 < 2 ^ 48 /\
  effective_gas_price 40000000000 50000000000 (PyFloat f_1_1)
  = inr 44000000000.
Proof.
  split; [vm_compute; split; [discriminate | reflexivity]|].
  exact (proj1 (default_price_is_eleven_tenths Sim.client Ex.cfg)
               40000000000 50000000000
               ltac:(vm_compute; split; [discriminate | reflexivity])).
Defined.

(** ** The delays between the wallets *)

Section RunTrace.
Context {World : Type}.
Variable w3 : Web3 World.
Variable config : Config.

Local Open Scope bot_scope.

(** What follows the retry loop in a turn leaves no trace. *)
Lemma after_attempts_silent wallet_data loc1 (s1 : State World) :
  wp (if negb (l_success loc1)
      then status <- read_local "status" (l_status loc1) ;;
           if negb (status_eqb status ALREADY_GMED)
           then error_message <-
                  read_local "error_message" (l_error_message loc1) ;;
                append_failed (mkFailedWallet (address wallet_data) status
                                              error_message) ;;
                ret loc1
           else ret loc1
      else ret loc1) s1
     (fun _ t _ => t = []).
Proof.
  destruct (negb (l_success loc1)); [|apply wp_ret; reflexivity].
  apply wp_bind. destruct (l_status loc1) as [status|]; cbn [read_local];
    [|apply wp_raise; reflexivity].
  apply wp_ret. destruct (negb (status_eqb status ALREADY_GMED));
    [|apply wp_ret; reflexivity].
  apply wp_bind. destruct (l_error_message loc1) as [msg|]; cbn [read_local];
    [|apply wp_raise; reflexivity].
  apply wp_ret, wp_bind. unfold append_failed.
  apply wp_bind, wp_get_bot, wp_set_bot, wp_ret. reflexivity.
Qed.

Lemma run_wallet_trace index wallet_data loc s :
  1 <= max_retries config ->
  wp (run_wallet w3 config index wallet_data loc) s
     (fun r t _ =>
        forall loc', r = inr loc' ->
          exists d segs,
            0 <= d /\
            t = (if (delay_enabled config && (index >? 0))%bool
                 then [EvSleep d] else [])
                ++ attempt_trace (address wallet_data) (retry_delay config) 1
                                 segs /\
            1 <= Z.of_nat (List.length segs) <= max_retries config /\
            Forall (Forall (fun ev => is_client_event ev = true)) segs).
Proof.
  intros Hmax. unfold run_wallet. cbv zeta. apply wp_bind.
  assert (Hloop : forall (s0 : State World) pre,
    wp (loc0 <- attempts w3 config wallet_data
                  (range 1 (max_retries config + 1))
                  (mkLocals false (l_status loc) (l_error_message loc)) ;;
        if negb (l_success loc0)
        then status <- read_local "status" (l_status loc0) ;;
             if negb (status_eqb status ALREADY_GMED)
             then error_message <-
                    read_local "error_message" (l_error_message loc0) ;;
                  append_failed (mkFailedWallet (address wallet_data) status
                                                error_message) ;;
                  ret loc0
             else ret loc0
        else ret loc0) s0
       (fun r t _ =>
          forall loc', r = inr loc' ->
            exists segs,
              pre ++ t
              = pre ++ attempt_trace (address wallet_data)
                                     (retry_delay config) 1 segs /\
              1 <= Z.of_nat (List.length segs) <= max_retries config /\
              Forall (Forall (fun ev => is_client_event ev = true)) segs)).
  { intros s0 pre. apply wp_bind.
    eapply wp_mono;
      [apply (attempts_shape w3 config wallet_data
                (Z.to_nat (max_retries config)) 1); lia|].
    intros r t s1 (segs & rs & Hlen & Hne & Ht & Hcl & _).
    destruct r as [e|loc1]; [discriminate|].
    eapply wp_mono; [apply after_attempts_silent|].
    intros r' t' s' -> loc' _. exists segs. rewrite app_nil_r, Ht.
    split; [reflexivity|]. split; [|exact Hcl].
    destruct segs; [exfalso; apply Hne; [lia | reflexivity]|].
    cbn [List.length] in *. lia. }
  destruct (delay_enabled config && (index >? 0))%bool.
  - apply wp_bind. unfold random_randint.
    destruct (max_delay config <? min_delay config).
    + apply wp_raise. discriminate.
    + apply wp_ask. intros delay w _. unfold sleep.
      destruct (delay <? 0) eqn:Hd.
      * apply wp_raise. discriminate.
      * apply wp_emit. eapply wp_mono; [apply (Hloop _ [EvSleep delay])|].
        intros r t s' H loc' E. destruct (H loc' E) as (segs & Ht & Hs).
        exists delay, segs. apply Z.ltb_ge in Hd.
        split; [exact Hd|]. split; [exact Ht | exact Hs].
  - apply wp_ret. eapply wp_mono; [apply (Hloop _ [])|].
    intros r t s' H loc' E. destruct (H loc' E) as (segs & Ht & Hs).
    exists 0, segs. split; [lia|]. split; [exact Ht | exact Hs].
Qed.

Lemma run_wallets_trace :
  1 <= max_retries config ->
  forall ws index loc s,
    wp (run_wallets w3 config index ws loc) s
       (fun r t _ =>
          forall loc', r = inr loc' ->
            exists turns,
              List.length turns = List.length ws /\
              t = turns_trace (delay_enabled config) (retry_delay config)
                              index ws turns /\
              Forall (fun turn =>
                        0 <= fst turn /\
                        1 <= Z.of_nat (List.length (snd turn))
                        <= max_retries config /\
                        Forall (Forall (fun ev => is_client_event ev = true))
                               (snd turn))
                     turns).
Proof.
  intros Hmax. induction ws as [|w ws IH]; intros index loc s;
    cbn [run_wallets].
  - apply wp_ret. intros loc' _. exists []. repeat split. constructor.
  - apply wp_bind. eapply wp_mono; [apply run_wallet_trace; exact Hmax|].
    intros r t s1 H. destruct r as [e|loc1]; [discriminate|].
    destruct (H _ eq_refl) as (d & segs & Hd & -> & Hs & Hc).
    eapply wp_mono; [apply IH|].
    intros r' t' s' H' loc' E.
    destruct (H' _ E) as (turns & Hl & -> & Ht).
    exists ((d, segs) :: turns). cbn [List.length turns_trace fst snd].
    split; [congruence|]. split; [rewrite <- app_assoc; reflexivity|].
    constructor; [|exact Ht]. cbn [fst snd]. auto.
Qed.

(** X19. The delay between wallets. The trace of a run that ends
    normally is the sequence of the turns of the config wallets, in
    order, followed by the writing of the files. The turn of the first
    wallet starts with its first attempt; the turn of every later wallet
    starts with one sleep, of a length that is not negative, when the
    delays are enabled, and with its first attempt when they are not.
    Within a turn there are between one and [max_retries] attempts, with
    a sleep of [retry_delay] between two attempts and none after the
    last. *)
Theorem run_trace_shape s t s' :
  run w3 config s = (inr tt, t, s') ->
  exists turns rest,
    List.length turns = List.length (wallets config) /\
    t = turns_trace (delay_enabled config) (retry_delay config) 0
                    (wallets config) turns ++ rest /\
    Forall (fun turn =>
              0 <= fst turn /\
              1 <= Z.of_nat (List.length (snd turn)) <= max_retries config /\
              Forall (Forall (fun ev => is_client_event ev = true))
                     (snd turn))
           turns /\
    Forall (fun ev => is_write_event ev = true) rest /\
    rest <> [].
Proof.
  intros E.
  assert (Hws :
    wp (run_wallets w3 config 0 (wallets config) (mkLocals false None None)) s
       (fun r t _ =>
          forall loc', r = inr loc' ->
            exists turns,
              List.length turns = List.length (wallets config) /\
              t = turns_trace (delay_enabled config) (retry_delay config)
                              0 (wallets config) turns /\
              Forall (fun turn =>
                        0 <= fst turn /\
                        1 <= Z.of_nat (List.length (snd turn))
                        <= max_retries config /\
                        Forall (Forall (fun ev => is_client_event ev = true))
                               (snd turn))
                     turns)).
  { destruct (Z_le_gt_dec 1 (max_retries config)) as [H|H].
    - apply run_wallets_trace. exact H.
    - destruct (wallets config) as [|w ws] eqn:Hw.
      + cbn [run_wallets]. apply wp_ret. intros loc' _. exists [].
        repeat split. constructor.
      + rewrite (run_without_retries w3 config s w ws) in E
          by (lia || assumption).
        discriminate. }
  unfold run in E. unfold wp in Hws. unfold bind in E.
  destruct (run_wallets w3 config 0 (wallets config)
                        (mkLocals false None None) s)
    as [[[e|loc1] t1] s1]; [discriminate|].
  cbn [fst snd] in Hws. destruct (Hws _ eq_refl) as (turns & Hl & -> & Ht).
  pose proof (save_results_spec w3 config s1) as Hsave. unfold wp in Hsave.
  destruct (save_results w3 config s1) as [[r2 t2] s2].
  cbn [fst snd] in Hsave. destruct Hsave as (_ & _ & stamp & ->).
  inversion E; subst. exists turns. eexists.
  split; [exact Hl|]. split; [reflexivity|]. split; [exact Ht|].
  split; [|discriminate].
  constructor; [reflexivity|].
  destruct (failed_wallets (bot s1)); repeat constructor.
Qed.

End RunTrace.

(** X19 on the scenario with delays: the scripted generator draws the
    least delay. *)
Lemma run_trace_shape_witness :
  let run := run Sim.client Ex2.cfg_delayed (Ex.start Ex.chain) in
  fst (fst run) = inr tt /\
  map call_rank (firstn 9 (snd (fst run))) = [0; 1; 2; 3; 4; 5; 6; 7; 8]%nat /\
  nth_error (snd (fst run)) 9 = Some (EvSleep 30) /\
  exists turns rest,
    List.length turns = 3%nat /\
    snd (fst run)
    = turns_trace true 1 0 [Ex.wallet_A; Ex.wallet_B; Ex.wallet_C] turns
      ++ rest.
Proof.
  cbv zeta. split; [vm_compute; reflexivity|].
  split; [vm_compute; reflexivity|]. split; [vm_compute; reflexivity|].
  assert (E : run Sim.client Ex2.cfg_delayed (Ex.start Ex.chain)
              = (inr tt,
                 snd (fst (run Sim.client Ex2.cfg_delayed
                               (Ex.start Ex.chain))),
                 snd (run Sim.client Ex2.cfg_delayed (Ex.start Ex.chain))))
    by (vm_compute; reflexivity).
  destruct (run_trace_shape Sim.client Ex2.cfg_delayed (Ex.start Ex.chain)
                            _ _ E)
    as (turns & rest & Hl & Ht & _).
  exists turns, rest. split; [exact Hl | exact Ht].
Defined.

(** ** Files *)

Lemma fs_lookup_write fs path j : fs_lookup (fs_write fs path j) path = Some (Doc j).
Proof. unfold fs_write. cbn [fs_lookup]. rewrite String.eqb_refl. reflexivity. Qed.

Lemma fs_lookup_write_other fs path j q :
  q <> path -> fs_lookup (fs_write fs path j) q = fs_lookup fs q.
Proof.
  intros Hq. unfold fs_write. cbn [fs_lookup].
  destruct (String.eqb_spec path q) as [E|_]; [congruence|].
  induction fs as [|[p f] fs IH]; [reflexivity|]. cbn [filter fst].
  destruct (String.eqb_spec p path) as [->|Hp]; cbn [negb fs_lookup].
  - destruct (String.eqb_spec path q) as [E|_]; [congruence | exact IH].
  - destruct (String.eqb p q); [reflexivity | exact IH].
Qed.

Lemma dict_get_set d k v : dict_get (dict_set d k v) k = Some v.
Proof.
  induction d as [|[k' v'] d IH]; cbn [dict_set dict_get].
  - rewrite String.eqb_refl. reflexivity.
  - destruct (String.eqb k' k) eqn:E; cbn [dict_get].
    + rewrite String.eqb_refl. reflexivity.
    + rewrite E. exact IH.
Qed.

Section MainFacts.
Variable int_strip : string -> Exn + Z.

(** X12. The configuration that the bot writes on its first start does
    not start the bot. When [config.json] does not exist, [main] (not in
    retry mode) writes the default configuration there and returns; run
    again on the files it left, with any arguments that do not ask for a
    retry, it reads that configuration back, finds the placeholder
    address in the first wallet and returns without building the bot,
    leaving the files as they are. *)
Theorem default_config_is_inert fs argv a argv' a' :
  fs_lookup fs "config.json" = None ->
  parse_argv int_strip argv = inr a -> retry_mode a = false ->
  parse_argv int_strip argv' = inr a' -> retry_mode a' = false ->
  let fs' := fs_write fs "config.json" default_config in
  main int_strip fs argv = inr (NoConfig, fs') /\
  load_config fs' "config.json" = Some (default_config, fs') /\
  main int_strip fs' argv' = inr (NotConfigured, fs').
Proof.
  intros Hfs Ha Hr Ha' Hr'. cbv zeta.
  assert (Hl : load_config (fs_write fs "config.json" default_config)
                           "config.json"
               = Some (default_config,
                       fs_write fs "config.json" default_config)).
  { unfold load_config. rewrite fs_lookup_write. reflexivity. }
  split; [|split; [exact Hl|]].
  - unfold main. rewrite Ha, Hr. unfold load_config. rewrite Hfs.
    reflexivity.
  - unfold main. rewrite Ha', Hr', Hl. reflexivity.
Qed.

(** X13. What [save_results] saves for a retry, [--retry] feeds to the
    bot. Once the retry file is written under its name,
    [load_failed_wallets] reads its wallet entries back as they were
    written; and [main], called with [--retry] and that name where
    [config.json] holds a dictionary, builds the bot on that dictionary
    with its wallets replaced by those entries and without a wallet
    range, provided the first entry has a private key and an address
    other than the placeholder. *)
Theorem retry_reads_back_the_retry_file fs doc d e es prog :
  fs_lookup fs "config.json" = Some (Doc (JDict d)) ->
  ff_wallets doc = e :: es ->
  e_address e <> "0x..." ->
  e_private_key e <> "" ->
  let name := failed_file_name (ff_timestamp doc) in
  let fs' := write_failed_file fs doc in
  let ws := JList (map json_of_entry (ff_wallets doc)) in
  load_failed_wallets fs' (Some name) = ws /\
  main int_strip fs' [prog; "--retry"; name]
  = inr (Construct (JDict (dict_set d "wallets" ws)) None, fs').
Proof.
  intros Hcfg Hws Haddr Hkey. cbv zeta.
  assert (Hl : load_failed_wallets (write_failed_file fs doc)
                 (Some (failed_file_name (ff_timestamp doc)))
               = JList (map json_of_entry (ff_wallets doc))).
  { unfold load_failed_wallets, write_failed_file.
    rewrite fs_lookup_write. reflexivity. }
  split; [exact Hl|].
  unfold main, parse_argv. cbn [tl parse_args String.eqb orb Ascii.eqb
                                  Bool.eqb].
  replace (startswith (failed_file_name (ff_timestamp doc)) "-")
    with false by reflexivity.
  cbn [negb parse_args retry_mode retry_file wallet_range].
  rewrite Hl.
  assert (Hc : load_config (write_failed_file fs doc) "config.json"
               = Some (JDict d, write_failed_file fs doc)).
  { unfold load_config, write_failed_file.
    rewrite fs_lookup_write_other, Hcfg; [reflexivity|].
    unfold failed_file_name. cbn. discriminate. }
  rewrite Hc. cbn [setitem]. rewrite Hws. cbn [map len_is_0].
  unfold check_wallets. cbn [get_method getitem].
  rewrite dict_get_set.
  cbn [len_is_0 truthy negb first_item json_of_entry get_method dict_get
       String.eqb Ascii.eqb Bool.eqb eq_str or_caught].
  destruct (String.eqb_spec (e_address e) "0x...") as [E|_];
    [contradiction|].
  destruct (e_private_key e); [contradiction | reflexivity].
Qed.

End MainFacts.

(** What passes the checks of [main]. *)
Lemma check_wallets_construct config range cfg wr :
  check_wallets config range = Some (Construct cfg wr) ->
  cfg = config /\ wr = range /\
  exists d fw rest key,
    config = JDict d /\
    dict_get d "wallets" = Some (JList (JDict fw :: rest)) /\
    dict_get fw "address" <> Some (JStr "0x...") /\
    dict_get fw "private_key" = Some key /\
    truthy key = true.
Proof.
  unfold check_wallets. destruct config as [| | | | |d]; try discriminate.
  cbn [get_method getitem].
  destruct (dict_get d "wallets") as [ws|] eqn:Hws;
    [|cbn; discriminate].
  destruct (len_is_0 ws) as [z|] eqn:Hz; [|discriminate].
  destruct (truthy ws) eqn:Ht; cbn [negb]; [|discriminate].
  destruct z; [discriminate|].
  destruct ws as [| | |s|l|d']; try discriminate.
  - destruct s as [|c s]; [discriminate|]. cbn [first_item get_method].
    discriminate.
  - destruct l as [|fw rest]; [discriminate|]. cbn [first_item].
    destruct fw as [| | | | |fw]; try discriminate. cbn [get_method].
    destruct (eq_str match dict_get fw "address" with
                     | Some v => v
                     | None => JNull
                     end "0x...") eqn:Ha; [discriminate|].
    destruct (dict_get fw "private_key") as [key|] eqn:Hk;
      [|cbn; discriminate].
    destruct (truthy key) eqn:Hkey; cbn [negb]; [|discriminate].
    intros E. inversion E; subst. repeat split.
    exists d, fw, rest, key. repeat split; auto.
    intros Hf. rewrite Hf in Ha. cbn in Ha. discriminate.
Qed.

Section MainGuard.
Variable int_strip : string -> Exn + Z.

(** X14. [main] builds the bot only on a configuration that passed its
    checks: a dictionary whose [wallets] entry is a non-empty list, the
    first wallet being a dictionary with a private key that is not empty
    and an address that is not the placeholder [0x...]; the later wallets
    are not looked at. Outside retry mode that configuration is the
    document in [config.json] and the wallet range is that of the command
    line; in retry mode the wallets are those that [load_failed_wallets]
    returned, and the wallet range of the command line is dropped. In
    both cases no file was written. *)
Theorem bot_built_on_checked_wallets fs argv cfg wr fs' :
  main int_strip fs argv = inr (Construct cfg wr, fs') ->
  exists a d fw rest key,
    parse_argv int_strip argv = inr a /\
    fs' = fs /\
    cfg = JDict d /\
    dict_get d "wallets" = Some (JList (JDict fw :: rest)) /\
    dict_get fw "address" <> Some (JStr "0x...") /\
    dict_get fw "private_key" = Some key /\
    truthy key = true /\
    if retry_mode a
    then wr = None /\
         load_failed_wallets fs (retry_file a) = JList (JDict fw :: rest) /\
         exists d0, fs_lookup fs "config.json" = Some (Doc (JDict d0)) /\
                    d = dict_set d0 "wallets" (JList (JDict fw :: rest))
    else wr = wallet_range a /\
         fs_lookup fs "config.json" = Some (Doc cfg).
Proof.
  unfold main. destruct (parse_argv int_strip argv) as [e|a];
    [discriminate|].
  intros E. injection E as E.
  assert (Hload : forall config fs1,
            load_config fs "config.json" = Some (config, fs1) ->
            config <> JNull ->
            fs1 = fs /\ fs_lookup fs "config.json" = Some (Doc config)).
  { unfold load_config. intros config fs1.
    destruct (fs_lookup fs "config.json") as [[j|]|]; try discriminate.
    - intros H _. inversion H; subst. auto.
    - intros H Hn. inversion H; subst. contradiction. }
  destruct (retry_mode a) eqn:Hr.
  - destruct (load_failed_wallets fs (retry_file a))
      as [|b0|n0|s0|l0|dd0] eqn:Hfw;
      try (inversion E; fail);
      (destruct (load_config fs "config.json") as [[config fs1]|] eqn:Hc;
       [|inversion E]);
      (destruct config as [| | | | |d0];
       try (inversion E; fail); cbn [setitem len_is_0] in E);
      try (inversion E; fail).
    all: match type of E with
         | context [check_wallets ?c ?r] =>
             destruct (check_wallets c r) as [end_|] eqn:Hchk;
             [|inversion E]
         end.
    all: cbn [or_caught] in E; inversion E; subst.
    all: destruct (check_wallets_construct _ _ _ _ Hchk)
        as (Hcf & Hwr & d & fw & rest & key & Hd & Hws & Ha & Hk & Ht).
    all: subst cfg wr; inversion Hd; subst d; rewrite dict_get_set in Hws;
      inversion Hws; subst.
    destruct (Hload _ _ eq_refl ltac:(discriminate)) as [-> Hcfg].
    exists a, (dict_set d0 "wallets" (JList (JDict fw :: rest))),
           fw, rest, key.
    rewrite Hr. repeat split; auto; try apply dict_get_set.
    exists d0. split; [exact Hcfg | reflexivity].
  - destruct (load_config fs "config.json") as [[config fs1]|] eqn:Hc;
      [|inversion E].
    destruct config as [| | | | |d0]; try (inversion E; fail).
    all: destruct (check_wallets _ (wallet_range a)) as [end_|] eqn:Hchk;
      [|inversion E]; cbn [or_caught] in E; inversion E; subst.
    all: destruct (check_wallets_construct _ _ _ _ Hchk)
        as (-> & -> & d & fw & rest & key & Hd & Hws & Ha & Hk & Ht);
      try discriminate.
    inversion Hd; subst d.
    destruct (Hload _ _ eq_refl ltac:(discriminate)) as [-> Hcfg].
    exists a, d0, fw, rest, key. rewrite Hr. repeat split; auto.
Qed.

End MainGuard.

(** ** The order of the file names *)

Lemma string_app_assoc (a b c : string) :
  ((a ++ b) ++ c = a ++ (b ++ c))%string.
Proof. induction a as [|x a IH]; cbn; [reflexivity | rewrite IH; reflexivity]. Qed.

Lemma string_app_length (a b : string) :
  String.length (a ++ b) = (String.length a + String.length b)%nat.
Proof. induction a as [|x a IH]; cbn; [reflexivity | rewrite IH; reflexivity]. Qed.

Lemma string_compare_refl s : String.compare s s = Eq.
Proof.
  induction s as [|c s IH]; cbn; [reflexivity|].
  unfold Ascii.compare. rewrite N.compare_refl. exact IH.
Qed.

(** Two strings that start with pieces of one length are compared piece
    by piece. *)
Lemma string_compare_app x y r1 r2 :
  String.length x = String.length y ->
  String.compare (x ++ r1) (y ++ r2)
  = lex (String.compare x y) (String.compare r1 r2).
Proof.
  revert y. induction x as [|c x IH]; intros [|c' y] H; try discriminate.
  - reflexivity.
  - cbn in *. destruct (Ascii.compare c c'); cbn [lex]; try reflexivity.
    apply IH. congruence.
Qed.

Lemma str_in_slash_app (a b : string) :
  str_in "/" (a ++ b) = (str_in "/" a || str_in "/" b)%bool.
Proof.
  induction a as [|c a IH].
  - cbn. destruct b; reflexivity.
  - cbn [append str_in]. rewrite IH. cbn [prefix].
    destruct (ascii_dec "/" c); cbn; [|reflexivity].
    destruct a, b; reflexivity.
Qed.

Lemma endswith_app (a b : string) : endswith (a ++ b) b = true.
Proof.
  induction a as [|c a IH].
  - cbn [append]. destruct b; cbn [endswith]; rewrite String.eqb_refl;
      reflexivity.
  - cbn [append endswith]. rewrite IH. apply orb_true_r.
Qed.

Lemma range_In x lo hi : lo <= x < hi -> In x (range lo hi).
Proof.
  intros H. unfold range. apply in_map_iff.
  exists (Z.to_nat (x - lo)). split; [lia|]. apply in_seq. lia.
Qed.

(** The two-digit fields, by enumeration. *)
Lemma zfill_2_compare a b :
  0 <= a <= 99 -> 0 <= b <= 99 ->
  String.compare (zfill 2 a) (zfill 2 b) = (a ?= b).
Proof.
  intros Ha Hb.
  assert (T : forallb
                (fun a =>
                   forallb
                     (fun b =>
                        match String.compare (zfill 2 a) (zfill 2 b), a ?= b
                        with
                        | Eq, Eq | Lt, Lt | Gt, Gt => true
                        | _, _ => false
                        end)
                     (range 0 100))
                (range 0 100) = true)
    by (vm_compute; reflexivity).
  rewrite forallb_forall in T.
  specialize (T a (range_In a 0 100 ltac:(lia))).
  rewrite forallb_forall in T.
  specialize (T b (range_In b 0 100 ltac:(lia))). cbv beta in T.
  destruct (String.compare (zfill 2 a) (zfill 2 b)), (a ?= b);
    congruence.
Qed.

Lemma zfill_2_shape a :
  0 <= a <= 99 ->
  String.length (zfill 2 a) = 2%nat /\ str_in "/" (zfill 2 a) = false.
Proof.
  intros Ha.
  assert (T : forallb
                (fun a =>
                   (Nat.eqb (String.length (zfill 2 a)) 2
                    && negb (str_in "/" (zfill 2 a)))%bool)
                (range 0 100) = true)
    by (vm_compute; reflexivity).
  rewrite forallb_forall in T.
  specialize (T a (range_In a 0 100 ltac:(lia))). cbv beta in T.
  apply andb_true_iff in T. destruct T as [T1 T2].
  apply Nat.eqb_eq in T1. apply negb_true_iff in T2. auto.
Qed.

(** A year of four digits is two such fields. *)
Lemma year_fields y :
  1000 <= y <= 9999 ->
  of_Z y = (zfill 2 (y / 100) ++ zfill 2 (y mod 100))%string.
Proof.
  intros Hy.
  assert (T : forallb
                (fun y =>
                   String.eqb (of_Z y)
                              (zfill 2 (y / 100) ++ zfill 2 (y mod 100)))
                (range 1000 10000) = true)
    by (vm_compute; reflexivity).
  rewrite forallb_forall in T.
  specialize (T y (range_In y 1000 10000 ltac:(lia))).
  apply String.eqb_eq in T. exact T.
Qed.

Lemma compare_hundreds a b :
  lex (a / 100 ?= b / 100) (a mod 100 ?= b mod 100) = (a ?= b).
Proof.
  pose proof (Z.div_mod a 100 ltac:(lia)) as Ea.
  pose proof (Z.div_mod b 100 ltac:(lia)) as Eb.
  pose proof (Z.mod_pos_bound a 100 ltac:(lia)) as Ba.
  pose proof (Z.mod_pos_bound b 100 ltac:(lia)) as Bb.
  destruct (Z.compare_spec (a / 100) (b / 100)) as [H|H|H]; cbn [lex].
  - destruct (Z.compare_spec (a mod 100) (b mod 100)) as [H'|H'|H'];
      symmetry; [apply Z.compare_eq_iff | apply Z.compare_lt_iff
                 | apply Z.compare_gt_iff]; lia.
  - symmetry. apply Z.compare_lt_iff. lia.
  - symmetry. apply Z.compare_gt_iff. lia.
Qed.

(** The stamp of a date, field by field. *)
Lemma strftime_compact_fields d :
  four_digit_year d ->
  strftime_compact d
  = (zfill 2 (dt_year d / 100) ++ zfill 2 (dt_year d mod 100)
       ++ zfill 2 (dt_month d) ++ zfill 2 (dt_day d) ++ "_"
       ++ zfill 2 (dt_hour d) ++ zfill 2 (dt_minute d)
       ++ zfill 2 (dt_second d))%string.
Proof.
  intros (Hy & _). unfold strftime_compact.
  rewrite (year_fields _ Hy), string_app_assoc. reflexivity.
Qed.

Lemma strftime_compact_shape d :
  four_digit_year d ->
  String.length (strftime_compact d) = 15%nat /\
  str_in "/" (strftime_compact d) = false.
Proof.
  intros Hd. rewrite (strftime_compact_fields d Hd).
  destruct Hd as (Hy & Hm & Hdd & Hh & Hmi & Hs).
  assert (Hy1 : 0 <= dt_year d / 100 <= 99)
    by (split; [apply Z.div_pos; lia
               | apply Z.lt_succ_r, Z.div_lt_upper_bound; lia]).
  pose proof (Z.mod_pos_bound (dt_year d) 100 ltac:(lia)) as Hy2.
  destruct (zfill_2_shape (dt_year d / 100) Hy1) as [L1 S1].
  destruct (zfill_2_shape (dt_year d mod 100) ltac:(lia)) as [L2 S2].
  destruct (zfill_2_shape (dt_month d) ltac:(lia)) as [L3 S3].
  destruct (zfill_2_shape (dt_day d) ltac:(lia)) as [L4 S4].
  destruct (zfill_2_shape (dt_hour d) ltac:(lia)) as [L5 S5].
  destruct (zfill_2_shape (dt_minute d) ltac:(lia)) as [L6 S6].
  destruct (zfill_2_shape (dt_second d) ltac:(lia)) as [L7 S7].
  split.
  - rewrite !string_app_length, L1, L2, L3, L4, L5, L6, L7. reflexivity.
  - rewrite !str_in_slash_app, S1, S2, S3, S4, S5, S6, S7. reflexivity.
Qed.

(** The stamps are ordered as the dates are. *)
Lemma strftime_compact_compare a b :
  four_digit_year a -> four_digit_year b ->
  String.compare (strftime_compact a) (strftime_compact b)
  = datetime_compare a b.
Proof.
  intros Ha Hb.
  rewrite (strftime_compact_fields a Ha), (strftime_compact_fields b Hb).
  destruct Ha as (Hy & Hm & Hdd & Hh & Hmi & Hs).
  destruct Hb as (Hy' & Hm' & Hdd' & Hh' & Hmi' & Hs').
  assert (Hq : forall y, 1000 <= y <= 9999 -> 0 <= y / 100 <= 99).
  { intros y H. split; [apply Z.div_pos; lia
                       | apply Z.lt_succ_r, Z.div_lt_upper_bound; lia]. }
  assert (Hr : forall y, 0 <= y mod 100 <= 99).
  { intros y. pose proof (Z.mod_pos_bound y 100 ltac:(lia)). lia. }
  assert (Hl : forall x y, 0 <= x <= 99 -> 0 <= y <= 99 ->
                 String.length (zfill 2 x) = String.length (zfill 2 y)).
  { intros x y Hx Hy0. destruct (zfill_2_shape x Hx) as [-> _].
    destruct (zfill_2_shape y Hy0) as [-> _]. reflexivity. }
  rewrite string_compare_app by (apply Hl; auto).
  rewrite string_compare_app by (apply Hl; auto).
  rewrite string_compare_app by (apply Hl; lia).
  rewrite string_compare_app by (apply Hl; lia).
  rewrite (string_compare_app "_" "_") by reflexivity.
  rewrite string_compare_app by (apply Hl; lia).
  rewrite string_compare_app by (apply Hl; lia).
  rewrite !zfill_2_compare by (auto || lia).
  unfold datetime_compare. rewrite <- (compare_hundreds (dt_year a)).
  cbn [String.compare Ascii.compare lex].
  destruct (dt_year a / 100 ?= dt_year b / 100); cbn [lex]; reflexivity.
Qed.

Lemma failed_file_name_compare a b :
  four_digit_year a -> four_digit_year b ->
  String.compare (failed_file_name (strftime_compact a))
                 (failed_file_name (strftime_compact b))
  = datetime_compare a b.
Proof.
  intros Ha Hb. unfold failed_file_name.
  rewrite (string_compare_app "failed_wallets_" "failed_wallets_")
    by reflexivity.
  rewrite string_compare_refl. cbn [lex].
  rewrite string_compare_app.
  - rewrite (strftime_compact_compare a b Ha Hb), string_compare_refl.
    destruct (datetime_compare a b); reflexivity.
  - destruct (strftime_compact_shape a Ha) as [-> _].
    destruct (strftime_compact_shape b Hb) as [-> _]. reflexivity.
Qed.

(** Such names are those that [glob] looks for. *)
Lemma failed_file_name_matches d :
  four_digit_year d ->
  (negb (str_in "/" (failed_file_name (strftime_compact d)))
   && is_failed_wallets_name (failed_file_name (strftime_compact d)))%bool
  = true.
Proof.
  intros Hd. destruct (strftime_compact_shape d Hd) as [_ Hs].
  unfold failed_file_name. apply andb_true_iff. split.
  - rewrite !str_in_slash_app, Hs. reflexivity.
  - unfold is_failed_wallets_name. rewrite prefix_app.
    cbn [append drop andb]. apply endswith_app.
Qed.

(** ** [max] and [glob] *)

Lemma py_max_step names m :
  (forall y, In y names -> y <> m -> String.compare y m = Lt) ->
  forall acc,
    acc = m \/ (In m names /\ String.compare acc m = Lt) ->
    fold_left (fun m0 y => if String.ltb m0 y then y else m0) names acc = m.
Proof.
  induction names as [|y names IH]; intros Hlt acc Hacc; cbn [fold_left].
  - destruct Hacc as [H|[[] _]]. exact H.
  - apply IH; [intros z Hz; apply Hlt; right; exact Hz|].
    unfold String.ltb.
    destruct (string_dec y m) as [->|Hy].
    + destruct Hacc as [->|[_ Hc]].
      * rewrite string_compare_refl. left. reflexivity.
      * rewrite Hc. left. reflexivity.
    + pose proof (Hlt y (or_introl eq_refl) Hy) as Hym.
      destruct Hacc as [->|[[Hm|Hm] Hc]].
      * rewrite String.compare_antisym, Hym. left. reflexivity.
      * congruence.
      * right. split; [exact Hm|].
        destruct (String.compare acc y); assumption.
Qed.

Lemma py_max_greatest names m :
  In m names ->
  (forall y, In y names -> y <> m -> String.compare y m = Lt) ->
  py_max names = Some m.
Proof.
  intros Hin Hlt. destruct names as [|x names]; [destruct Hin|].
  cbn [py_max]. f_equal. apply py_max_step.
  - intros y Hy. apply Hlt. right. exact Hy.
  - destruct Hin as [->|Hin]; [left; reflexivity|].
    destruct (string_dec x m) as [->|Hx]; [left; reflexivity|].
    right. split; [exact Hin|]. apply Hlt; [left; reflexivity | exact Hx].
Qed.

Lemma fs_lookup_In fs path f :
  fs_lookup fs path = Some f -> In path (map fst fs).
Proof.
  induction fs as [|[p g] fs IH]; cbn [fs_lookup map fst]; [discriminate|].
  destruct (String.eqb_spec p path) as [->|_]; [left; reflexivity|].
  intros H. right. apply IH. exact H.
Qed.

(** X15. [--retry-last] takes the newest retry file. When the retry
    files in the directory carry the names that [save_results] gives
    them, stamped with dates whose year has four digits, the file that
    [load_failed_wallets] picks when it is given no name is the one with
    the latest date, in whatever order the directory lists them (the
    stamps have one length, so the greatest name is the latest date), and
    the wallets it returns are the entries of that file. *)
Theorem retry_last_takes_the_newest fs doc d :
  four_digit_year d ->
  fs_lookup fs (failed_file_name (strftime_compact d))
  = Some (Doc (json_of_failed_file doc)) ->
  (forall name,
      In name (glob_failed_wallets fs) ->
      exists d',
        four_digit_year d' /\
        name = failed_file_name (strftime_compact d') /\
        datetime_compare d' d <> Gt) ->
  py_max (glob_failed_wallets fs)
  = Some (failed_file_name (strftime_compact d)) /\
  load_failed_wallets fs None = JList (map json_of_entry (ff_wallets doc)).
Proof.
  intros Hd Hfile Hall.
  assert (Hmax : py_max (glob_failed_wallets fs)
                 = Some (failed_file_name (strftime_compact d))).
  { apply py_max_greatest.
    - unfold glob_failed_wallets. apply filter_In.
      split; [exact (fs_lookup_In _ _ _ Hfile)|].
      apply failed_file_name_matches. exact Hd.
    - intros y Hy Hne. destruct (Hall y Hy) as (d' & Hd' & -> & Hle).
      rewrite (failed_file_name_compare d' d Hd' Hd).
      destruct (datetime_compare d' d) eqn:Hc;
        [|reflexivity | congruence].
      exfalso. apply Hne. apply String.compare_eq_iff.
      rewrite (failed_file_name_compare d' d Hd' Hd). exact Hc. }
  split; [exact Hmax|].
  unfold load_failed_wallets. rewrite Hmax, Hfile. reflexivity.
Qed.

(** ** The command line *)


Section CommandLineFacts.
Variable int_strip : string -> Exn + Z.



(** What the end of the command line decides, when it starts with an
    argument that begins with a dash, which no [--retry] before it can
    take for its file. *)
Lemma parse_args_suffix (s0 : string) suffix (P : Args -> Prop) :
  startswith s0 "-" = true ->
  (forall acc a, parse_args int_strip (s0 :: suffix) acc = inr a -> P a) ->
  forall n args acc a,
    (List.length args <= n)%nat ->
    parse_args int_strip (args ++ s0 :: suffix) acc = inr a -> P a.
Proof.
  intros Hs0 Hbase.
  induction n as [|n IH]; intros [|arg rest] acc a Hn;
    cbn [app]; try apply Hbase; [cbn in Hn; lia|].
  cbn [List.length] in Hn. cbn [parse_args].
  assert (Hrest : forall acc', parse_args int_strip (rest ++ s0 :: suffix) acc'
                               = inr a -> P a).
  { intros acc'. apply IH. lia. }
  destruct (String.eqb arg "--retry" || String.eqb arg "-r")%bool.
  - destruct rest as [|next rest'].
    + cbn [app]. rewrite Hs0. cbn [negb]. apply Hbase.
    + cbn [app]. destruct (negb (startswith next "-")); [|apply Hrest].
      apply IH. cbn [List.length] in Hn. lia.
  - destruct (String.eqb arg "--retry-last" || String.eqb arg "-rl")%bool;
      [apply Hrest|].
    destruct (str_in "-" arg); [apply Hrest|].
    destruct (str_in "," arg); [|apply Hrest].
    destruct (map_exn int_strip (split_comma arg)); [discriminate|].
    apply Hrest.
Qed.

(** X17. The last retry option decides. Whatever comes before on the
    command line, a final [--retry-last] puts [main] in retry mode with no
    file named, so that an earlier [--retry FILE] is forgotten; and a final
    [--retry FILE], where [FILE] does not begin with a dash, puts it in
    retry mode with that file. *)
Theorem last_retry_option_decides prog before :
  (forall a,
      parse_argv int_strip (prog :: before ++ ["--retry-last"]) = inr a ->
      retry_mode a = true /\ retry_file a = None) /\
  (forall file a,
      startswith file "-" = false ->
      parse_argv int_strip (prog :: before ++ ["--retry"; file]) = inr a ->
      retry_mode a = true /\ retry_file a = Some file).
Proof.
  unfold parse_argv. cbn [tl]. split.
  - intros a.
    apply (parse_args_suffix "--retry-last" []
             (fun a => retry_mode a = true /\ retry_file a = None)
             eq_refl) with (n := List.length before); [|apply Nat.le_refl].
    intros acc a0 H. cbn in H. inversion H. split; reflexivity.
  - intros file a Hfile.
    apply (parse_args_suffix "--retry" [file]
             (fun a => retry_mode a = true /\ retry_file a = Some file)
             eq_refl) with (n := List.length before); [|apply Nat.le_refl].
    intros acc a0 H. cbn [parse_args String.eqb Ascii.eqb Bool.eqb orb] in H.
    rewrite Hfile in H. cbn in H. inversion H. split; reflexivity.
Qed.

End CommandLineFacts.

(** ** The facts on files and command lines, on examples *)

(** X12 in an empty directory. *)
Lemma default_config_is_inert_witness :
  let fs' := fs_write [] "config.json" default_config in
  main ExCli.int_digits [] ["main.py"] = inr (NoConfig, fs') /\
  main ExCli.int_digits fs' ["main.py"; "1-5"] = inr (NotConfigured, fs').
Proof.
  cbv zeta.
  destruct (default_config_is_inert
              ExCli.int_digits [] ["main.py"] (mkArgs None false None)
              ["main.py"; "1-5"]
              (mkArgs (Some (RangeText "1-5")) false None)
              eq_refl eq_refl eq_refl eq_refl eq_refl)
    as (H1 & _ & H2).
  split; [exact H1 | exact H2].
Defined.

(** X13 on the retry file of the scenario. *)
Lemma retry_reads_back_the_retry_file_witness :
  let fs := [("config.json", Doc (JDict ExCli.config_doc))] in
  let fs' := write_failed_file fs ExCli.retry_doc in
  fs_lookup fs "config.json" = Some (Doc (JDict ExCli.config_doc)) /\
  ff_wallets ExCli.retry_doc = [ExCli.entry_C] /\
  failed_file_name (ff_timestamp ExCli.retry_doc)
  = "failed_wallets_20250101_000005.json" /\
  main ExCli.int_digits fs'
       ["main.py"; "--retry"; "failed_wallets_20250101_000005.json"]
  = inr (Construct
           (JDict (dict_set ExCli.config_doc "wallets"
                            (JList [json_of_entry ExCli.entry_C])))
           None, fs').
Proof.
  cbv zeta. split; [reflexivity|]. split; [reflexivity|].
  split; [vm_compute; reflexivity|].
  exact (proj2 (retry_reads_back_the_retry_file
                  ExCli.int_digits
                  [("config.json", Doc (JDict ExCli.config_doc))]
                  ExCli.retry_doc ExCli.config_doc ExCli.entry_C []
                  "main.py" eq_refl eq_refl
                  ltac:(vm_compute; discriminate)
                  ltac:(vm_compute; discriminate))).
Defined.

(** X14 on a configuration that is filled in. *)
Lemma bot_built_on_checked_wallets_witness :
  let fs := [("config.json", Doc (JDict ExCli.config_doc))] in
  main ExCli.int_digits fs ["main.py"; "0,2"]
  = inr (Construct (JDict ExCli.config_doc) (Some (RangeList [0; 2])), fs) /\
  exists fw rest,
    dict_get ExCli.config_doc "wallets" = Some (JList (JDict fw :: rest)) /\
    dict_get fw "address" <> Some (JStr "0x...").
Proof.
  cbv zeta.
  assert (E : main ExCli.int_digits
                   [("config.json", Doc (JDict ExCli.config_doc))]
                   ["main.py"; "0,2"]
              = inr (Construct (JDict ExCli.config_doc)
                               (Some (RangeList [0; 2])),
                     [("config.json", Doc (JDict ExCli.config_doc))]))
    by (vm_compute; reflexivity).
  split; [exact E|].
  destruct (bot_built_on_checked_wallets ExCli.int_digits _ _ _ _ _ E)
    as (a & d & fw & rest & key & _ & _ & Hd & Hws & Ha & _).
  injection Hd as <-. exists fw, rest. split; assumption.
Defined.

(** X15 on a directory with the retry files of two runs. *)
Lemma retry_last_takes_the_newest_witness :
  four_digit_year ExCli.new_year /\
  glob_failed_wallets ExCli.files
  = ["failed_wallets_20241231_235958.json";
     "failed_wallets_20250101_000005.json"] /\
  load_failed_wallets ExCli.files None = JList [json_of_entry ExCli.entry_C].
Proof.
  assert (Hny : four_digit_year ExCli.new_year)
    by (vm_compute; intuition discriminate).
  assert (Hnye : four_digit_year ExCli.new_year_eve)
    by (vm_compute; intuition discriminate).
  split; [exact Hny|]. split; [vm_compute; reflexivity|].
  refine (proj2 (retry_last_takes_the_newest
                   ExCli.files ExCli.retry_doc ExCli.new_year Hny
                   ltac:(vm_compute; reflexivity) _)).
  intros name Hin.
  assert (Hg : glob_failed_wallets ExCli.files
               = [failed_file_name (strftime_compact ExCli.new_year_eve);
                  failed_file_name (strftime_compact ExCli.new_year)])
    by (vm_compute; reflexivity).
  rewrite Hg in Hin. destruct Hin as [<-|[<-|[]]].
  - exists ExCli.new_year_eve. split; [exact Hnye|].
    split; [reflexivity | vm_compute; discriminate].
  - exists ExCli.new_year. split; [exact Hny|].
    split; [reflexivity | vm_compute; discriminate].
Defined.


(** X17 after an earlier [--retry old.json]. *)
Lemma last_retry_option_decides_witness :
  parse_argv ExCli.int_digits
             ("main.py" :: ["--retry"; "old.json"; "3"] ++ ["--retry-last"])
  = inr (mkArgs (Some (RangeText "3")) true None) /\
  retry_file (mkArgs (Some (RangeText "3")) true None) = None.
Proof.
  assert (E : parse_argv ExCli.int_digits
                ("main.py" :: ["--retry"; "old.json"; "3"]
                           ++ ["--retry-last"])
              = inr (mkArgs (Some (RangeText "3")) true None))
    by (vm_compute; reflexivity).
  split; [exact E|].
  exact (proj2 (proj1 (last_retry_option_decides
                         ExCli.int_digits "main.py"
                         ["--retry"; "old.json"; "3"]) _ E)).
Defined.
